(** * Budget pacer: the pacing and forecasting engine of budget-pacer.js

    A shallow embedding of the engine functions of [src/budget-pacer.js]
    ([monthMeta_], [buildPerDayRows_], [computeWmaDaily_],
    [applyWmaForecast_], [trendLabel_] and the account-level figures
    computed in [main] and [writeAccountSheet_]) together with the
    properties the specification states about them, and of the helpers
    around them ([readConfig_], [seedOrMergeConfigWithAccounts_],
    [getUserSpreadsheet_], [makeAccountTabName_], [getSheetPosition_],
    [buildWeeklyTicksFromPerDay_] and the batches of [main]) with the
    properties the code itself shows.

    Modelling conventions.
    - A JavaScript number that holds a money amount or a ratio is a [num]:
      an exact rational or one of the three non-finite values of IEEE
      arithmetic (Infinity, -Infinity, NaN).  Rounding of doubles, overflow
      and the sign of zero are not modelled.
    - A JavaScript number that holds a day count or a loop index is a [Z].
    - A [Date] is its time value in milliseconds; the script's local zone is
      a fixed offset [LocalTZA] from UTC (no daylight-saving transitions).
      [Zoned] gives the month context in a zone whose offset changes.
    - Reading a property of [undefined] raises a TypeError: [result].
    - A JavaScript string is a [string] whose code units are below 256; an
      object used as a map from strings of digits is a [gmap], one used as
      a set of them a [gset]. *)

From Stdlib Require Import ZArith QArith Qminmax Qround Qabs Lia Lqa.
From Stdlib Require Import Ascii String DecimalString.
From stdpp Require Import base option list gmap strings.

Local Open Scope Z_scope.

(** ** JavaScript numbers *)

Inductive num : Type :=
| Fin (q : Q)
| PInf
| NInf
| NaN.

Definition zero : num := Fin 0%Q.

(** An integer used as a number. *)
Definition ofZ (z : Z) : num := Fin (inject_Z z).

Definition is_fin (a : num) : bool :=
  match a with Fin _ => true | _ => false end.

(** The rational a finite number stands for (0 for the others). *)
Definition toQ (a : num) : Q :=
  match a with Fin q => q | _ => 0%Q end.

(** Equality of numbers as values: rationals are compared with [Qeq]. *)
Definition num_eq (a b : num) : Prop :=
  match a, b with
  | Fin x, Fin y => (x == y)%Q
  | PInf, PInf | NInf, NInf | NaN, NaN => True
  | _, _ => False
  end.

Infix "=n=" := num_eq (at level 70, no associativity).

Definition Qlt_bool (x y : Q) : bool := negb (Qle_bool y x).

(** [a + b] *)
Definition jadd (a b : num) : num :=
  match a, b with
  | NaN, _ | _, NaN => NaN
  | Fin x, Fin y => Fin (x + y)
  | PInf, NInf | NInf, PInf => NaN
  | PInf, _ | _, PInf => PInf
  | NInf, _ | _, NInf => NInf
  end.

(** [a - b] *)
Definition jsub (a b : num) : num :=
  match a, b with
  | NaN, _ | _, NaN => NaN
  | Fin x, Fin y => Fin (x - y)
  | PInf, PInf | NInf, NInf => NaN
  | PInf, _ | _, NInf => PInf
  | NInf, _ | _, PInf => NInf
  end.

(** Infinity of sign [pos] times, or divided by, the finite [x]. *)
Definition inf_signed (pos : bool) (x : Q) : num :=
  if Qle_bool 0 x then (if pos then PInf else NInf)
  else (if pos then NInf else PInf).

(** [a * b] *)
Definition jmul (a b : num) : num :=
  match a, b with
  | NaN, _ | _, NaN => NaN
  | Fin x, Fin y => Fin (x * y)
  | Fin x, PInf | PInf, Fin x => if Qeq_bool x 0 then NaN else inf_signed true x
  | Fin x, NInf | NInf, Fin x => if Qeq_bool x 0 then NaN else inf_signed false x
  | PInf, PInf | NInf, NInf => PInf
  | PInf, NInf | NInf, PInf => NInf
  end.

(** [a / b]: a zero divisor gives NaN (0/0) or an infinity (x/0). *)
Definition jdiv (a b : num) : num :=
  match a, b with
  | NaN, _ | _, NaN => NaN
  | Fin x, Fin y =>
      if Qeq_bool y 0
      then (if Qeq_bool x 0 then NaN else inf_signed true x)
      else Fin (x / y)
  | Fin _, (PInf | NInf) => Fin 0
  | PInf, Fin y => inf_signed true y
  | NInf, Fin y => inf_signed false y
  | _, _ => NaN
  end.

(** [a <= b], [a < b], [a > b]: false whenever an operand is NaN. *)
Definition jle (a b : num) : bool :=
  match a, b with
  | NaN, _ | _, NaN => false
  | Fin x, Fin y => Qle_bool x y
  | NInf, _ | _, PInf => true
  | _, _ => false
  end.

Definition jlt (a b : num) : bool :=
  match a, b with
  | NaN, _ | _, NaN => false
  | Fin x, Fin y => Qlt_bool x y
  | PInf, _ | _, NInf => false
  | _, _ => true
  end.

Definition jgt (a b : num) : bool := jlt b a.

(** Truthiness of a number: 0 and NaN are falsy. *)
Definition truthy (a : num) : bool :=
  match a with
  | Fin x => negb (Qeq_bool x 0)
  | NaN => false
  | _ => true
  end.

(** [v || d] where [v] may be [undefined] ([None]). *)
Definition or_default (v : option num) (d : num) : num :=
  match v with
  | Some a => if truthy a then a else d
  | None => d
  end.

(** [Math.max(a, b)] *)
Definition Math_max (a b : num) : num :=
  match a, b with
  | NaN, _ | _, NaN => NaN
  | _, _ => if jle a b then b else a
  end.

(** [Math.abs(a)] *)
Definition Math_abs (a : num) : num :=
  match a with
  | Fin x => Fin (Qabs x)
  | NaN => NaN
  | _ => PInf
  end.

(** [Math.round(a)]: the nearest integer, halves towards +Infinity. *)
Definition Math_round (a : num) : num :=
  match a with
  | Fin x => ofZ (Qfloor (x + (1 # 2)))
  | other => other
  end.

Definition string_of_Z (z : Z) : string :=
  NilZero.string_of_int (Z.to_int z).

(** The string a number concatenates as, for the values [Math.round]
    returns: decimal digits for an integer (below 1e21, where JavaScript
    turns to exponent notation), and the names of the non-finite values. *)
Definition ToString (a : num) : string :=
  match a with
  | Fin x => string_of_Z (Qfloor x)
  | PInf => "Infinity"
  | NInf => "-Infinity"
  | NaN => "NaN"
  end.

(** ** Errors *)

Inductive JsError : Type := TypeError.

Inductive result (A : Type) : Type :=
| Ok (a : A)
| Throw (e : JsError).

Arguments Ok {A} a.
Arguments Throw {A} e.

(** ** Dates (ECMAScript, section "Time Values and Time Range") *)

Definition msPerDay : Z := 24 * 60 * 60 * 1000.

Definition Day (t : Z) : Z := t / msPerDay.

Definition DaysInYear (y : Z) : Z :=
  if (y mod 4 =? 0) && (negb (y mod 100 =? 0) || (y mod 400 =? 0))
  then 366 else 365.

Definition InLeapYear (y : Z) : Z := if DaysInYear y =? 366 then 1 else 0.

(** Day number of 1 January of year [y] (day 0 is 1970-01-01). *)
Definition DayFromYear (y : Z) : Z :=
  365 * (y - 1970) + (y - 1969) / 4 - (y - 1901) / 100 + (y - 1601) / 400.

(** The year a day falls in: the largest [y] with [DayFromYear y <= day].
    Days are counted in 400-year eras of 146097 days from 2000-01-01 (day
    10957); within an era the year is one of three candidates. *)
Definition YearFromDay (day : Z) : Z :=
  let e := (day - 10957) / 146097 in
  let r := (day - 10957) mod 146097 in
  let k0 := r / 366 in
  let fits k := DayFromYear (2000 + k) - 10957 <=? r in
  2000 + 400 * e +
  (if fits (k0 + 2) then k0 + 2 else if fits (k0 + 1) then k0 + 1 else k0).

Definition DayWithinYear (day : Z) : Z := day - DayFromYear (YearFromDay day).

(** Days of the year before month [m] (0-based) starts; [l] is 1 in a leap
    year. *)
Definition DaysBeforeMonth (l m : Z) : Z :=
  match m with
  | 0 => 0
  | 1 => 31
  | 2 => 59 + l
  | 3 => 90 + l
  | 4 => 120 + l
  | 5 => 151 + l
  | 6 => 181 + l
  | 7 => 212 + l
  | 8 => 243 + l
  | 9 => 273 + l
  | 10 => 304 + l
  | 11 => 334 + l
  | _ => 365 + l
  end.

Definition MonthFromDay (day : Z) : Z :=
  let l := InLeapYear (YearFromDay day) in
  let dw := DayWithinYear day in
  if dw <? 31 then 0
  else if dw <? 59 + l then 1
  else if dw <? 90 + l then 2
  else if dw <? 120 + l then 3
  else if dw <? 151 + l then 4
  else if dw <? 181 + l then 5
  else if dw <? 212 + l then 6
  else if dw <? 243 + l then 7
  else if dw <? 273 + l then 8
  else if dw <? 304 + l then 9
  else if dw <? 334 + l then 10
  else 11.

Definition DateFromDay (day : Z) : Z :=
  let l := InLeapYear (YearFromDay day) in
  DayWithinYear day - DaysBeforeMonth l (MonthFromDay day) + 1.

(** [MakeDay(year, month, date)]: months and dates out of range carry over. *)
Definition MakeDay (year month date : Z) : Z :=
  let ym := year + month / 12 in
  let mn := month mod 12 in
  DayFromYear ym + DaysBeforeMonth (InLeapYear ym) mn + date - 1.

Section LocalZone.

(** Offset of the script's local zone from UTC, in milliseconds. *)
Variable LocalTZA : Z.

(** A [Date] object, by its time value (milliseconds since the epoch, UTC). *)
Record Date : Type := mkDate { getTime : Z }.

(** [new Date(y, m, d)]: local midnight of the day; a year 0..99 means
    1900 + y. *)
Definition Date_ymd (y m d : Z) : Date :=
  let yr := if (0 <=? y) && (y <=? 99) then 1900 + y else y in
  mkDate (MakeDay yr m d * msPerDay - LocalTZA).

(** [new Date(ms)] *)
Definition Date_ms (ms : Z) : Date := mkDate ms.

Definition LocalTime (dt : Date) : Z := getTime dt + LocalTZA.

(** [dt.getDate()]: day of the month, local time. *)
Definition getDate (dt : Date) : Z := DateFromDay (Day (LocalTime dt)).

(** [dt.getMonth()], [dt.getFullYear()] *)
Definition getMonth (dt : Date) : Z := MonthFromDay (Day (LocalTime dt)).
Definition getFullYear (dt : Date) : Z := YearFromDay (Day (LocalTime dt)).

End LocalZone.

(** ** The engine *)

(** [WMA_WINDOW_DAYS]: lookback window of the weighted recent average. *)
Definition WMA_WINDOW_DAYS : Z := 7.

(** What [Utilities.formatDate(today, tz, p)] yields for the patterns
    'yyyy', 'M' and 'd': the civil date of the instant [today] in [tz]. *)
Record Today : Type := mkToday { fmt_yyyy : Z; fmt_M : Z; fmt_d : Z }.

Record MonthContext : Type := mkMonthContext {
  tz : string;
  y : Z;
  m0 : Z;
  first : Date;
  daysInMonth : Z;
  daysElapsed : Z
}.

Record DailyObservation : Type := mkObs { obs_date : Date; obs_cost : num }.

(** A row of the per-day series.  The two forecast fields are absent
    ([None]) until [applyWmaForecast_] writes them. *)
Record DayRow : Type := mkDayRow {
  date : Date;
  cost : num;
  cumSpend : num;
  targetDaily : num;
  cumTarget : num;
  gap : num;
  cumGap : num;
  runningPacePct : num;
  recDaily : num;
  cumForecastWma : option num;
  projectedEomWmaAtDay : option num
}.

Section Engine.

Variable LocalTZA : Z.

(** [monthMeta_(today, tz)] *)
Definition monthMeta_ (today : Today) (tz : string) : MonthContext :=
  let y := fmt_yyyy today in
  let m0 := fmt_M today - 1 in
  let first := Date_ymd LocalTZA y m0 1 in
  let next := Date_ymd LocalTZA y (m0 + 1) 1 in
  let end_ := Date_ms (getTime next - 24 * 60 * 60 * 1000) in
  let daysInMonth := getDate LocalTZA end_ in
  let daysElapsed := Z.min (fmt_d today) daysInMonth in
  mkMonthContext tz y m0 first daysInMonth daysElapsed.

(** The body of the first loop of [buildPerDayRows_]: one observation is
    added to the cost of its day of the month. *)
Definition groupStep (byDay : gmap Z num) (o : DailyObservation) : gmap Z num :=
  let day := getDate LocalTZA (obs_date o) in
  <[day := jadd (or_default (byDay !! day) zero)
                (or_default (Some (obs_cost o)) zero)]> byDay.

(** The first loop of [buildPerDayRows_]: costs grouped by day of month. *)
Definition groupByDay (daily : list DailyObservation) : gmap Z num :=
  foldl groupStep ∅ daily.

(** [targetDaily] of [buildPerDayRows_]. *)
Definition targetDailyOf (monthlyBudget : num) (mCtx : MonthContext) : num :=
  if 0 <? daysInMonth mCtx then jdiv monthlyBudget (ofZ (daysInMonth mCtx))
  else zero.

(** The body of the second loop of [buildPerDayRows_]: the row pushed for
    day [d], [cumSpend] being the spend accumulated over the days before. *)
Definition perDayRow (byDay : gmap Z num) (monthlyBudget : num)
    (mCtx : MonthContext) (d : Z) (cumSpend : num) : DayRow :=
  let targetDaily := targetDailyOf monthlyBudget mCtx in
  let cost := or_default (byDay !! d) zero in
  let cumSpend := jadd cumSpend cost in
  let cumTarget := jmul targetDaily (ofZ d) in
  let gap := jsub cost targetDaily in
  let cumGap := jsub cumSpend cumTarget in
  let runningPacePct :=
    if jgt monthlyBudget zero then jdiv cumSpend monthlyBudget else zero in
  mkDayRow (Date_ymd LocalTZA (y mCtx) (m0 mCtx) d)
           cost cumSpend targetDaily cumTarget gap cumGap runningPacePct
           (if 0 <? daysInMonth mCtx - d
            then Math_max (jdiv (jsub monthlyBudget cumSpend)
                                (ofZ (daysInMonth mCtx - d))) zero
            else zero)
           None None.

(** The second loop of [buildPerDayRows_]: [n] more rows from day [d] on. *)
Fixpoint perDayLoop (byDay : gmap Z num) (monthlyBudget : num)
    (mCtx : MonthContext) (n : nat) (d : Z) (cum : num) : list DayRow :=
  match n with
  | O => []
  | S n' =>
      let row := perDayRow byDay monthlyBudget mCtx d cum in
      row :: perDayLoop byDay monthlyBudget mCtx n' (d + 1) (cumSpend row)
  end.

(** [buildPerDayRows_(daily, monthlyBudget, mCtx)] *)
Definition buildPerDayRows_ (daily : list DailyObservation)
    (monthlyBudget : num) (mCtx : MonthContext) : list DayRow :=
  perDayLoop (groupByDay daily) monthlyBudget mCtx
             (Z.to_nat (daysInMonth mCtx)) 1 zero.

End Engine.

(** The loop of [computeWmaDaily_]: iterations [i], [i+1], ... while
    [i < n] ([fuel] bounds their number), with the sums so far.  Returns
    the final [(sumW, sumWX)]. *)
Fixpoint wmaLoop (perDay : list DayRow) (daysElapsed n : Z) (fuel : nat)
    (i : Z) (sumW : Z) (sumWX : num) : result (Z * num) :=
  match fuel with
  | O => Ok (sumW, sumWX)
  | S fuel' =>
      let idx := daysElapsed - i in
      if idx <=? 0 then Ok (sumW, sumWX)
      else
        match perDay !! Z.to_nat (idx - 1) with
        | None => Throw TypeError
        | Some row =>
            let cost := or_default (Some (cost row)) zero in
            let w := n - i in
            wmaLoop perDay daysElapsed n fuel' (i + 1)
                    (sumW + w) (jadd sumWX (jmul (ofZ w) cost))
        end
  end.

(** [computeWmaDaily_(perDay, daysElapsed, window)] *)
Definition computeWmaDaily_ (perDay : list DayRow) (daysElapsed window : Z)
    : result num :=
  let n := Z.min window (Z.max daysElapsed 0) in
  if n <=? 0 then Ok zero
  else
    match wmaLoop perDay daysElapsed n (Z.to_nat n) 0 0 zero with
    | Throw e => Throw e
    | Ok (sumW, sumWX) =>
        Ok (if sumW =? 0 then zero else jdiv sumWX (ofZ sumW))
    end.

(** The body of the loop of [applyWmaForecast_] at day [d]. *)
Definition forecastRow (mCtx : MonthContext) (spendMtd wmaDaily : num)
    (d : Z) (r : DayRow) : DayRow :=
  mkDayRow (date r) (cost r) (cumSpend r) (targetDaily r) (cumTarget r)
           (gap r) (cumGap r) (runningPacePct r) (recDaily r)
           (Some (if d <=? daysElapsed mCtx
                  then cumSpend r
                  else jadd spendMtd (jmul wmaDaily (ofZ (d - daysElapsed mCtx)))))
           (Some (jadd (cumSpend r)
                       (jmul wmaDaily (ofZ (daysInMonth mCtx - d))))).

(** The loop of [applyWmaForecast_] over the rows from day [d] on. *)
Fixpoint forecastLoop (mCtx : MonthContext) (spendMtd wmaDaily : num)
    (d : Z) (rows : list DayRow) : list DayRow :=
  match rows with
  | [] => []
  | r :: rows' =>
      forecastRow mCtx spendMtd wmaDaily d r
      :: forecastLoop mCtx spendMtd wmaDaily (d + 1) rows'
  end.

(** [applyWmaForecast_(perDay, mCtx, spendMtd, wmaDaily)]: the array after
    the call (the rows are updated in place and the array is returned). *)
Definition applyWmaForecast_ (perDay : list DayRow) (mCtx : MonthContext)
    (spendMtd wmaDaily : num) : list DayRow :=
  forecastLoop mCtx spendMtd wmaDaily 1 perDay.

(** [trendLabel_(paceDeltaPct)] *)
Definition trendLabel_ (paceDeltaPct : num) : string :=
  let abs := Math_abs paceDeltaPct in
  let pct := Math_round (jmul abs (ofZ 100)) in
  if jle abs (Fin (5 # 100)) then "On Target"
  else if jlt paceDeltaPct zero
       then "Under " ++ ToString pct ++ "%"
       else "Over " ++ ToString pct ++ "%".

(** The account-level figures of [main] (one overview row). *)
Record Summary : Type := mkSummary {
  availableRemaining : num;
  targetSpendToDate : num;
  paceVsTarget : num;
  pctBudgetSpent : num;
  remainingDays : Z;
  projectedEomSpend : num;
  recommendedDailySpend : num;
  paceDeltaPct : num;
  trendText : string
}.

Definition accountSummary (budgetCap spendMtd wmaDaily : num)
    (mCtx : MonthContext) : Summary :=
  let availRem := Math_max (jsub budgetCap spendMtd) zero in
  let targetToDate :=
    jmul budgetCap (jdiv (ofZ (daysElapsed mCtx)) (ofZ (daysInMonth mCtx))) in
  let paceVsTarget := jsub spendMtd targetToDate in
  let pctBudgetSpent :=
    if jgt budgetCap zero then jdiv spendMtd budgetCap else zero in
  let remainingDays := Z.max (daysInMonth mCtx - daysElapsed mCtx) 0 in
  let projectedEom := jadd spendMtd (jmul wmaDaily (ofZ remainingDays)) in
  let recDaily :=
    if 0 <? remainingDays
    then Math_max (jdiv (jsub budgetCap spendMtd) (ofZ remainingDays)) zero
    else zero in
  let paceDeltaPct :=
    if jgt targetToDate zero
    then jsub (jdiv spendMtd targetToDate) (ofZ 1) else zero in
  mkSummary availRem targetToDate paceVsTarget pctBudgetSpent remainingDays
            projectedEom recDaily paceDeltaPct (trendLabel_ paceDeltaPct).

(** The key figures [writeAccountSheet_] computes again from its [ctx]:
    target to date, pace vs target, share of budget spent, remaining days,
    projected end-of-month spend and recommended daily spend. *)
Record SheetKpis : Type := mkSheetKpis {
  kpi_targetToDate : num;
  kpi_paceVsTarget : num;
  kpi_pctBudgetSpent : num;
  kpi_remainingDays : Z;
  kpi_projectedEom : num;
  kpi_recDaily : num
}.

Definition writeAccountSheet_kpis (monthlyBudget spendMtd wmaDaily : num)
    (ctx_daysInMonth ctx_daysElapsed : Z) : SheetKpis :=
  let targetToDate :=
    jmul monthlyBudget (jdiv (ofZ ctx_daysElapsed) (ofZ ctx_daysInMonth)) in
  let paceVsTarget := jsub spendMtd targetToDate in
  let pctBudgetSpent :=
    if jgt monthlyBudget zero then jdiv spendMtd monthlyBudget else zero in
  let remainingDays := Z.max (ctx_daysInMonth - ctx_daysElapsed) 0 in
  let projectedEom := jadd spendMtd (jmul wmaDaily (ofZ remainingDays)) in
  let recDaily :=
    if 0 <? remainingDays
    then Math_max (jdiv (jsub monthlyBudget spendMtd) (ofZ remainingDays)) zero
    else zero in
  mkSheetKpis targetToDate paceVsTarget pctBudgetSpent remainingDays
              projectedEom recDaily.

(** The pacing computations of [main] for one account (the body of its
    [try]): month context, base series, weighted average, forecast and
    overview figures. *)
Definition accountPacing (LocalTZA : Z) (today : Today) (tzname : string)
    (dailyActuals : list DailyObservation) (budgetCap spendMtd : num)
    : result (list DayRow * Summary) :=
  let mCtx := monthMeta_ LocalTZA today tzname in
  let perDayBase := buildPerDayRows_ LocalTZA dailyActuals budgetCap mCtx in
  match computeWmaDaily_ perDayBase (daysElapsed mCtx) WMA_WINDOW_DAYS with
  | Throw err => Throw err
  | Ok wmaDaily =>
      let perDay := applyWmaForecast_ perDayBase mCtx spendMtd wmaDaily in
      Ok (perDay, accountSummary budgetCap spendMtd wmaDaily mCtx)
  end.

(** ** Reference notions the properties are stated with *)

Definition is_leap (yr : Z) : bool :=
  (yr mod 4 =? 0) && (negb (yr mod 100 =? 0) || (yr mod 400 =? 0)).

(** Length of month [M] (1..12) of year [yr] in the Gregorian calendar. *)
Definition month_length (yr M : Z) : Z :=
  match M with
  | 2 => if is_leap yr then 29 else 28
  | 4 | 6 | 9 | 11 => 30
  | _ => 31
  end.

(** A calendar date as [Utilities.formatDate] prints it: a year of the era
    (1 or later), a month 1..12 and a day of that month. *)
Definition valid_date (t : Today) : Prop :=
  1 <= fmt_yyyy t /\ 1 <= fmt_M t <= 12 /\
  1 <= fmt_d t <= month_length (fmt_yyyy t) (fmt_M t).

(** The year [new Date(y, m, d)] takes [y] for. *)
Definition fullYear (yr : Z) : Z :=
  if (0 <=? yr) && (yr <=? 99) then 1900 + yr else yr.

Fixpoint sumQ (l : list Q) : Q :=
  match l with
  | [] => 0%Q
  | x :: l' => (x + sumQ l')%Q
  end.

Fixpoint sumZ (l : list Z) : Z :=
  match l with
  | [] => 0
  | x :: l' => x + sumZ l'
  end.

(** Every observation carries a real (finite) cost. *)
Definition finite_costs (daily : list DailyObservation) : bool :=
  forallb (fun o => is_fin (obs_cost o)) daily.

(** Every observation carries a real cost that is not negative. *)
Definition nonneg_costs (daily : list DailyObservation) : bool :=
  forallb (fun o => match obs_cost o with
                    | Fin q => Qle_bool 0 q
                    | _ => false
                    end) daily.

(** Every row carries a real (finite) cost. *)
Definition finite_row_costs (perDay : list DayRow) : bool :=
  forallb (fun r => is_fin (cost r)) perDay.

(** The observations dated (local time) on day-of-month [d]. *)
Definition observationsOn (tza : Z) (daily : list DailyObservation) (d : Z)
    : list DailyObservation :=
  filter (fun o => getDate tza (obs_date o) = d) daily.

(** Sum of the costs of the observations of day-of-month [d]. *)
Definition dayCost (tza : Z) (daily : list DailyObservation) (d : Z) : Q :=
  sumQ (map (fun o => toQ (obs_cost o)) (observationsOn tza daily d)).

(** Running sum of [dayCost] over the days 1..[d]. *)
Definition cumCost (tza : Z) (daily : list DailyObservation) (d : Z) : Q :=
  sumQ (map (dayCost tza daily) (seqZ 1 d)).

(** Cost of the row of day [j] (1-based) of a series. *)
Definition costOfDay (perDay : list DayRow) (j : Z) : Q :=
  match perDay !! Z.to_nat (j - 1) with
  | Some r => toQ (cost r)
  | None => 0%Q
  end.

(** The window of the weighted average: the [n] days that end with day
    [e], oldest first; day [j] of it weighs [j - (e - n)], that is 1 for
    the oldest day up to [n] for day [e]. *)
Definition wmaWindow (e n : Z) : list Z := seqZ (e - n + 1) n.

Definition wmaWeight (e n j : Z) : Z := j - (e - n).

Definition weightedAverage (perDay : list DayRow) (e n : Z) : Q :=
  (sumQ (map (fun j => inject_Z (wmaWeight e n j) * costOfDay perDay j)
             (wmaWindow e n))
   / sumQ (map (fun j => inject_Z (wmaWeight e n j)) (wmaWindow e n)))%Q.

(** The fields of a row that [buildPerDayRows_] computes. *)
Definition baseFields (r : DayRow)
    : Date * num * num * num * num * num * num * num * num :=
  (date r, cost r, cumSpend r, targetDaily r, cumTarget r, gap r, cumGap r,
   runningPacePct r, recDaily r).

(** ** JavaScript strings

    A string is the list of its code units, taken below 256 here (the
    ASCII and Latin-1 characters). *)

Definition chars (s : string) : list ascii := list_ascii_of_string s.
Definition text (l : list ascii) : string := string_of_list_ascii l.

(** The white space and line terminators [trim] removes (TAB, LF, VT, FF,
    CR, SP and NBSP below 256). *)
Definition isWhiteSpace (c : ascii) : bool :=
  let n := nat_of_ascii c in
  ((9 <=? n) && (n <=? 13) || (n =? 32) || (n =? 160))%nat.

Fixpoint dropWhile {A} (f : A -> bool) (l : list A) : list A :=
  match l with
  | [] => []
  | x :: l' => if f x then dropWhile f l' else l
  end.

(** [s.trim()] *)
Definition trim (s : string) : string :=
  text (rev (dropWhile isWhiteSpace (rev (dropWhile isWhiteSpace (chars s))))).

(** [s.replace(/-/g, '')] *)
Definition removeDashes (s : string) : string :=
  text (List.filter (fun c => negb (Ascii.eqb c "-")) (chars s)).

Definition isDigit (c : ascii) : bool :=
  let n := nat_of_ascii c in ((48 <=? n) && (n <=? 57))%nat.

(** [/^\d+$/.test(s)] *)
Definition allDigits (s : string) : bool :=
  match chars s with
  | [] => false
  | l => forallb isDigit l
  end.

(** ** The Config sheet *)

(** A cell as [getValues()] returns it: a string (empty for a blank
    cell), a number or a boolean (date cells are left out). *)
Inductive Cell : Type :=
| CStr (s : string)
| CNum (n : num)
| CBool (b : bool).

(** A data row of the Config sheet: its four columns. *)
Record ConfigRow : Type := mkConfigRow {
  cellId : Cell;
  cellName : Cell;
  cellBudget : Cell;
  cellIncluded : Cell
}.

Record ConfigEntry : Type := mkEntry {
  accountId : string;
  accountName : string;
  monthlyBudget : num
}.

(** What [readConfig_] writes to the log. *)
Inductive ConfigLog : Type :=
| BadCID (rawId : string)
| DuplicateCID (acctId : string).

(** The state of the loop of [readConfig_]: [out.rows], [out.index],
    [seen] and the log. *)
Record ReadState : Type := mkReadState {
  rows : list ConfigEntry;
  index : gmap string ConfigEntry;
  seen : gset string;
  logged : list ConfigLog
}.

Definition cellTruthy (c : Cell) : bool :=
  match c with
  | CStr s => negb (String.eqb s "")
  | CNum n => truthy n
  | CBool b => b
  end.

(** [!(c === false || c === 'FALSE')] *)
Definition includeOf (c : Cell) : bool :=
  match c with
  | CBool false => false
  | CStr s => negb (String.eqb s "FALSE")
  | _ => true
  end.

Section ConfigSheet.

(** The conversions of the runtime, [String(n)] and [Number(s)], are
    taken as they are: nothing below depends on what they return. *)
Variable NumberToString : num -> string.
Variable StringToNumber : string -> num.

(** [(c || '').toString()] *)
Definition cellText (c : Cell) : string :=
  if cellTruthy c
  then match c with
       | CStr s => s
       | CNum n => NumberToString n
       | CBool b => if b then "true" else "false"
       end
  else "".

(** [Number(c || 0)] *)
Definition cellNumber (c : Cell) : num :=
  if cellTruthy c
  then match c with
       | CStr s => StringToNumber s
       | CNum n => n
       | CBool b => if b then ofZ 1 else zero
       end
  else zero.

(** The body of the loop of [readConfig_]. *)
Definition readConfigStep (st : ReadState) (row : ConfigRow) : ReadState :=
  let rawId := trim (cellText (cellId row)) in
  let acctId := removeDashes rawId in
  let acctName := trim (cellText (cellName row)) in
  let monthlyBudget := cellNumber (cellBudget row) in
  let include := includeOf (cellIncluded row) in
  if String.eqb acctId "" || negb (allDigits acctId)
  then (if String.eqb rawId "" then st
        else mkReadState (rows st) (index st) (seen st)
                         (logged st ++ [BadCID rawId]))
  else if bool_decide (acctId ∈ seen st)
  then mkReadState (rows st) (index st) (seen st)
                   (logged st ++ [DuplicateCID acctId])
  else if negb include || jle monthlyBudget zero
  then st
  else
    let entry := mkEntry acctId acctName monthlyBudget in
    mkReadState (rows st ++ [entry]) (<[acctId := entry]> (index st))
                ({[acctId]} ∪ seen st) (logged st).

(** [readConfig_(sheet)], from the data rows of the sheet (none when the
    sheet has a header only): the final state, whose [rows] and [index]
    are the [out] returned. *)
Definition readConfig_ (data : list ConfigRow) : ReadState :=
  foldl readConfigStep (mkReadState [] ∅ ∅ []) data.

(** The entry a row stands for, when it is acceptable on its own: a
    digits-only id, not excluded, a budget that is not <= 0. *)
Definition entryOf (row : ConfigRow) : option ConfigEntry :=
  let rawId := trim (cellText (cellId row)) in
  let acctId := removeDashes rawId in
  if allDigits acctId && includeOf (cellIncluded row)
     && negb (jle (cellNumber (cellBudget row)) zero)
  then Some (mkEntry acctId (trim (cellText (cellName row)))
                     (cellNumber (cellBudget row)))
  else None.

End ConfigSheet.

(** The entries of a list that are the first with their account id. *)
Fixpoint firstPerId (done : gset string) (l : list ConfigEntry)
    : list ConfigEntry :=
  match l with
  | [] => []
  | e :: l' =>
      if bool_decide (accountId e ∈ done) then firstPerId done l'
      else e :: firstPerId ({[accountId e]} ∪ done) l'
  end.

(** The account ids of a list of entries. *)
Definition idsOf (l : list ConfigEntry) : gset string :=
  list_to_set (map accountId l).

(** What the loop of [readConfig_] has built after the data rows [l]:
    [out.rows] holds the first acceptable row of each id, [seen] the ids
    of [out.rows], and [out.index] maps each of these ids to its row. *)
Definition readInvariant (NumberToString : num -> string)
    (StringToNumber : string -> num) (st : ReadState) (l : list ConfigRow)
    : Prop :=
  rows st = firstPerId ∅ (omap (entryOf NumberToString StringToNumber) l) /\
  seen st = idsOf (rows st) /\
  index st = list_to_map (map (fun e => (accountId e, e)) (rows st)).

(** ** Seeding the Config sheet *)

(** A managed account as the iterator of [MccApp.accounts()] yields it:
    its customer id (digits, usually written with dashes) and its name
    ([None] for [null]). *)
Record Account : Type := mkAccount {
  getCustomerId : string;
  getName : option string
}.

(** A value of [map] in [seedOrMergeConfigWithAccounts_]: the sheet row of
    an id ([null] for a row that is still to be appended) and the name
    known for it. *)
Record SeedSlot : Type := mkSeedSlot {
  rowIndex : option Z;
  slotName : option string
}.

(** The state of [seedOrMergeConfigWithAccounts_]: [map], the rows
    [[id, name, '', true]] of [toAppend] (by their id and name), the calls
    [sheet.getRange(rowIndex, 2).setValue(name)] made so far (by their row
    and name) and [namesUpdated].  [map] is keyed by strings of digits, for
    which a JavaScript object is a plain finite map. *)
Record SeedState : Type := mkSeedState {
  seedMap : gmap string SeedSlot;
  toAppend : list (string * option string);
  nameWrites : list (option Z * string);
  namesUpdated : Z
}.

(** The account id [accountIdOf a] is [a.getCustomerId().replace(/-/g,'')]. *)
Definition accountIdOf (a : Account) : string :=
  removeDashes (getCustomerId a).

Section SeedConfig.

Variable NumberToString : num -> string.

(** [(data[i][0]||'').toString().replace(/-/g,'').trim()] *)
Definition seedRowId (row : ConfigRow) : string :=
  trim (removeDashes (cellText NumberToString (cellId row))).

(** The body of the loop over the data rows; row [i] of [data] is row
    [i + 2] of the sheet. *)
Definition seedRowStep (m : gmap string SeedSlot) (i : Z) (row : ConfigRow)
    : gmap string SeedSlot :=
  let id := seedRowId row in
  if negb (allDigits id) then m
  else <[id := mkSeedSlot (Some (i + 2))
                          (Some (cellText NumberToString (cellName row)))]> m.

Fixpoint seedRowsFrom (data : list ConfigRow) (i : Z)
    (m : gmap string SeedSlot) : gmap string SeedSlot :=
  match data with
  | [] => m
  | row :: data' => seedRowsFrom data' (i + 1) (seedRowStep m i row)
  end.

(** The body of the loop over the accounts of the manager account. *)
Definition seedAccountStep (st : SeedState) (a : Account) : SeedState :=
  let id := accountIdOf a in
  let name := getName a in
  match seedMap st !! id with
  | Some slot =>
      match name with
      | Some n =>
          if negb (String.eqb n "")
             && negb (bool_decide (slotName slot = Some n))
          then mkSeedState (seedMap st) (toAppend st)
                           (nameWrites st ++ [(rowIndex slot, n)])
                           (namesUpdated st + 1)
          else st
      | None => st
      end
  | None =>
      mkSeedState (<[id := mkSeedSlot None name]> (seedMap st))
                  (toAppend st ++ [(id, name)])
                  (nameWrites st) (namesUpdated st)
  end.

(** [seedOrMergeConfigWithAccounts_(sheet)], from the data rows of the
    sheet (none when it has a header only) and the accounts the iterator
    yields: the state after both loops.  [toAppend] is then written below
    the last row, and [added] is its length. *)
Definition seedOrMergeConfigWithAccounts_ (data : list ConfigRow)
    (accounts : list Account) : SeedState :=
  foldl seedAccountStep (mkSeedState (seedRowsFrom data 0 ∅) [] [] 0)
        accounts.

End SeedConfig.

(** What the loop over the accounts keeps true; [m0] is [map] as the loop
    over the data rows left it and [l] the accounts met so far. *)
Definition seedInvariant (m0 : gmap string SeedSlot) (st : SeedState)
    (l : list Account) : Prop :=
  (forall id, is_Some (seedMap st !! id) <->
              is_Some (m0 !! id) \/ id ∈ map fst (toAppend st)) /\
  NoDup (map fst (toAppend st)) /\
  (forall id, id ∈ map fst (toAppend st) <->
              id ∈ map accountIdOf l /\ m0 !! id = None) /\
  (forall id slot, seedMap st !! id = Some slot ->
                   m0 !! id = Some slot \/
                   rowIndex slot = None /\ id ∈ map accountIdOf l) /\
  Forall (fun r => exists a, a ∈ l /\ r = (accountIdOf a, getName a))
         (toAppend st) /\
  namesUpdated st = Z.of_nat (length (nameWrites st)).

(** ** The spreadsheet id *)

(** The errors [getUserSpreadsheet_] throws: 'Please paste a valid Google
    Sheet URL ...' and 'Could not parse spreadsheetId from URL.' *)
Inductive SheetUrlError : Type :=
| NoValidUrl
| NoSpreadsheetId.

(** The class [[a-zA-Z0-9-_]]. *)
Definition isIdChar (c : ascii) : bool :=
  let n := nat_of_ascii c in
  ((97 <=? n) && (n <=? 122) || (65 <=? n) && (n <=? 90)
   || (48 <=? n) && (n <=? 57) || (n =? 45) || (n =? 95))%nat.

Fixpoint takeWhile {A} (f : A -> bool) (l : list A) : list A :=
  match l with
  | [] => []
  | x :: l' => if f x then x :: takeWhile f l' else []
  end.

(** What follows [p] in [l], when [l] starts with [p]. *)
Fixpoint stripPrefix (p l : list ascii) : option (list ascii) :=
  match p, l with
  | [], _ => Some l
  | _ :: _, [] => None
  | a :: p', b :: l' => if Ascii.eqb a b then stripPrefix p' l' else None
  end.

(** [s.indexOf('/d/') !== -1] *)
Fixpoint hasSlashD (l : list ascii) : bool :=
  match l with
  | [] => false
  | _ :: l' =>
      match stripPrefix (chars "/d/") l with
      | Some _ => true
      | None => hasSlashD l'
      end
  end.

(** [s.match(/\/d\/([a-zA-Z0-9-_]+)/)]: group 1 of the leftmost match --
    the longest run of class characters after the first '/d/' that has
    one --, [None] when there is no match. *)
Fixpoint matchSheetId (l : list ascii) : option (list ascii) :=
  match l with
  | [] => None
  | _ :: l' =>
      match stripPrefix (chars "/d/") l with
      | Some rest =>
          match takeWhile isIdChar rest with
          | [] => matchSheetId l'
          | id => Some id
          end
      | None => matchSheetId l'
      end
  end.

(** [getUserSpreadsheet_()], from the script property
    BUDGET_PACING_SPREADSHEET_ID ([None] when it is not set) and
    [USER_SHEET_URL]: the id handed to [SpreadsheetApp.openById] and the
    script property after the call, or the error thrown. *)
Definition getUserSpreadsheet_ (stored : option string)
    (USER_SHEET_URL : string) : SheetUrlError + (string * option string) :=
  if match stored with
     | Some id => negb (String.eqb id "")
     | None => false
     end
  then inr (default ""%string stored, stored)
  else if String.eqb USER_SHEET_URL "" || negb (hasSlashD (chars USER_SHEET_URL))
  then inl NoValidUrl
  else match matchSheetId (chars USER_SHEET_URL) with
       | None => inl NoSpreadsheetId
       | Some id => inr (text id, Some (text id))
       end.

(** ** Account tabs *)

(** The characters [makeAccountTabName_] replaces: [ ] : ? * / and the
    backslash. *)
Definition isTabForbidden (c : ascii) : bool :=
  existsb (Ascii.eqb c) (chars "[]:?*/\").

(** [makeAccountTabName_(name, acctId)]; [name] is [None] when the account
    has no name ([null]). *)
Definition makeAccountTabName_ (name : option string) (acctId : string)
    : string :=
  let clean :=
    text (map (fun c => if isTabForbidden c then " "%char else c)
              (chars (default ""%string name))) in
  let clean :=
    if (80 <? String.length clean)%nat
    then trim (substring 0 80 clean) else clean in
  (clean ++ " - " ++ acctId)%string.

(** The loop of [main] over the configured ids, 50 at a time: the
    arguments [ids.slice(i, i + 50)] of [withIds], for i = 0, 50, ... *)
Fixpoint idChunksFrom {A} (ids : list A) (fuel : nat) (i : nat)
    : list (list A) :=
  match fuel with
  | O => []
  | S fuel' =>
      if (i <? length ids)%nat
      then take 50 (drop i ids) :: idChunksFrom ids fuel' (i + 50)
      else []
  end.

Definition idChunks {A} (ids : list A) : list (list A) :=
  idChunksFrom ids (length ids) 0.

(** [getSheetPosition_(ss, sheet)], from the sheet ids of [ss.getSheets()]
    and the id of [sheet]; [i] is the index the loop has reached. *)
Fixpoint sheetPositionFrom (arr : list Z) (sheetId : Z) (i : Z) : Z :=
  match arr with
  | [] => 1
  | a :: arr' => if a =? sheetId then i + 1
                 else sheetPositionFrom arr' sheetId (i + 1)
  end.

Definition getSheetPosition_ (arr : list Z) (sheetId : Z) : Z :=
  sheetPositionFrom arr sheetId 0.

(** ** Chart ticks *)

(** The loop of [buildWeeklyTicksFromPerDay_]: a tick every 7 days from
    day [d] up to [lastDay]. *)
Fixpoint weeklyTicksFrom (LocalTZA yr mo lastDay : Z) (fuel : nat) (d : Z)
    : list Date :=
  match fuel with
  | O => []
  | S fuel' =>
      if d <=? lastDay
      then Date_ymd LocalTZA yr mo d
           :: weeklyTicksFrom LocalTZA yr mo lastDay fuel' (d + 7)
      else []
  end.

(** [buildWeeklyTicksFromPerDay_(perDay)] *)
Definition buildWeeklyTicksFromPerDay_ (LocalTZA : Z) (perDay : list DayRow)
    : result (list Date) :=
  match perDay, last perDay with
  | r0 :: _, Some rl =>
      let yr := getFullYear LocalTZA (date r0) in
      let mo := getMonth LocalTZA (date r0) in
      let lastDay := getDate LocalTZA (date rl) in
      let ticks :=
        weeklyTicksFrom LocalTZA yr mo lastDay (Z.to_nat lastDay) 1 in
      match last ticks with
      | None => Throw TypeError
      | Some t =>
          Ok (if getDate LocalTZA t =? lastDay then ticks
              else ticks ++ [Date_ymd LocalTZA yr mo lastDay])
      end
  | _, _ => Ok []
  end.

(** The days of the month the loop of [buildWeeklyTicksFromPerDay_] runs
    through: [d], [d + 7], ... up to [lastDay]. *)
Fixpoint weeklyDaysFrom (lastDay : Z) (fuel : nat) (d : Z) : list Z :=
  match fuel with
  | O => []
  | S fuel' =>
      if d <=? lastDay then d :: weeklyDaysFrom lastDay fuel' (d + 7) else []
  end.

(** ** Zones with daylight saving

    The definitions above read the clock of the script at one constant
    offset from UTC.  In a zone with daylight saving the offset depends on
    the instant: ECMAScript's LocalTZA(t, isUTC).  [Zoned] gives
    [new Date(y, m, d)], [getDate] and [monthMeta_] for such a zone; at a
    constant offset they are the definitions above. *)

Module Zoned.

(** A zone: the offset from UTC, in milliseconds, at a UTC time value
    (LocalTZA(t, true)) and the offset a local time value is read with
    (LocalTZA(t, false)). *)
Record Zone : Type := mkZone {
  offsetAtUTC : Z -> Z;
  offsetAtLocal : Z -> Z
}.

Definition fixedZone (LocalTZA : Z) : Zone :=
  mkZone (fun _ => LocalTZA) (fun _ => LocalTZA).

Section InZone.

Variable zone : Zone.

(** [new Date(y, m, d)]: local midnight of the day, read with the offset
    of the zone at that local time. *)
Definition Date_ymd (y m d : Z) : Date :=
  let yr := if (0 <=? y) && (y <=? 99) then 1900 + y else y in
  let t := MakeDay yr m d * msPerDay in
  mkDate (t - offsetAtLocal zone t).

Definition LocalTime (dt : Date) : Z :=
  getTime dt + offsetAtUTC zone (getTime dt).

(** [dt.getDate()] *)
Definition getDate (dt : Date) : Z := DateFromDay (Day (LocalTime dt)).

(** [monthMeta_(today, tz)] *)
Definition monthMeta_ (today : Today) (tz : string) : MonthContext :=
  let y := fmt_yyyy today in
  let m0 := fmt_M today - 1 in
  let first := Date_ymd y m0 1 in
  let next := Date_ymd y (m0 + 1) 1 in
  let end_ := Date_ms (getTime next - 24 * 60 * 60 * 1000) in
  let daysInMonth := getDate end_ in
  let daysElapsed := Z.min (fmt_d today) daysInMonth in
  mkMonthContext tz y m0 first daysInMonth daysElapsed.

End InZone.

End Zoned.

(** ** Sample inputs *)


(** 3 November 2026, a script running on UTC. *)
Definition sampleCtx : MonthContext := monthMeta_ 0 (mkToday 2026 11 3) "UTC".

Definition sampleDaily : list DailyObservation :=
  [ mkObs (Date_ymd 0 2026 10 1) (Fin 5);
    mkObs (Date_ymd 0 2026 10 3) (Fin 2);
    mkObs (Date_ymd 0 2026 10 1) (Fin (1 # 2)) ].

(** An observation dated on a 31st, a day November does not have. *)
Definition sampleStray : DailyObservation :=
  mkObs (Date_ymd 0 2026 9 31) (Fin 9).

(** An observation dated 15 October, in the month before the context's. *)
Definition sampleOtherMonth : DailyObservation :=
  mkObs (Date_ymd 0 2026 9 15) (Fin 9).

Definition sampleRows : list DayRow :=
  buildPerDayRows_ 0 sampleDaily (Fin 300) sampleCtx.

(** The scenarios of the specification: a 30-day month on its 10th day,
    budget 3000; spend of 100 a day for 10 days, or of 200 a day for the
    first 5 days and nothing after. *)
Definition scenarioCtx : MonthContext := monthMeta_ 0 (mkToday 2026 11 10) "UTC".

Definition steadyDaily : list DailyObservation :=
  map (fun d => mkObs (Date_ymd 0 2026 10 d) (Fin 100)) (seqZ 1 10).

Definition burstDaily : list DailyObservation :=
  map (fun d => mkObs (Date_ymd 0 2026 10 d) (Fin 200)) (seqZ 1 5).

Definition steadyRows : list DayRow :=
  buildPerDayRows_ 0 steadyDaily (Fin 3000) scenarioCtx.

Definition burstRows : list DayRow :=
  buildPerDayRows_ 0 burstDaily (Fin 3000) scenarioCtx.

(** ** The calendar *)

Section Calendar.

Local Ltac divmod := Z.div_mod_to_equations; lia.

(** Case analysis on a month number known to lie in 0..11. *)
Local Ltac each_month mo :=
  let H := fresh in
  assert (H : mo = 0 \/ mo = 1 \/ mo = 2 \/ mo = 3 \/ mo = 4 \/ mo = 5 \/
              mo = 6 \/ mo = 7 \/ mo = 8 \/ mo = 9 \/ mo = 10 \/ mo = 11)
    by lia;
  repeat (destruct H as [H | H]; [subst mo |]); [.. | subst mo];
  repeat match goal with
         | |- context [?a + 1] =>
             lazymatch a with Z0 => idtac | Zpos _ => idtac end;
             let v := eval vm_compute in (a + 1) in change (a + 1) with v
         end.

Lemma DaysInYear_leap yr : DaysInYear yr = if is_leap yr then 366 else 365.
Proof. reflexivity. Qed.

Lemma InLeapYear_leap yr : InLeapYear yr = if is_leap yr then 1 else 0.
Proof. unfold InLeapYear. rewrite DaysInYear_leap. now destruct (is_leap yr). Qed.

Lemma DayFromYear_succ yr : DayFromYear (yr + 1) = DayFromYear yr + DaysInYear yr.
Proof.
  unfold DayFromYear, DaysInYear.
  destruct (Z.eqb_spec (yr mod 4) 0), (Z.eqb_spec (yr mod 100) 0),
    (Z.eqb_spec (yr mod 400) 0); cbn [andb orb negb]; divmod.
Qed.

(** [YearFromDay] is the year whose days include [day]. *)
Lemma YearFromDay_unique day yr :
  DayFromYear yr <= day < DayFromYear (yr + 1) -> YearFromDay day = yr.
Proof.
  unfold YearFromDay, DayFromYear. cbv zeta. intros H.
  repeat match goal with
         | |- context [?a <=? ?b] => destruct (Z.leb_spec a b)
         end; divmod.
Qed.

(** [YearFromDay] is ECMAScript's YearFromTime on day numbers: every day
    lies in the year it returns. *)
Lemma YearFromDay_spec day :
  DayFromYear (YearFromDay day) <= day < DayFromYear (YearFromDay day + 1).
Proof.
  unfold YearFromDay, DayFromYear. cbv zeta.
  repeat match goal with
         | |- context [?a <=? ?b] => destruct (Z.leb_spec a b)
         end; divmod.
Qed.

Lemma month_length_bounds yr M : 28 <= month_length yr M <= 31.
Proof.
  unfold month_length.
  destruct (is_leap yr), M as [|p|p]; try lia.
  all: do 4 (try destruct p as [p|p|]); lia.
Qed.

Lemma MakeDay_month yr mo d :
  0 <= mo <= 11 ->
  MakeDay yr mo d = DayFromYear yr + DaysBeforeMonth (InLeapYear yr) mo + d - 1.
Proof.
  intros Hmo. unfold MakeDay.
  rewrite Z.div_small, Z.mod_small by lia. now rewrite Z.add_0_r.
Qed.

Lemma MakeDay_in_year yr mo d :
  0 <= mo <= 11 -> 1 <= d <= month_length yr (mo + 1) ->
  DayFromYear yr <= MakeDay yr mo d < DayFromYear (yr + 1).
Proof.
  intros Hmo Hd. rewrite MakeDay_month, DayFromYear_succ by assumption.
  rewrite DaysInYear_leap, InLeapYear_leap. revert Hd.
  each_month mo; unfold month_length; destruct (is_leap yr); cbn; lia.
Qed.

(** A day of a month reads back as the year, month and day it was made of. *)
Lemma civil_roundtrip yr mo d :
  0 <= mo <= 11 -> 1 <= d <= month_length yr (mo + 1) ->
  YearFromDay (MakeDay yr mo d) = yr /\
  MonthFromDay (MakeDay yr mo d) = mo /\
  DateFromDay (MakeDay yr mo d) = d.
Proof.
  intros Hmo Hd.
  pose proof (YearFromDay_unique _ _ (MakeDay_in_year yr mo d Hmo Hd)) as Hy.
  assert (DayWithinYear (MakeDay yr mo d)
          = DaysBeforeMonth (InLeapYear yr) mo + d - 1) as Hdw.
  { unfold DayWithinYear. rewrite Hy, MakeDay_month by assumption. lia. }
  assert (MonthFromDay (MakeDay yr mo d) = mo) as Hm.
  { unfold MonthFromDay. rewrite Hy, Hdw, InLeapYear_leap.
    revert Hd.
    each_month mo; unfold month_length; destruct (is_leap yr); cbn; intros Hd;
      repeat match goal with
             | |- context [?a <? ?b] => destruct (Z.ltb_spec a b); try lia
             end. }
  split; [assumption|]. split; [assumption|].
  unfold DateFromDay. rewrite Hy, Hdw, Hm. lia.
Qed.

(** The day before the first of the next month is the last of the month. *)
Lemma MakeDay_month_end yr mo :
  0 <= mo <= 11 ->
  MakeDay yr (mo + 1) 1 - 1 = MakeDay yr mo (month_length yr (mo + 1)).
Proof.
  intros Hmo. rewrite (MakeDay_month yr mo) by assumption.
  unfold MakeDay. rewrite !InLeapYear_leap.
  each_month mo; unfold month_length;
    repeat match goal with
           | |- context [Zpos ?p mod 12] =>
               let v := eval vm_compute in (Zpos p mod 12) in
               change (Zpos p mod 12) with v
           | |- context [Zpos ?p / 12] =>
               let v := eval vm_compute in (Zpos p / 12) in
               change (Zpos p / 12) with v
           end;
    cbn -[DayFromYear is_leap];
    rewrite ?Z.add_0_r, ?DayFromYear_succ, ?DaysInYear_leap;
    destruct (is_leap yr); try lia; destruct (is_leap (yr + 1)); lia.
Qed.

End Calendar.

(** ** Numbers *)

Section Numbers.

Lemma num_eq_refl a : a =n= a.
Proof. destruct a; cbn; auto with qarith. Qed.

Lemma num_eq_sym a b : a =n= b -> b =n= a.
Proof. destruct a, b; cbn; auto with qarith. Qed.

Lemma num_eq_trans a b c : a =n= b -> b =n= c -> a =n= c.
Proof. destruct a, b, c; cbn; try tauto. apply Qeq_trans. Qed.

Lemma num_eq_fin_l a q : a =n= Fin q -> exists p, a = Fin p /\ (p == q)%Q.
Proof. destruct a; cbn; try tauto. eauto. Qed.

Lemma is_fin_true a : is_fin a = true -> a = Fin (toQ a).
Proof. now destruct a. Qed.

Lemma Qlt_bool_iff x y : Qlt_bool x y = true <-> (x < y)%Q.
Proof.
  unfold Qlt_bool. rewrite negb_true_iff.
  destruct (Qle_bool y x) eqn:E.
  - apply Qle_bool_iff in E. split; [discriminate | intros H; lra].
  - split; [intros _ | reflexivity].
    apply Qnot_le_lt. intros H. apply Qle_bool_iff in H. congruence.
Qed.

(** A real cost read through [cost || 0] is the cost. *)
Lemma or_default_fin q : or_default (Some (Fin q)) zero =n= Fin q.
Proof.
  cbn. destruct (Qeq_bool q 0) eqn:E; cbn; [|reflexivity].
  apply Qeq_bool_iff in E. now symmetry.
Qed.

Lemma or_default_fin_is_fin q : is_fin (or_default (Some (Fin q)) zero) = true.
Proof. cbn. now destruct (Qeq_bool q 0). Qed.

(** Division of reals by a non-zero integer is a real. *)
Lemma jdiv_fin_Z x k : k <> 0 -> jdiv (Fin x) (ofZ k) = Fin (x / inject_Z k).
Proof.
  intros Hk. cbn.
  destruct (Qeq_bool (inject_Z k) 0) eqn:E; [|reflexivity].
  apply Qeq_bool_iff in E. unfold Qeq in E. cbn in E. lia.
Qed.

Lemma jdiv_fin_pos x b : (0 < b)%Q -> jdiv (Fin x) (Fin b) = Fin (x / b).
Proof.
  intros Hb. cbn.
  destruct (Qeq_bool b 0) eqn:E; [|reflexivity].
  apply Qeq_bool_iff in E. lra.
Qed.

Lemma Math_max_fin x y : Math_max (Fin x) (Fin y) =n= Fin (Qmax x y).
Proof.
  cbn. destruct (Qle_bool x y) eqn:E; cbn.
  - apply Qle_bool_iff in E. symmetry. now apply Q.max_r.
  - symmetry. apply Q.max_l.
    apply Qlt_le_weak, Qlt_bool_iff. unfold Qlt_bool. now rewrite E.
Qed.

End Numbers.

(** ** The month context *)

Section MonthMeta.

Variable LocalTZA : Z.

Lemma is_leap_two_digit yr : 1 <= yr <= 99 -> is_leap (1900 + yr) = is_leap yr.
Proof.
  intros H. unfold is_leap.
  replace ((1900 + yr) mod 4) with (yr mod 4)
    by (Z.div_mod_to_equations; lia).
  destruct (Z.eqb_spec ((1900 + yr) mod 100) 0), (Z.eqb_spec (yr mod 100) 0),
    (Z.eqb_spec ((1900 + yr) mod 400) 0), (Z.eqb_spec (yr mod 400) 0);
    try reflexivity; exfalso; Z.div_mod_to_equations; lia.
Qed.

Lemma month_length_fullYear yr M :
  1 <= yr -> month_length (fullYear yr) M = month_length yr M.
Proof.
  intros H. unfold fullYear.
  destruct (Z.leb_spec 0 yr), (Z.leb_spec yr 99); cbn [andb]; try reflexivity.
  unfold month_length. now rewrite is_leap_two_digit by lia.
Qed.

(** The local day of [new Date(y, mo, d)] moved by whole days. *)
Lemma Day_Date_ymd_shift yr mo d k :
  Day (LocalTime LocalTZA
         (Date_ms (getTime (Date_ymd LocalTZA yr mo d) + k * msPerDay)))
  = MakeDay (fullYear yr) mo d + k.
Proof.
  unfold Day, LocalTime, Date_ms, Date_ymd, fullYear. cbn [getTime].
  match goal with
  | |- (?a * _ - _ + _ + _) / _ = _ =>
      replace (a * msPerDay - LocalTZA + k * msPerDay + LocalTZA)
        with ((a + k) * msPerDay) by lia
  end.
  apply Z.div_mul. discriminate.
Qed.

Lemma getDate_Date_ymd yr mo d :
  getDate LocalTZA (Date_ymd LocalTZA yr mo d)
  = DateFromDay (MakeDay (fullYear yr) mo d).
Proof.
  pose proof (Day_Date_ymd_shift yr mo d 0) as H.
  rewrite Z.mul_0_l, !Z.add_0_r in H.
  unfold getDate. destruct (Date_ymd LocalTZA yr mo d) as [t].
  unfold Date_ms in H. cbn [getTime] in H. now rewrite H.
Qed.

Lemma getMonth_Date_ymd yr mo d :
  getMonth LocalTZA (Date_ymd LocalTZA yr mo d)
  = MonthFromDay (MakeDay (fullYear yr) mo d).
Proof.
  pose proof (Day_Date_ymd_shift yr mo d 0) as H.
  rewrite Z.mul_0_l, !Z.add_0_r in H.
  unfold getMonth. destruct (Date_ymd LocalTZA yr mo d) as [t].
  unfold Date_ms in H. cbn [getTime] in H. now rewrite H.
Qed.

(** [monthMeta_] field by field. *)
Lemma monthMeta_fields today tzname :
  let dim :=
    getDate LocalTZA
      (Date_ms (getTime (Date_ymd LocalTZA (fmt_yyyy today)
                                  (fmt_M today - 1 + 1) 1)
                - 24 * 60 * 60 * 1000)) in
  monthMeta_ LocalTZA today tzname
  = mkMonthContext tzname (fmt_yyyy today) (fmt_M today - 1)
      (Date_ymd LocalTZA (fmt_yyyy today) (fmt_M today - 1) 1)
      dim (Z.min (fmt_d today) dim).
Proof. reflexivity. Qed.

Lemma month_end_date yr M :
  1 <= yr -> 1 <= M <= 12 ->
  getDate LocalTZA
    (Date_ms (getTime (Date_ymd LocalTZA yr (M - 1 + 1) 1)
              - 24 * 60 * 60 * 1000))
  = month_length yr M.
Proof.
  intros Hy HM. unfold getDate.
  change (24 * 60 * 60 * 1000) with (1 * msPerDay).
  match goal with
  | |- context [getTime ?dt - 1 * msPerDay] =>
      replace (getTime dt - 1 * msPerDay) with (getTime dt + (-1) * msPerDay)
        by lia
  end.
  rewrite Day_Date_ymd_shift.
  replace (MakeDay (fullYear yr) (M - 1 + 1) 1 + -1)
    with (MakeDay (fullYear yr) (M - 1 + 1) 1 - 1) by lia.
  rewrite MakeDay_month_end by lia.
  pose proof (month_length_bounds (fullYear yr) (M - 1 + 1)) as Hb.
  destruct (civil_roundtrip (fullYear yr) (M - 1)
              (month_length (fullYear yr) (M - 1 + 1)))
    as (_ & _ & ->); [lia | lia |].
  rewrite Z.sub_add. now apply month_length_fullYear.
Qed.

End MonthMeta.

(** At a fixed offset from UTC -- a zone without daylight saving --
    [monthMeta_] returns for every valid reference date a context whose
    [daysInMonth] is the length of the reference month (28 to 31, leap
    years included) and whose [daysElapsed] is the reference day of the
    month clamped to [daysInMonth], so that 1 <= daysElapsed <=
    daysInMonth. *)
Theorem monthMeta_valid_context (LocalTZA : Z) (today : Today) (tzname : string) :
  valid_date today ->
  let mCtx := monthMeta_ LocalTZA today tzname in
  daysInMonth mCtx = month_length (fmt_yyyy today) (fmt_M today) /\
  28 <= daysInMonth mCtx <= 31 /\
  daysElapsed mCtx = Z.min (fmt_d today) (daysInMonth mCtx) /\
  1 <= daysElapsed mCtx <= daysInMonth mCtx /\
  y mCtx = fmt_yyyy today /\ m0 mCtx = fmt_M today - 1.
Proof.
  intros (Hy & HM & Hd) mCtx. subst mCtx.
  rewrite monthMeta_fields. cbv zeta. cbn [daysInMonth daysElapsed y m0].
  rewrite month_end_date by assumption.
  pose proof (month_length_bounds (fmt_yyyy today) (fmt_M today)) as Hb.
  repeat split; lia.
Qed.

Lemma monthMeta_valid_context_witness :
  let today := mkToday 2024 2 29 in
  valid_date today /\
  daysInMonth (monthMeta_ 3600000 today "Europe/Paris") = 29 /\
  daysElapsed (monthMeta_ 3600000 today "Europe/Paris") = 29.
Proof.
  intros today.
  assert (valid_date today) as Hv by (vm_compute; intuition discriminate).
  split; [exact Hv|].
  destruct (monthMeta_valid_context 3600000 today "Europe/Paris" Hv)
    as (H1 & _ & H3 & _).
  split; [exact H1 | rewrite H3, H1; reflexivity].
Defined.

(** ** The month context in a zone with daylight saving *)

Section ZonedMonthMeta.

(** At a constant offset the zoned definitions are those of the engine. *)
Lemma Zoned_Date_ymd_fixed (LocalTZA yr mo d : Z) :
  Zoned.Date_ymd (Zoned.fixedZone LocalTZA) yr mo d
  = Date_ymd LocalTZA yr mo d.
Proof. unfold Zoned.Date_ymd, Date_ymd. reflexivity. Qed.

Lemma Zoned_getDate_fixed (LocalTZA : Z) (dt : Date) :
  Zoned.getDate (Zoned.fixedZone LocalTZA) dt = getDate LocalTZA dt.
Proof. unfold Zoned.getDate, getDate. reflexivity. Qed.

Lemma Zoned_monthMeta_fixed (LocalTZA : Z) (today : Today) (tzname : string) :
  Zoned.monthMeta_ (Zoned.fixedZone LocalTZA) today tzname
  = monthMeta_ LocalTZA today tzname.
Proof.
  unfold Zoned.monthMeta_, monthMeta_. cbv zeta.
  now rewrite !Zoned_Date_ymd_fixed, Zoned_getDate_fixed.
Qed.

(** [monthMeta_] counts the days of the month right whenever the zone has
    the same offset at the midnight that ends the month and 24 hours
    before it. *)
Lemma Zoned_daysInMonth_regular (zone : Zoned.Zone) (today : Today)
    (tzname : string) :
  valid_date today ->
  let t := MakeDay (fullYear (fmt_yyyy today)) (fmt_M today - 1 + 1) 1
           * msPerDay in
  Zoned.offsetAtUTC zone (t - Zoned.offsetAtLocal zone t - msPerDay)
  = Zoned.offsetAtLocal zone t ->
  daysInMonth (Zoned.monthMeta_ zone today tzname)
  = month_length (fmt_yyyy today) (fmt_M today).
Proof.
  intros (Hy & HM & Hd) t Hreg.
  unfold Zoned.monthMeta_. cbv zeta. cbn [daysInMonth].
  unfold Zoned.getDate, Zoned.LocalTime, Zoned.Date_ymd, Date_ms. cbv zeta.
  cbn [getTime]. fold (fullYear (fmt_yyyy today)). fold t.
  change (24 * 60 * 60 * 1000) with msPerDay. rewrite Hreg.
  replace (t - Zoned.offsetAtLocal zone t - msPerDay
           + Zoned.offsetAtLocal zone t)
    with ((MakeDay (fullYear (fmt_yyyy today)) (fmt_M today - 1 + 1) 1 - 1)
          * msPerDay) by (unfold t; lia).
  unfold Day. rewrite Z.div_mul by discriminate.
  rewrite MakeDay_month_end by lia.
  pose proof (month_length_bounds (fullYear (fmt_yyyy today))
                (fmt_M today - 1 + 1)) as Hb.
  destruct (civil_roundtrip (fullYear (fmt_yyyy today)) (fmt_M today - 1)
              (month_length (fullYear (fmt_yyyy today)) (fmt_M today - 1 + 1)))
    as (_ & _ & ->); [lia | lia |].
  rewrite Z.sub_add. now apply month_length_fullYear.
Qed.

End ZonedMonthMeta.


(** ** The daily series *)

Section DailySeries.

Variable LocalTZA : Z.

Lemma sumQ_app l1 l2 : (sumQ (l1 ++ l2) == sumQ l1 + sumQ l2)%Q.
Proof.
  induction l1 as [|x l1 IH]; cbn [app sumQ]; [lra|].
  rewrite IH. lra.
Qed.

Lemma seqZ_S d0 (i : nat) :
  seqZ d0 (Z.of_nat (S i)) = d0 :: seqZ (d0 + 1) (Z.of_nat i).
Proof.
  rewrite seqZ_cons by lia. do 2 f_equal; lia.
Qed.

Lemma finite_costs_snoc daily o :
  finite_costs (daily ++ [o]) = true ->
  finite_costs daily = true /\ exists c, obs_cost o = Fin c.
Proof.
  unfold finite_costs. rewrite forallb_app. cbn.
  intros [H1 H2]%andb_prop. split; [assumption|].
  destruct (obs_cost o); try discriminate. eauto.
Qed.

Lemma groupByDay_snoc daily o :
  groupByDay LocalTZA (daily ++ [o])
  = groupStep LocalTZA (groupByDay LocalTZA daily) o.
Proof. unfold groupByDay. now rewrite foldl_app. Qed.

Lemma dayCost_snoc daily o d :
  (dayCost LocalTZA (daily ++ [o]) d
   == dayCost LocalTZA daily d
      + (if decide (getDate LocalTZA (obs_date o) = d)
         then toQ (obs_cost o) else 0))%Q.
Proof.
  unfold dayCost, observationsOn. rewrite filter_app, map_app, sumQ_app.
  apply Qplus_comp; [reflexivity|].
  rewrite filter_cons, filter_nil.
  destruct (decide (getDate LocalTZA (obs_date o) = d)); cbn; lra.
Qed.

(** What the second loop reads for day [d] is the sum of the costs
    observed on day-of-month [d]. *)
Lemma groupByDay_lookup daily :
  finite_costs daily = true ->
  forall d, exists q,
    or_default (groupByDay LocalTZA daily !! d) zero = Fin q /\
    (q == dayCost LocalTZA daily d)%Q.
Proof.
  induction daily as [|o daily IH] using rev_ind; intros Hfin d.
  - exists 0%Q. split; reflexivity.
  - apply finite_costs_snoc in Hfin as [Hfin [c Hc]].
    rewrite groupByDay_snoc. unfold groupStep.
    destruct (decide (getDate LocalTZA (obs_date o) = d)) as [Heq|Hne].
    + rewrite Heq, lookup_insert_eq.
      destruct (IH Hfin d) as (q & -> & Hq).
      rewrite Hc.
      pose proof (or_default_fin c) as Hc'.
      pose proof (or_default_fin_is_fin c) as Fc.
      apply is_fin_true in Fc. rewrite Fc in Hc' |- *. cbn in Hc'.
      cbn [jadd].
      pose proof (or_default_fin (q + toQ (or_default (Some (Fin c)) zero))) as Hs.
      pose proof (or_default_fin_is_fin
                    (q + toQ (or_default (Some (Fin c)) zero))) as Fs.
      apply is_fin_true in Fs. rewrite Fs in Hs |- *. cbn in Hs.
      eexists. split; [reflexivity|].
      rewrite Hs, Hc', Hq, dayCost_snoc, Hc.
      rewrite decide_True by assumption. reflexivity.
    + rewrite lookup_insert_ne by assumption.
      destruct (IH Hfin d) as (q & -> & Hq).
      exists q. split; [reflexivity|].
      rewrite Hq, dayCost_snoc, decide_False by assumption. lra.
Qed.

Section Loop.

Variables (byDay : gmap Z num) (dc : Z -> Q).
Hypothesis byDay_dc : forall d, exists q,
  or_default (byDay !! d) zero = Fin q /\ (q == dc d)%Q.

Variables (b : Q) (mCtx : MonthContext).

Lemma perDayRow_cost d cum :
  exists c, cost (perDayRow LocalTZA byDay (Fin b) mCtx d cum) = Fin c /\
            (c == dc d)%Q.
Proof. apply byDay_dc. Qed.

Lemma perDayRow_cumSpend d s :
  exists s', cumSpend (perDayRow LocalTZA byDay (Fin b) mCtx d (Fin s)) = Fin s' /\
             (s' == s + dc d)%Q.
Proof.
  cbn [perDayRow cumSpend]. destruct (byDay_dc d) as (q & -> & Hq).
  eexists. split; [reflexivity|]. now rewrite Hq.
Qed.

Lemma perDayLoop_length n d cum :
  length (perDayLoop LocalTZA byDay (Fin b) mCtx n d cum) = n.
Proof.
  revert d cum. induction n as [|n IH]; intros d cum; cbn; [reflexivity|].
  now rewrite IH.
Qed.

(** Row [i] of the loop started at day [d0] is the row of day [d0 + i],
    built on the spend accumulated over the days before it. *)
Lemma perDayLoop_lookup n : forall d0 s0 (i : nat),
  (i < n)%nat ->
  exists s, (s == s0 + sumQ (map dc (seqZ d0 (Z.of_nat i))))%Q /\
    perDayLoop LocalTZA byDay (Fin b) mCtx n d0 (Fin s0) !! i
    = Some (perDayRow LocalTZA byDay (Fin b) mCtx (d0 + Z.of_nat i) (Fin s)).
Proof.
  induction n as [|n IH]; intros d0 s0 i Hi; [lia|].
  destruct i as [|i].
  - exists s0. split; [rewrite seqZ_nil by lia; cbn; lra|].
    cbn [perDayLoop]. now rewrite Z.add_0_r.
  - cbn [perDayLoop]. cbv zeta. rewrite lookup_cons.
    destruct (perDayRow_cumSpend d0 s0) as (s1 & -> & Hs1).
    destruct (IH (d0 + 1) s1 i ltac:(lia)) as (s & Hs & Hrow).
    exists s. split.
    + rewrite Hs, Hs1, seqZ_S. cbn [map sumQ]. lra.
    + rewrite Hrow. do 2 f_equal. lia.
Qed.

(** The costs of the rows of the loop add up to the day costs. *)
Lemma perDayLoop_costs n : forall d0 cum,
  (sumQ (map (fun r => toQ (cost r))
             (perDayLoop LocalTZA byDay (Fin b) mCtx n d0 cum))
   == sumQ (map dc (seqZ d0 (Z.of_nat n))))%Q.
Proof.
  induction n as [|n IH]; intros d0 cum; [reflexivity|].
  rewrite seqZ_S. cbn [perDayLoop map sumQ].
  destruct (perDayRow_cost d0 cum) as (c & -> & Hc). cbn [toQ].
  apply Qplus_comp; [assumption|]. apply IH.
Qed.

End Loop.

End DailySeries.

Lemma cumCost_step LocalTZA daily d :
  1 <= d ->
  (cumCost LocalTZA daily d
   == cumCost LocalTZA daily (d - 1) + dayCost LocalTZA daily d)%Q.
Proof.
  intros Hd. unfold cumCost.
  replace d with ((d - 1) + 1) at 1 by lia.
  rewrite seqZ_app, map_app, sumQ_app by lia.
  replace (1 + (d - 1)) with d by lia.
  change (seqZ d 1) with [0 + d]. cbn [map sumQ]. rewrite Z.add_0_l. lra.
Qed.

Lemma targetDailyOf_fin b mCtx :
  0 < daysInMonth mCtx ->
  targetDailyOf (Fin b) mCtx = Fin (b / inject_Z (daysInMonth mCtx)).
Proof.
  intros H. unfold targetDailyOf.
  destruct (Z.ltb_spec 0 (daysInMonth mCtx)); [|lia].
  apply jdiv_fin_Z. lia.
Qed.

Lemma Date_ymd_getTime LocalTZA yr mo d :
  getTime (Date_ymd LocalTZA yr mo d)
  = getTime (Date_ymd LocalTZA yr mo 1) + (d - 1) * msPerDay.
Proof. unfold Date_ymd, MakeDay. cbn [getTime]. lia. Qed.

(** C1. For a series built from observations with real costs over a month
    of D >= 1 days: there are exactly D rows; row d is the date of day d of
    the context's month, one day after row d - 1 (and reads back as day d
    of that month whenever the month has a day d); its cost is the sum of
    the costs observed on day-of-month d; cumSpend is the running sum of
    the costs, so that the last row's cumSpend is the sum of all rows'
    costs; targetDaily = B / D; cumTarget = targetDaily * d;
    gap = cost - targetDaily; cumGap = cumSpend - cumTarget; and recDaily
    is max((B - cumSpend) / (D - d), 0) when d < D and 0 when d = D. *)
Theorem buildPerDayRows_series (LocalTZA : Z) (daily : list DailyObservation)
    (b : Q) (mCtx : MonthContext) :
  1 <= daysInMonth mCtx ->
  finite_costs daily = true ->
  let D := daysInMonth mCtx in
  let rows := buildPerDayRows_ LocalTZA daily (Fin b) mCtx in
  let td := (b / inject_Z D)%Q in
  length rows = Z.to_nat D /\
  (forall d, 1 <= d <= D ->
     exists r,
       rows !! Z.to_nat (d - 1) = Some r /\
       date r = Date_ymd LocalTZA (y mCtx) (m0 mCtx) d /\
       getTime (date r)
       = getTime (Date_ymd LocalTZA (y mCtx) (m0 mCtx) 1) + (d - 1) * msPerDay /\
       (1 <= y mCtx -> 0 <= m0 mCtx <= 11 ->
        d <= month_length (y mCtx) (m0 mCtx + 1) ->
        getDate LocalTZA (date r) = d /\ getMonth LocalTZA (date r) = m0 mCtx) /\
       cost r =n= Fin (dayCost LocalTZA daily d) /\
       cumSpend r =n= Fin (cumCost LocalTZA daily d) /\
       targetDaily r =n= Fin td /\
       cumTarget r =n= Fin (td * inject_Z d) /\
       gap r =n= Fin (dayCost LocalTZA daily d - td) /\
       cumGap r =n= Fin (cumCost LocalTZA daily d - td * inject_Z d) /\
       recDaily r =n=
         Fin (if d <? D
              then Qmax ((b - cumCost LocalTZA daily d) / inject_Z (D - d)) 0
              else 0)) /\
  (exists rl,
     last rows = Some rl /\
     cumSpend rl =n= Fin (sumQ (map (fun r => toQ (cost r)) rows))).
Proof.
  intros HD Hfin D rows td.
  pose proof (groupByDay_lookup LocalTZA daily Hfin) as Hby.
  assert (length rows = Z.to_nat D) as Hlen by apply perDayLoop_length.
  assert (forall d, 1 <= d <= D ->
            exists s, (s == cumCost LocalTZA daily (d - 1))%Q /\
              rows !! Z.to_nat (d - 1)
              = Some (perDayRow LocalTZA (groupByDay LocalTZA daily) (Fin b)
                        mCtx d (Fin s))) as Hrow.
  { intros d Hd.
    destruct (perDayLoop_lookup LocalTZA _ _ Hby b mCtx (Z.to_nat D) 1 0
                (Z.to_nat (d - 1)) ltac:(lia)) as (s & Hs & Hr).
    rewrite Z2Nat.id in Hs, Hr by lia.
    replace (1 + (d - 1)) with d in Hr by lia.
    exists s. split; [|exact Hr]. rewrite Hs. unfold cumCost. lra. }
  assert (forall d, 1 <= d <= D ->
            exists r, rows !! Z.to_nat (d - 1) = Some r /\
              date r = Date_ymd LocalTZA (y mCtx) (m0 mCtx) d /\
              cost r =n= Fin (dayCost LocalTZA daily d) /\
              cumSpend r =n= Fin (cumCost LocalTZA daily d) /\
              targetDaily r = Fin td /\
              cumTarget r = jmul (targetDaily r) (ofZ d) /\
              gap r = jsub (cost r) (targetDaily r) /\
              cumGap r = jsub (cumSpend r) (cumTarget r) /\
              recDaily r = (if 0 <? D - d
                            then Math_max (jdiv (jsub (Fin b) (cumSpend r))
                                                (ofZ (D - d))) zero
                            else zero)) as Hfields.
  { intros d Hd. destruct (Hrow d Hd) as (s & Hs & Hr).
    eexists. split; [exact Hr|].
    cbn [perDayRow date cost cumSpend targetDaily cumTarget gap cumGap recDaily].
    destruct (Hby d) as (c & -> & Hc).
    rewrite targetDailyOf_fin by lia.
    repeat split; try reflexivity; [exact Hc|].
    cbn. rewrite cumCost_step, Hs, Hc by lia. reflexivity. }
  split; [exact Hlen|]. split.
  - intros d Hd.
    destruct (Hfields d Hd)
      as (r & Hr & Hdate & Hcost & Hcum & Htd & Hct & Hgap & Hcg & Hrec).
    exists r. split; [exact Hr|]. split; [exact Hdate|].
    apply num_eq_fin_l in Hcost as (c & Ec & Hc).
    apply num_eq_fin_l in Hcum as (s & Es & Hs).
    rewrite Hcg, Hgap, Hrec, Hct, Htd, Ec, Es, Hdate.
    split; [apply Date_ymd_getTime|].
    split.
    { intros Hy Hm Hdm.
      rewrite getDate_Date_ymd, getMonth_Date_ymd.
      rewrite <- (month_length_fullYear (y mCtx)) in Hdm by assumption.
      destruct (civil_roundtrip (fullYear (y mCtx)) (m0 mCtx) d)
        as (_ & Hmo & Hda); [lia | lia |]. now split. }
    cbn [jmul jsub ofZ num_eq].
    repeat split; try reflexivity; try assumption.
    + now rewrite Hc.
    + now rewrite Hs.
    + destruct (Z.ltb_spec 0 (D - d)), (Z.ltb_spec d D); try lia.
      * rewrite jdiv_fin_Z by lia.
        eapply num_eq_trans; [apply Math_max_fin|]. cbn.
        now rewrite Hs.
      * reflexivity.
  - destruct (Hfields D ltac:(lia)) as (r & Hr & _ & _ & Hcum & _).
    exists r. split.
    + rewrite last_lookup, Hlen, <- Hr. f_equal. lia.
    + eapply num_eq_trans; [exact Hcum|]. cbn. symmetry.
      unfold rows, buildPerDayRows_. rewrite perDayLoop_costs by exact Hby.
      unfold cumCost. now rewrite Z2Nat.id by lia.
Qed.

Lemma buildPerDayRows_series_witness :
  1 <= daysInMonth sampleCtx /\
  finite_costs sampleDaily = true /\
  length sampleRows = 30%nat /\
  exists rl,
    last sampleRows = Some rl /\
    cumSpend rl =n= Fin (sumQ (map (fun r => toQ (cost r)) sampleRows)).
Proof.
  assert (1 <= daysInMonth sampleCtx) as H1 by (vm_compute; discriminate).
  assert (finite_costs sampleDaily = true) as H2 by reflexivity.
  destruct (buildPerDayRows_series 0 sampleDaily 300 sampleCtx H1 H2)
    as (Hlen & _ & Hlast).
  split; [exact H1|]. split; [exact H2|]. split; [|exact Hlast].
  unfold sampleRows. rewrite Hlen. vm_compute. reflexivity.
Defined.

(** ** Observations outside the month *)

Section StrayObservation.

Variable LocalTZA : Z.

(** The cost grouped under a day depends only on what was grouped under
    that day before. *)
Lemma groupStep_lookup byDay1 byDay2 o d :
  byDay1 !! d = byDay2 !! d ->
  groupStep LocalTZA byDay1 o !! d = groupStep LocalTZA byDay2 o !! d.
Proof.
  intros H. unfold groupStep.
  destruct (decide (getDate LocalTZA (obs_date o) = d)) as [Heq|Hne].
  - rewrite Heq, !lookup_insert_eq. now rewrite H.
  - now rewrite !lookup_insert_ne.
Qed.

Lemma foldl_groupStep_lookup daily : forall byDay1 byDay2 d,
  byDay1 !! d = byDay2 !! d ->
  foldl (groupStep LocalTZA) byDay1 daily !! d
  = foldl (groupStep LocalTZA) byDay2 daily !! d.
Proof.
  induction daily as [|o daily IH]; intros byDay1 byDay2 d H; [exact H|].
  cbn [foldl]. apply IH. now apply groupStep_lookup.
Qed.

Lemma groupByDay_without before o after d :
  getDate LocalTZA (obs_date o) <> d ->
  groupByDay LocalTZA (before ++ o :: after) !! d
  = groupByDay LocalTZA (before ++ after) !! d.
Proof.
  intros Hne. unfold groupByDay. rewrite !foldl_app. cbn [foldl].
  apply foldl_groupStep_lookup. unfold groupStep.
  now rewrite lookup_insert_ne.
Qed.

(** The rows depend on the grouped costs of the days they cover only. *)
Lemma perDayLoop_agree byDay1 byDay2 monthlyBudget mCtx n : forall d0 cum,
  (forall d, d0 <= d < d0 + Z.of_nat n -> byDay1 !! d = byDay2 !! d) ->
  perDayLoop LocalTZA byDay1 monthlyBudget mCtx n d0 cum
  = perDayLoop LocalTZA byDay2 monthlyBudget mCtx n d0 cum.
Proof.
  induction n as [|n IH]; intros d0 cum H; [reflexivity|].
  cbn [perDayLoop]. cbv zeta.
  assert (perDayRow LocalTZA byDay1 monthlyBudget mCtx d0 cum
          = perDayRow LocalTZA byDay2 monthlyBudget mCtx d0 cum) as Hrow.
  { unfold perDayRow. now rewrite (H d0) by lia. }
  rewrite Hrow. f_equal. apply IH. intros d Hd. apply H. lia.
Qed.

End StrayObservation.

(** C9. An observation whose date falls outside days 1..daysInMonth of the
    current month -- whose day of the month is below 1 or above
    daysInMonth -- is ignored: the series built with it is the series built
    without it (and building it raises no error: [buildPerDayRows_] is
    total). *)
Theorem buildPerDayRows_ignores_stray (LocalTZA : Z)
    (before after : list DailyObservation) (o : DailyObservation)
    (monthlyBudget : num) (mCtx : MonthContext) :
  getDate LocalTZA (obs_date o) < 1 \/
  daysInMonth mCtx < getDate LocalTZA (obs_date o) ->
  buildPerDayRows_ LocalTZA (before ++ o :: after) monthlyBudget mCtx
  = buildPerDayRows_ LocalTZA (before ++ after) monthlyBudget mCtx.
Proof.
  intros Hout. unfold buildPerDayRows_. apply perDayLoop_agree.
  intros d Hd. apply groupByDay_without. lia.
Qed.

Lemma buildPerDayRows_ignores_stray_witness :
  (getDate 0 (obs_date sampleStray) < 1 \/
   daysInMonth sampleCtx < getDate 0 (obs_date sampleStray)) /\
  buildPerDayRows_ 0 ([mkObs (Date_ymd 0 2026 10 1) (Fin 5)]
                      ++ sampleStray :: [mkObs (Date_ymd 0 2026 10 3) (Fin 2)])
                   (Fin 300) sampleCtx
  = buildPerDayRows_ 0 ([mkObs (Date_ymd 0 2026 10 1) (Fin 5)]
                        ++ [mkObs (Date_ymd 0 2026 10 3) (Fin 2)])
                     (Fin 300) sampleCtx.
Proof.
  assert (getDate 0 (obs_date sampleStray) < 1 \/
          daysInMonth sampleCtx < getDate 0 (obs_date sampleStray)) as H
    by (right; vm_compute; reflexivity).
  split; [exact H|].
  exact (buildPerDayRows_ignores_stray 0 _ _ sampleStray (Fin 300) sampleCtx H).
Defined.

(** The observations are grouped by day of the month alone
    ([daily[i].date.getDate()]): the month of an observation is not looked
    at, so a cost dated 15 October handed in with a November context is
    counted in the row of 15 November. *)
Lemma buildPerDayRows_counts_other_month :
  m0 sampleCtx = 10 /\
  getMonth 0 (obs_date sampleOtherMonth) = 9 /\
  getDate 0 (obs_date sampleOtherMonth) = 15 /\
  (cost <$> buildPerDayRows_ 0 [sampleOtherMonth] (Fin 300) sampleCtx !! 14%nat)
  = Some (Fin 9) /\
  (cost <$> buildPerDayRows_ 0 [] (Fin 300) sampleCtx !! 14%nat)
  = Some (Fin 0).
Proof. repeat split; vm_compute; reflexivity. Qed.

(** ** The forecast *)

Section Forecast.

Variables (mCtx : MonthContext) (spendMtd wmaDaily : num).

Lemma forecastLoop_length rows : forall d,
  length (forecastLoop mCtx spendMtd wmaDaily d rows) = length rows.
Proof.
  induction rows as [|r rows IH]; intros d; cbn; [reflexivity|].
  now rewrite IH.
Qed.

Lemma forecastLoop_baseFields rows : forall d,
  map baseFields (forecastLoop mCtx spendMtd wmaDaily d rows)
  = map baseFields rows.
Proof.
  induction rows as [|r rows IH]; intros d; cbn [forecastLoop map];
    [reflexivity|].
  now rewrite IH.
Qed.

Lemma forecastLoop_written rows : forall d,
  Forall (fun r => is_Some (cumForecastWma r) /\
                   is_Some (projectedEomWmaAtDay r))
         (forecastLoop mCtx spendMtd wmaDaily d rows).
Proof.
  induction rows as [|r rows IH]; intros d; cbn [forecastLoop];
    constructor; [|apply IH].
  cbn. split; eexists; reflexivity.
Qed.

(** Row [i] after the loop started at day [d0] is row [i] before it with
    the forecast of day [d0 + i]. *)
Lemma forecastLoop_lookup rows : forall d0 (i : nat) r,
  rows !! i = Some r ->
  forecastLoop mCtx spendMtd wmaDaily d0 rows !! i
  = Some (forecastRow mCtx spendMtd wmaDaily (d0 + Z.of_nat i) r).
Proof.
  induction rows as [|r0 rows IH]; intros d0 i r Hr; [discriminate|].
  destruct i as [|i]; cbn [forecastLoop].
  - rewrite lookup_cons in Hr |- *. injection Hr as ->.
    now rewrite Z.add_0_r.
  - rewrite lookup_cons in Hr |- *. rewrite (IH (d0 + 1) i r Hr).
    do 2 f_equal. lia.
Qed.

End Forecast.

(** C10. [applyWmaForecast_] leaves the series as long as it was and in
    the same order, with every field computed before (date, cost, cumSpend,
    targetDaily, cumTarget, gap, cumGap, runningPacePct, recDaily)
    unchanged in every row; the two forecast fields are written. *)
Theorem applyWmaForecast_frame (perDay : list DayRow) (mCtx : MonthContext)
    (spendMtd wmaDaily : num) :
  let after := applyWmaForecast_ perDay mCtx spendMtd wmaDaily in
  length after = length perDay /\
  map baseFields after = map baseFields perDay /\
  Forall (fun r => is_Some (cumForecastWma r) /\
                   is_Some (projectedEomWmaAtDay r)) after.
Proof.
  cbv zeta. unfold applyWmaForecast_. split; [apply forecastLoop_length|].
  split; [apply forecastLoop_baseFields | apply forecastLoop_written].
Qed.

(** C3. In a series of daysInMonth rows, with 1 <= daysElapsed <=
    daysInMonth, after [applyWmaForecast_] the row of every day d has
    cumForecastWma = its cumSpend when d <= daysElapsed and
    spendMtd + wmaDaily * (d - daysElapsed) when d > daysElapsed, and
    projectedEomWmaAtDay = its cumSpend + wmaDaily * (daysInMonth - d). *)
Theorem applyWmaForecast_fields (perDay : list DayRow) (mCtx : MonthContext)
    (s w : Q) (d : Z) (r : DayRow) :
  length perDay = Z.to_nat (daysInMonth mCtx) ->
  1 <= daysElapsed mCtx <= daysInMonth mCtx ->
  1 <= d ->
  perDay !! Z.to_nat (d - 1) = Some r ->
  exists r',
    applyWmaForecast_ perDay mCtx (Fin s) (Fin w) !! Z.to_nat (d - 1) = Some r' /\
    (d <= daysElapsed mCtx -> cumForecastWma r' = Some (cumSpend r)) /\
    (daysElapsed mCtx < d ->
     cumForecastWma r'
     = Some (Fin (s + w * inject_Z (d - daysElapsed mCtx)))) /\
    projectedEomWmaAtDay r'
    = Some (jadd (cumSpend r) (Fin (w * inject_Z (daysInMonth mCtx - d)))) /\
    (forall c, cumSpend r = Fin c ->
       projectedEomWmaAtDay r'
       = Some (Fin (c + w * inject_Z (daysInMonth mCtx - d)))).
Proof.
  intros _ _ Hd Hr. unfold applyWmaForecast_.
  rewrite (forecastLoop_lookup mCtx (Fin s) (Fin w) perDay 1 _ r Hr).
  rewrite Z2Nat.id by lia. replace (1 + (d - 1)) with d by lia.
  eexists. split; [reflexivity|].
  cbn [forecastRow cumForecastWma projectedEomWmaAtDay jmul ofZ jadd].
  split; [|split; [|split]].
  - intros H. now destruct (Z.leb_spec d (daysElapsed mCtx)); [|lia].
  - intros H. now destruct (Z.leb_spec d (daysElapsed mCtx)); [lia|].
  - reflexivity.
  - intros c ->. reflexivity.
Qed.

Lemma applyWmaForecast_fields_witness :
  exists r r',
    sampleRows !! Z.to_nat (5 - 1) = Some r /\
    applyWmaForecast_ sampleRows sampleCtx (Fin 8) (Fin 2) !! Z.to_nat (5 - 1)
    = Some r' /\
    cumForecastWma r' = Some (Fin (8 + 2 * inject_Z (5 - 3))).
Proof.
  assert (length sampleRows = Z.to_nat (daysInMonth sampleCtx)) as H1
    by (vm_compute; reflexivity).
  assert (1 <= daysElapsed sampleCtx <= daysInMonth sampleCtx) as H2
    by (vm_compute; split; discriminate).
  assert (1 <= 5) as H3 by lia.
  destruct (sampleRows !! Z.to_nat (5 - 1)) as [r|] eqn:Hr;
    [|vm_compute in Hr; discriminate].
  destruct (applyWmaForecast_fields sampleRows sampleCtx 8 2 5 r H1 H2 H3 Hr)
    as (r' & Hr' & _ & Hfut & _).
  exists r, r'. split; [reflexivity|]. split; [exact Hr'|].
  apply Hfut. vm_compute. reflexivity.
Defined.

(** ** The weighted recent average *)

Section WeightedAverage.

Lemma sumQ_map_ext {A} (f g : A -> Q) (l : list A) :
  (forall x, (f x == g x)%Q) -> (sumQ (map f l) == sumQ (map g l))%Q.
Proof.
  intros H. induction l as [|x l IH]; cbn [map sumQ]; [reflexivity|].
  now rewrite H, IH.
Qed.

Lemma inject_Z_sumZ l : (inject_Z (sumZ l) == sumQ (map inject_Z l))%Q.
Proof.
  induction l as [|x l IH]; cbn [map sumQ sumZ]; [reflexivity|].
  now rewrite inject_Z_plus, IH.
Qed.

Lemma seqZ_snoc d0 (m : nat) :
  seqZ d0 (Z.of_nat (S m)) = seqZ d0 (Z.of_nat m) ++ [d0 + Z.of_nat m].
Proof.
  rewrite Nat2Z.inj_succ, <- Z.add_1_r, seqZ_app by lia.
  now change (seqZ (d0 + Z.of_nat m) 1) with [0 + (d0 + Z.of_nat m)].
Qed.

(** A sum over the days [a - s], [a - s - 1], ... taken newest first is
    the sum over the same days taken oldest first. *)
Lemma sumQ_newest_first (g : Z -> Q) (a : Z) (m : nat) : forall s,
  (sumQ (map (fun k => g (a - k)%Z) (seqZ s (Z.of_nat m)))
   == sumQ (map g (seqZ (a - s - Z.of_nat m + 1)%Z (Z.of_nat m))))%Q.
Proof.
  induction m as [|m IH]; intros s; [reflexivity|].
  rewrite seqZ_S. cbn [map sumQ]. rewrite IH.
  rewrite seqZ_snoc, map_app, sumQ_app. cbn [map sumQ].
  replace (a - (s + 1) - Z.of_nat m + 1) with (a - s - Z.of_nat (S m) + 1)
    by lia.
  replace (a - s - Z.of_nat (S m) + 1 + Z.of_nat m) with (a - s) by lia.
  lra.
Qed.

Lemma sumZ_weights_pos n (m : nat) : forall i,
  i + Z.of_nat m <= n -> (0 < m)%nat ->
  0 < sumZ (map (fun k => n - k) (seqZ i (Z.of_nat m))).
Proof.
  induction m as [|m IH]; intros i Hi Hm; [lia|].
  rewrite seqZ_S. cbn [map sumZ].
  destruct m as [|m]; [rewrite seqZ_nil by lia; cbn [map sumZ]; lia|].
  specialize (IH (i + 1) ltac:(lia) ltac:(lia)). lia.
Qed.

Variables (perDay : list DayRow) (e n : Z).
Hypothesis costs_finite : finite_row_costs perDay = true.
Hypothesis window_elapsed : n <= e.
Hypothesis elapsed_rows : e <= Z.of_nat (length perDay).

Lemma row_of_day j :
  1 <= j <= e ->
  exists row, perDay !! Z.to_nat (j - 1) = Some row /\
              cost row = Fin (costOfDay perDay j).
Proof.
  intros Hj.
  destruct (lookup_lt_is_Some_2 perDay (Z.to_nat (j - 1)) ltac:(lia))
    as [row Hrow].
  exists row. split; [assumption|].
  unfold costOfDay. rewrite Hrow. apply is_fin_true.
  unfold finite_row_costs in costs_finite.
  rewrite forallb_forall in costs_finite.
  apply (costs_finite row), list_elem_of_In, (list_elem_of_lookup_2 _ _ _ Hrow).
Qed.

(** The sums the loop leaves: the weights [n - i] and the weighted costs
    of the days [e - i], over the iterations it makes. *)
Lemma wmaLoop_sums (fuel : nat) : forall i sumW sx,
  0 <= i -> i + Z.of_nat fuel <= n ->
  exists q,
    wmaLoop perDay e n fuel i sumW (Fin sx)
    = Ok (sumW + sumZ (map (fun k => n - k) (seqZ i (Z.of_nat fuel))), Fin q) /\
    (q == sx + sumQ (map (fun k => inject_Z (n - k) * costOfDay perDay (e - k))
                         (seqZ i (Z.of_nat fuel))))%Q.
Proof.
  induction fuel as [|fuel IH]; intros i sumW sx Hi Hfuel.
  - exists sx. rewrite seqZ_nil by lia. cbn [wmaLoop map sumZ sumQ].
    split; [now rewrite Z.add_0_r | lra].
  - cbn [wmaLoop]. cbv zeta.
    destruct (Z.leb_spec (e - i) 0); [lia|].
    destruct (row_of_day (e - i) ltac:(lia)) as (row & -> & ->).
    pose proof (or_default_fin (costOfDay perDay (e - i))) as Hc.
    pose proof (or_default_fin_is_fin (costOfDay perDay (e - i))) as Fc.
    apply is_fin_true in Fc. rewrite Fc in Hc |- *. cbn in Hc.
    cbn [jmul ofZ jadd].
    destruct (IH (i + 1) (sumW + (n - i))
                (sx + inject_Z (n - i)
                      * toQ (or_default (Some (Fin (costOfDay perDay (e - i))))
                                        zero))%Q
                ltac:(lia) ltac:(lia)) as (q & -> & Hq).
    exists q. split.
    + rewrite seqZ_S. cbn [map sumZ]. do 2 f_equal. lia.
    + rewrite Hq, Hc, seqZ_S. cbn [map sumQ]. lra.
Qed.

End WeightedAverage.

(** With at least one day in the window and a row for every elapsed day,
    the loop runs through and the result is the weighted average. *)
Lemma computeWmaDaily_window (perDay : list DayRow) (e W : Z) :
  finite_row_costs perDay = true ->
  e <= Z.of_nat (length perDay) ->
  0 < Z.min W (Z.max e 0) ->
  exists q, computeWmaDaily_ perDay e W = Ok (Fin q) /\
            (q == weightedAverage perDay e (Z.min W (Z.max e 0)))%Q.
Proof.
  intros Hfin Hlen. set (n := Z.min W (Z.max e 0)). intros Hn.
  unfold computeWmaDaily_. fold n. cbv zeta.
  destruct (Z.leb_spec n 0); [lia|].
  destruct (wmaLoop_sums perDay e n Hfin ltac:(lia) Hlen (Z.to_nat n) 0 0 0
              ltac:(lia) ltac:(lia)) as (q & Hloop & Hq).
  change zero with (Fin 0). rewrite Hloop.
  rewrite Z2Nat.id in * by lia. rewrite Z.add_0_l.
  pose proof (sumZ_weights_pos n (Z.to_nat n) 0 ltac:(lia) ltac:(lia)) as Hpos.
  rewrite Z2Nat.id in Hpos by lia.
  destruct (Z.eqb_spec (sumZ (map (fun k => n - k) (seqZ 0 n))) 0); [lia|].
  rewrite jdiv_fin_Z by assumption.
  eexists. split; [reflexivity|].
  unfold weightedAverage, wmaWindow.
  apply Qdiv_comp.
  - rewrite Hq, Qplus_0_l.
    pose proof (sumQ_newest_first
                  (fun j => inject_Z (wmaWeight e n j) * costOfDay perDay j)%Q
                  e (Z.to_nat n) 0) as Hrev.
    rewrite Z2Nat.id in Hrev by lia.
    replace (e - 0 - n + 1) with (e - n + 1) in Hrev by lia.
    rewrite <- Hrev. apply sumQ_map_ext. intros k.
    unfold wmaWeight. now replace (e - k - (e - n)) with (n - k) by lia.
  - rewrite inject_Z_sumZ, map_map.
    pose proof (sumQ_newest_first
                  (fun j => inject_Z (wmaWeight e n j)) e (Z.to_nat n) 0)
      as Hrev.
    rewrite Z2Nat.id in Hrev by lia.
    replace (e - 0 - n + 1) with (e - n + 1) in Hrev by lia.
    rewrite <- Hrev. apply sumQ_map_ext. intros k.
    unfold wmaWeight. now replace (e - k - (e - n)) with (n - k) by lia.
Qed.

(** C2 (amended). For a series with real costs and at least daysElapsed
    rows and a window W >= 1: with n = min(W, max(daysElapsed, 0)),
    [computeWmaDaily_] returns 0 when n <= 0, and otherwise the sum of
    weight * cost over the sum of the weights, over the n days
    daysElapsed - n + 1 .. daysElapsed, the most recent day weighing n and
    the oldest 1.  With W = 7 and daysElapsed = 3 these are the days 1, 2, 3
    with weights 1, 2, 3; with daysElapsed = 0 the result is 0. *)
Theorem computeWmaDaily_weighted (perDay : list DayRow) (e W : Z) :
  1 <= W ->
  e <= Z.of_nat (length perDay) ->
  finite_row_costs perDay = true ->
  let n := Z.min W (Z.max e 0) in
  (n <= 0 -> computeWmaDaily_ perDay e W = Ok zero) /\
  (0 < n ->
   exists q, computeWmaDaily_ perDay e W = Ok (Fin q) /\
             (q == weightedAverage perDay e n)%Q) /\
  (e = 0 -> computeWmaDaily_ perDay e W = Ok zero) /\
  (W = 7 -> e = 3 ->
   n = 3 /\ wmaWindow e n = [1; 2; 3] /\
   map (wmaWeight e n) (wmaWindow e n) = [1; 2; 3]).
Proof.
  intros HW Hlen Hfin n.
  assert (n <= 0 -> computeWmaDaily_ perDay e W = Ok zero) as Hzero.
  { intros Hn. unfold computeWmaDaily_. fold n. cbv zeta.
    now destruct (Z.leb_spec n 0); [|lia]. }
  split; [exact Hzero|]. split; [|split].
  - intros Hn. now apply computeWmaDaily_window.
  - intros ->. apply Hzero. lia.
  - intros -> ->. repeat split.
Qed.

Lemma computeWmaDaily_weighted_witness :
  exists q, computeWmaDaily_ sampleRows 3 7 = Ok (Fin q) /\
            (q == weightedAverage sampleRows 3 3)%Q.
Proof.
  assert (1 <= 7) as H1 by lia.
  assert (3 <= Z.of_nat (length sampleRows)) as H2
    by (vm_compute; discriminate).
  assert (finite_row_costs sampleRows = true) as H3
    by (vm_compute; reflexivity).
  destruct (computeWmaDaily_weighted sampleRows 3 7 H1 H2 H3) as (_ & H & _).
  apply H. reflexivity.
Defined.

(** C2 as stated fails on a series shorter than daysElapsed: reading the
    cost of a row that is not there raises a TypeError. *)
Lemma computeWmaDaily_short_series :
  length sampleRows = 30%nat /\
  computeWmaDaily_ sampleRows 31 7 = Throw TypeError.
Proof. split; vm_compute; reflexivity. Qed.

(** ** The account-level figures *)

Section AccountLevel.

Variables (b s w : Q) (mCtx : MonthContext).

Let D := daysInMonth mCtx.
Let E := daysElapsed mCtx.
Let rem := Z.max (D - E) 0.

Lemma recommended_fin :
  (if 0 <? rem
   then Math_max (jdiv (jsub (Fin b) (Fin s)) (ofZ rem)) zero
   else zero)
  =n= Fin (if 0 <? rem then Qmax ((b - s) / inject_Z rem) 0 else 0).
Proof.
  destruct (Z.ltb_spec 0 rem); [|reflexivity].
  cbn [jsub]. rewrite jdiv_fin_Z by lia. apply Math_max_fin.
Qed.

Lemma recommended_nonneg :
  (0 <= (if 0 <? rem then Qmax ((b - s) / inject_Z rem) 0 else 0))%Q.
Proof.
  destruct (0 <? rem); [apply Q.le_max_r | apply Qle_refl].
Qed.

Lemma accountSummary_fields :
  accountSummary (Fin b) (Fin s) (Fin w) mCtx
  = let availRem := Math_max (Fin (b - s)) zero in
    let targetToDate := jmul (Fin b) (jdiv (ofZ E) (ofZ D)) in
    let pace :=
      if jgt targetToDate zero
      then jsub (jdiv (Fin s) targetToDate) (ofZ 1) else zero in
    mkSummary availRem targetToDate (jsub (Fin s) targetToDate)
      (if Qlt_bool 0 b then jdiv (Fin s) (Fin b) else zero)
      rem (Fin (s + w * inject_Z rem))
      (if 0 <? rem
       then Math_max (jdiv (jsub (Fin b) (Fin s)) (ofZ rem)) zero
       else zero)
      pace (trendLabel_ pace).
Proof. reflexivity. Qed.

Lemma writeAccountSheet_kpis_fields :
  writeAccountSheet_kpis (Fin b) (Fin s) (Fin w) D E
  = let targetToDate := jmul (Fin b) (jdiv (ofZ E) (ofZ D)) in
    mkSheetKpis targetToDate (jsub (Fin s) targetToDate)
      (if Qlt_bool 0 b then jdiv (Fin s) (Fin b) else zero)
      rem (Fin (s + w * inject_Z rem))
      (if 0 <? rem
       then Math_max (jdiv (jsub (Fin b) (Fin s)) (ofZ rem)) zero
       else zero).
Proof. reflexivity. Qed.

Lemma targetToDate_fin :
  1 <= D ->
  jmul (Fin b) (jdiv (ofZ E) (ofZ D)) = Fin (b * (inject_Z E / inject_Z D)).
Proof.
  intros HD. unfold ofZ at 1. now rewrite jdiv_fin_Z by lia.
Qed.

Lemma pctBudgetSpent_cases :
  ((0 < b)%Q ->
   (if Qlt_bool 0 b then jdiv (Fin s) (Fin b) else zero) = Fin (s / b)) /\
  (~ (0 < b)%Q ->
   (if Qlt_bool 0 b then jdiv (Fin s) (Fin b) else zero) = zero).
Proof.
  split; intros H.
  - apply Qlt_bool_iff in H as H'. rewrite H'. now apply jdiv_fin_pos.
  - destruct (Qlt_bool 0 b) eqn:B; [|reflexivity].
    apply Qlt_bool_iff in B. contradiction.
Qed.

Lemma paceDelta_cases t :
  ((0 < t)%Q ->
   (if jgt (Fin t) zero then jsub (jdiv (Fin s) (Fin t)) (ofZ 1) else zero)
   = Fin (s / t - 1)) /\
  (~ (0 < t)%Q ->
   (if jgt (Fin t) zero then jsub (jdiv (Fin s) (Fin t)) (ofZ 1) else zero)
   = zero).
Proof.
  change (jgt (Fin t) zero) with (Qlt_bool 0 t).
  split; intros H.
  - apply Qlt_bool_iff in H as H'. rewrite H'. now rewrite jdiv_fin_pos.
  - destruct (Qlt_bool 0 t) eqn:B; [|reflexivity].
    apply Qlt_bool_iff in B. contradiction.
Qed.

End AccountLevel.

(** C4. The account-level outputs, as [main] computes them for the
    overview and [writeAccountSheet_] for the account sheet, are
    remainingDays = max(daysInMonth - daysElapsed, 0),
    projectedEomSpend = spendMtd + wmaDaily * remainingDays and
    recommendedDailySpend = max((monthlyBudget - spendMtd) / remainingDays, 0)
    when remainingDays > 0 and 0 when remainingDays = 0; the recommended
    daily spend is never negative. *)
Theorem account_level_outputs (b s w : Q) (mCtx : MonthContext) :
  let summary := accountSummary (Fin b) (Fin s) (Fin w) mCtx in
  let kpis := writeAccountSheet_kpis (Fin b) (Fin s) (Fin w)
                (daysInMonth mCtx) (daysElapsed mCtx) in
  let rem := Z.max (daysInMonth mCtx - daysElapsed mCtx) 0 in
  let rec := if 0 <? rem then Qmax ((b - s) / inject_Z rem) 0 else 0%Q in
  (remainingDays summary = rem /\
   projectedEomSpend summary = Fin (s + w * inject_Z rem) /\
   recommendedDailySpend summary =n= Fin rec) /\
  (kpi_remainingDays kpis = rem /\
   kpi_projectedEom kpis = Fin (s + w * inject_Z rem) /\
   kpi_recDaily kpis =n= Fin rec) /\
  (0 <= rec)%Q /\
  (if 0 <? rem then (rec == Qmax ((b - s) / inject_Z rem) 0)%Q
   else recommendedDailySpend summary = zero /\ kpi_recDaily kpis = zero).
Proof.
  cbv zeta. rewrite accountSummary_fields, writeAccountSheet_kpis_fields.
  cbv zeta.
  cbn [remainingDays projectedEomSpend recommendedDailySpend
       kpi_remainingDays kpi_projectedEom kpi_recDaily].
  pose proof (recommended_fin b s mCtx) as Hrec.
  pose proof (recommended_nonneg b s mCtx) as Hpos.
  cbv zeta in Hrec, Hpos.
  repeat split; try assumption.
  destruct (0 <? Z.max (daysInMonth mCtx - daysElapsed mCtx) 0);
    [reflexivity | now split].
Qed.

(** C5. With daysInMonth >= 1 the aggregator computes
    targetSpendToDate = monthlyBudget * (daysElapsed / daysInMonth),
    paceVsTarget = spendMtd - targetSpendToDate,
    pctBudgetSpent = spendMtd / monthlyBudget when monthlyBudget > 0 and 0
    otherwise, and paceDeltaPct = spendMtd / targetSpendToDate - 1 when
    targetSpendToDate > 0 and 0 otherwise (also
    availableRemaining = max(monthlyBudget - spendMtd, 0)); the account
    sheet shows the same target, pace and share. *)
Theorem aggregator_outputs (b s w : Q) (mCtx : MonthContext) :
  1 <= daysInMonth mCtx ->
  let summary := accountSummary (Fin b) (Fin s) (Fin w) mCtx in
  let kpis := writeAccountSheet_kpis (Fin b) (Fin s) (Fin w)
                (daysInMonth mCtx) (daysElapsed mCtx) in
  let t := (b * (inject_Z (daysElapsed mCtx) / inject_Z (daysInMonth mCtx)))%Q in
  targetSpendToDate summary = Fin t /\
  paceVsTarget summary = Fin (s - t) /\
  ((0 < b)%Q -> pctBudgetSpent summary = Fin (s / b)) /\
  (~ (0 < b)%Q -> pctBudgetSpent summary = zero) /\
  ((0 < t)%Q -> paceDeltaPct summary = Fin (s / t - 1)) /\
  (~ (0 < t)%Q -> paceDeltaPct summary = zero) /\
  availableRemaining summary =n= Fin (Qmax (b - s) 0) /\
  kpi_targetToDate kpis = Fin t /\
  kpi_paceVsTarget kpis = Fin (s - t) /\
  kpi_pctBudgetSpent kpis = pctBudgetSpent summary.
Proof.
  intros HD. cbv zeta.
  rewrite accountSummary_fields, writeAccountSheet_kpis_fields. cbv zeta.
  cbn [targetSpendToDate paceVsTarget pctBudgetSpent paceDeltaPct
       availableRemaining kpi_targetToDate kpi_paceVsTarget kpi_pctBudgetSpent].
  rewrite targetToDate_fin by assumption.
  pose proof (pctBudgetSpent_cases b s) as [Hp1 Hp2].
  pose proof (paceDelta_cases s
                (b * (inject_Z (daysElapsed mCtx) / inject_Z (daysInMonth mCtx))))
    as [Hd1 Hd2].
  repeat split; try assumption. apply Math_max_fin.
Qed.

Lemma aggregator_outputs_witness :
  1 <= daysInMonth sampleCtx /\
  targetSpendToDate (accountSummary (Fin 300) (Fin 8) (Fin 2) sampleCtx)
  = Fin (300 * (inject_Z (daysElapsed sampleCtx)
                / inject_Z (daysInMonth sampleCtx))).
Proof.
  assert (1 <= daysInMonth sampleCtx) as H by (vm_compute; discriminate).
  split; [exact H|].
  exact (proj1 (aggregator_outputs 300 8 2 sampleCtx H)).
Defined.

(** ** The trend label *)

Lemma Over_not_On_Target x : ("Over " ++ x)%string <> "On Target"%string.
Proof. discriminate. Qed.

Lemma Under_not_On_Target x : ("Under " ++ x)%string <> "On Target"%string.
Proof. discriminate. Qed.

Lemma trendLabel_fin p :
  trendLabel_ (Fin p)
  = if Qle_bool (Qabs p) (5 # 100) then "On Target"%string
    else if Qlt_bool p 0
         then ("Under " ++ string_of_Z (Qfloor (Qabs p * 100 + (1 # 2))) ++ "%")%string
         else ("Over " ++ string_of_Z (Qfloor (Qabs p * 100 + (1 # 2))) ++ "%")%string.
Proof.
  unfold trendLabel_. cbn [Math_abs jmul ofZ Math_round ToString jle jlt zero].
  now rewrite Qfloor_Z.
Qed.

(** C6. For every real paceDeltaPct, [trendLabel_] returns "On Target"
    if and only if |paceDeltaPct| <= 0.05 (0.05 itself included), and
    otherwise "Under N%" when paceDeltaPct < 0 and "Over N%" when
    paceDeltaPct > 0, N being |paceDeltaPct| * 100 rounded; 0.05 gives
    "On Target" and 0.0500001 gives "Over 5%". *)
Theorem trendLabel_cases (p : Q) :
  let N := Qfloor (Qabs p * 100 + (1 # 2)) in
  (trendLabel_ (Fin p) = "On Target"%string <-> (Qabs p <= 5 # 100)%Q) /\
  (~ (Qabs p <= 5 # 100)%Q /\ (p < 0)%Q ->
   trendLabel_ (Fin p) = ("Under " ++ string_of_Z N ++ "%")%string) /\
  (~ (Qabs p <= 5 # 100)%Q /\ (0 < p)%Q ->
   trendLabel_ (Fin p) = ("Over " ++ string_of_Z N ++ "%")%string) /\
  trendLabel_ (Fin (5 # 100)) = "On Target"%string /\
  trendLabel_ (Fin (500001 # 10000000)) = "Over 5%"%string.
Proof.
  cbv zeta. rewrite trendLabel_fin.
  destruct (Qle_bool (Qabs p) (5 # 100)) eqn:Habs.
  - apply Qle_bool_iff in Habs.
    split; [tauto|]. split; [tauto|]. split; [tauto|].
    split; vm_compute; reflexivity.
  - assert (~ (Qabs p <= 5 # 100)%Q) as Hn.
    { intros H. apply Qle_bool_iff in H. congruence. }
    split; [|split; [|split; [|split; vm_compute; reflexivity]]].
    + split; [|contradiction].
      destruct (Qlt_bool p 0); intros H; exfalso;
        [eapply Under_not_On_Target | eapply Over_not_On_Target]; exact H.
    + intros [_ Hneg]. apply Qlt_bool_iff in Hneg. now rewrite Hneg.
    + intros [_ Hpos].
      destruct (Qlt_bool p 0) eqn:B; [|reflexivity].
      apply Qlt_bool_iff in B. lra.
Qed.

(** ** Guarded divisions *)

Section Guards.

Variable LocalTZA : Z.

Lemma perDayLoop_guard byDay monthlyBudget mCtx n : forall d cum,
  jgt monthlyBudget zero = false ->
  Forall (fun r => runningPacePct r = zero)
         (perDayLoop LocalTZA byDay monthlyBudget mCtx n d cum).
Proof.
  induction n as [|n IH]; intros d cum Hb; [constructor|].
  cbn [perDayLoop]. cbv zeta. constructor; [|now apply IH].
  cbn [perDayRow runningPacePct]. now rewrite Hb.
Qed.

(** The guards of the engine, whatever the numbers are (reals, infinities
    or NaN): a ratio whose test fails is 0. *)
Lemma guards_default_to_zero daily (monthlyBudget spendMtd wmaDaily : num)
    (mCtx : MonthContext) :
  let summary := accountSummary monthlyBudget spendMtd wmaDaily mCtx in
  (jgt monthlyBudget zero = false ->
   Forall (fun r => runningPacePct r = zero)
          (buildPerDayRows_ LocalTZA daily monthlyBudget mCtx) /\
   pctBudgetSpent summary = zero) /\
  (jgt (targetSpendToDate summary) zero = false ->
   paceDeltaPct summary = zero) /\
  (daysInMonth mCtx <= 0 -> targetDailyOf monthlyBudget mCtx = zero).
Proof.
  cbv zeta. split; [|split].
  - intros Hb. split; [now apply perDayLoop_guard|].
    unfold accountSummary. cbv zeta. cbn [pctBudgetSpent]. now rewrite Hb.
  - unfold accountSummary. cbv zeta. cbn [paceDeltaPct targetSpendToDate].
    now intros ->.
  - intros HD. unfold targetDailyOf.
    now destruct (Z.ltb_spec 0 (daysInMonth mCtx)); [lia|].
Qed.

End Guards.

(** C7 (a defect of the code). The guards test [monthlyBudget > 0],
    [targetToDate > 0] and [daysInMonth > 0].  A budget that is NaN -- what
    [readConfig_] keeps for a budget cell holding text such as 'n/a' --
    fails the first two tests, so runningPacePct, pctBudgetSpent and
    paceDeltaPct are 0; but it is divided all the same where only
    daysInMonth or the remaining days are tested: on 3 November 2026
    targetDaily is NaN in every row of the series, recDaily is NaN in every
    row but the last, and the recommended daily spend and the target to
    date of the overview are NaN. *)
Theorem nan_budget_reaches_ratios :
  exists perDay summary,
    accountPacing 0 (mkToday 2026 11 3) "UTC" sampleDaily NaN (Fin 8)
    = Ok (perDay, summary) /\
    map targetDaily perDay = replicate 30 NaN /\
    map recDaily perDay = replicate 29 NaN ++ [zero] /\
    map runningPacePct perDay = replicate 30 zero /\
    recommendedDailySpend summary = NaN /\
    targetSpendToDate summary = NaN /\
    pctBudgetSpent summary = zero /\
    paceDeltaPct summary = zero.
Proof.
  eexists _, _. split; [vm_compute; reflexivity|].
  repeat match goal with |- _ /\ _ => split end; vm_compute; reflexivity.
Qed.

(** ** The scenarios of the specification *)

Section Scenarios.

Local Ltac conjuncts :=
  repeat match goal with |- _ /\ _ => split end.

Example scenario_month :
  daysInMonth scenarioCtx = 30 /\ daysElapsed scenarioCtx = 10.
Proof. split; vm_compute; reflexivity. Qed.

(** Spend of 100 a day for 10 days: on target, average 100, projection
    3000, recommendation 100. *)
Example steady_scenario :
  let summary := accountSummary (Fin 3000) (Fin 1000) (Fin 100) scenarioCtx in
  (cumSpend <$> steadyRows !! 9%nat) = Some (Fin 1000) /\
  (targetDaily <$> steadyRows !! 9%nat) = Some (Fin (3000 / 30)) /\
  (exists v, computeWmaDaily_ steadyRows 10 WMA_WINDOW_DAYS = Ok v /\
             v =n= Fin 100) /\
  targetSpendToDate summary =n= Fin 1000 /\
  paceVsTarget summary =n= Fin 0 /\
  trendText summary = "On Target"%string /\
  projectedEomSpend summary =n= Fin 3000 /\
  recommendedDailySpend summary =n= Fin 100.
Proof.
  cbv zeta. conjuncts; try (vm_compute; reflexivity).
  eexists. split; vm_compute; reflexivity.
Qed.

(** Spend of 200 a day for 5 days, then nothing: the average over the
    days 4..10 weighs the two days with spend 1 and 2, and is 600 / 28. *)
Example burst_scenario :
  (cumSpend <$> burstRows !! 9%nat) = Some (Fin 1000) /\
  wmaWindow 10 7 = [4; 5; 6; 7; 8; 9; 10] /\
  map (wmaWeight 10 7) (wmaWindow 10 7) = [1; 2; 3; 4; 5; 6; 7] /\
  map (costOfDay burstRows) (wmaWindow 10 7) = [200; 200; 0; 0; 0; 0; 0]%Q /\
  exists v, computeWmaDaily_ burstRows 10 WMA_WINDOW_DAYS = Ok v /\
            v =n= Fin (600 / 28).
Proof.
  conjuncts; try (vm_compute; reflexivity).
  eexists. split; vm_compute; reflexivity.
Qed.

End Scenarios.

(** ** The computations of [main] *)

Section Main.

Variable LocalTZA : Z.

Lemma perDayLoop_finite_costs byDay monthlyBudget mCtx n : forall d cum,
  (forall d, is_fin (or_default (byDay !! d) zero) = true) ->
  finite_row_costs (perDayLoop LocalTZA byDay monthlyBudget mCtx n d cum) = true.
Proof.
  induction n as [|n IH]; intros d cum Hby; [reflexivity|].
  cbn [perDayLoop]. cbv zeta. unfold finite_row_costs in *.
  cbn [forallb perDayRow cost]. rewrite Hby. now apply IH.
Qed.

(** In [main] the series has a row for every elapsed day, so the weighted
    average is computed without an error, whatever the date and the
    observations. *)
Lemma accountPacing_returns today tzname dailyActuals (b s : Q) :
  valid_date today ->
  finite_costs dailyActuals = true ->
  exists perDay summary,
    accountPacing LocalTZA today tzname dailyActuals (Fin b) (Fin s)
    = Ok (perDay, summary) /\
    Z.of_nat (length perDay) = month_length (fmt_yyyy today) (fmt_M today).
Proof.
  intros (Hy & HM & Hd) Hfin. unfold accountPacing. cbv zeta.
  set (mCtx := monthMeta_ LocalTZA today tzname).
  assert (daysInMonth mCtx = month_length (fmt_yyyy today) (fmt_M today)) as HD.
  { unfold mCtx. rewrite monthMeta_fields. cbv zeta. cbn [daysInMonth].
    now apply month_end_date. }
  assert (daysElapsed mCtx = Z.min (fmt_d today) (daysInMonth mCtx)) as HE.
  { unfold mCtx. rewrite monthMeta_fields. cbv zeta.
    cbn [daysElapsed daysInMonth]. reflexivity. }
  pose proof (month_length_bounds (fmt_yyyy today) (fmt_M today)) as Hb.
  set (rows := buildPerDayRows_ LocalTZA dailyActuals (Fin b) mCtx).
  assert (length rows = Z.to_nat (daysInMonth mCtx)) as Hlen.
  { unfold rows, buildPerDayRows_. apply perDayLoop_length. }
  assert (finite_row_costs rows = true) as Hrows.
  { apply perDayLoop_finite_costs. intros d.
    now destruct (groupByDay_lookup LocalTZA dailyActuals Hfin d)
      as (q & -> & _). }
  destruct (computeWmaDaily_window rows (daysElapsed mCtx) WMA_WINDOW_DAYS)
    as (q & -> & _); [assumption | lia | unfold WMA_WINDOW_DAYS; lia |].
  eexists _, _. split; [reflexivity|].
  unfold applyWmaForecast_. rewrite forecastLoop_length, Hlen. lia.
Qed.

End Main.

(** ** Further properties of the daily series *)

Section SeriesProperties.

Variable LocalTZA : Z.

(** Row [i] of the loop is the row of day [d0 + i], whatever the costs. *)
Lemma perDayLoop_row byDay monthlyBudget mCtx n : forall d0 cum (i : nat),
  (i < n)%nat ->
  exists cum',
    perDayLoop LocalTZA byDay monthlyBudget mCtx n d0 cum !! i
    = Some (perDayRow LocalTZA byDay monthlyBudget mCtx (d0 + Z.of_nat i) cum').
Proof.
  induction n as [|n IH]; intros d0 cum i Hi; [lia|].
  cbn [perDayLoop]. cbv zeta. rewrite lookup_cons. destruct i as [|i].
  - exists cum. now rewrite Z.add_0_r.
  - destruct (IH (d0 + 1) (cumSpend (perDayRow LocalTZA byDay monthlyBudget
                                       mCtx d0 cum)) i ltac:(lia))
      as (cum' & ->).
    exists cum'. do 2 f_equal. lia.
Qed.

Lemma buildPerDayRows_row daily b mCtx d :
  finite_costs daily = true ->
  1 <= d <= daysInMonth mCtx ->
  exists s, (s == cumCost LocalTZA daily (d - 1))%Q /\
    buildPerDayRows_ LocalTZA daily (Fin b) mCtx !! Z.to_nat (d - 1)
    = Some (perDayRow LocalTZA (groupByDay LocalTZA daily) (Fin b) mCtx d
              (Fin s)).
Proof.
  intros Hfin Hd.
  pose proof (groupByDay_lookup LocalTZA daily Hfin) as Hby.
  destruct (perDayLoop_lookup LocalTZA _ _ Hby b mCtx
              (Z.to_nat (daysInMonth mCtx)) 1 0 (Z.to_nat (d - 1)) ltac:(lia))
    as (s & Hs & Hr).
  rewrite Z2Nat.id in Hs, Hr by lia.
  replace (1 + (d - 1)) with d in Hr by lia.
  exists s. split; [|exact Hr]. rewrite Hs. unfold cumCost. lra.
Qed.

Lemma buildPerDayRows_cumSpend daily b mCtx d r :
  finite_costs daily = true ->
  1 <= d <= daysInMonth mCtx ->
  buildPerDayRows_ LocalTZA daily (Fin b) mCtx !! Z.to_nat (d - 1) = Some r ->
  exists s, cumSpend r = Fin s /\ (s == cumCost LocalTZA daily d)%Q.
Proof.
  intros Hfin Hd Hr.
  destruct (buildPerDayRows_row daily b mCtx d Hfin Hd) as (s & Hs & Hrow).
  rewrite Hrow in Hr. injection Hr as <-.
  cbn [perDayRow cumSpend].
  destruct (groupByDay_lookup LocalTZA daily Hfin d) as (c & -> & Hc).
  eexists. split; [reflexivity|].
  rewrite cumCost_step, Hs, Hc by lia. reflexivity.
Qed.

Lemma nonneg_costs_finite daily :
  nonneg_costs daily = true -> finite_costs daily = true.
Proof.
  unfold nonneg_costs, finite_costs. rewrite !forallb_forall.
  intros H o Ho. specialize (H o Ho). now destruct (obs_cost o).
Qed.

Lemma sumQ_nonneg l : Forall (fun q => (0 <= q)%Q) l -> (0 <= sumQ l)%Q.
Proof.
  induction 1 as [|q l Hq _ IH]; cbn [sumQ]; [apply Qle_refl | lra].
Qed.

Lemma dayCost_nonneg daily d :
  nonneg_costs daily = true -> (0 <= dayCost LocalTZA daily d)%Q.
Proof.
  intros H. unfold dayCost, observationsOn. apply sumQ_nonneg.
  apply Forall_forall. intros q Hq.
  apply list_elem_of_In, in_map_iff in Hq as (o & <- & Ho).
  apply list_elem_of_In, list_elem_of_filter in Ho as [_ Ho].
  unfold nonneg_costs in H. rewrite forallb_forall in H.
  specialize (H o (proj1 (list_elem_of_In _ _) Ho)).
  destruct (obs_cost o); try discriminate. now apply Qle_bool_iff.
Qed.

Lemma cumCost_nonneg daily d :
  nonneg_costs daily = true -> (0 <= cumCost LocalTZA daily d)%Q.
Proof.
  intros H. unfold cumCost. apply sumQ_nonneg, Forall_forall.
  intros q Hq. apply list_elem_of_In, in_map_iff in Hq as (k & <- & _).
  now apply dayCost_nonneg.
Qed.

Lemma cumCost_mono daily d d' :
  nonneg_costs daily = true -> 0 <= d <= d' ->
  (cumCost LocalTZA daily d <= cumCost LocalTZA daily d')%Q.
Proof.
  intros H Hd. unfold cumCost.
  replace d' with (d + (d' - d)) by lia.
  rewrite seqZ_app, map_app, sumQ_app by lia.
  assert (0 <= sumQ (map (dayCost LocalTZA daily) (seqZ (1 + d) (d' - d))))%Q
    as Hpos.
  { apply sumQ_nonneg, Forall_forall. intros q Hq.
    apply list_elem_of_In, in_map_iff in Hq as (k & <- & _).
    now apply dayCost_nonneg. }
  lra.
Qed.

End SeriesProperties.

(** X2. When no observed cost is negative, cumSpend is never negative and
    never decreases from one day of the series to a later one. *)
Theorem cumSpend_nondecreasing (LocalTZA : Z) (daily : list DailyObservation)
    (b : Q) (mCtx : MonthContext) (d d' : Z) (r r' : DayRow) :
  nonneg_costs daily = true ->
  1 <= d <= d' -> d' <= daysInMonth mCtx ->
  buildPerDayRows_ LocalTZA daily (Fin b) mCtx !! Z.to_nat (d - 1) = Some r ->
  buildPerDayRows_ LocalTZA daily (Fin b) mCtx !! Z.to_nat (d' - 1) = Some r' ->
  jle zero (cumSpend r) = true /\ jle (cumSpend r) (cumSpend r') = true.
Proof.
  intros Hnn Hd Hd' Hr Hr'.
  pose proof (nonneg_costs_finite daily Hnn) as Hfin.
  destruct (buildPerDayRows_cumSpend LocalTZA daily b mCtx d r Hfin
              ltac:(lia) Hr) as (s & -> & Hs).
  destruct (buildPerDayRows_cumSpend LocalTZA daily b mCtx d' r' Hfin
              ltac:(lia) Hr') as (s' & -> & Hs').
  pose proof (cumCost_nonneg LocalTZA daily d Hnn).
  pose proof (cumCost_mono LocalTZA daily d d' Hnn ltac:(lia)).
  cbn [jle zero]. split; apply Qle_bool_iff; lra.
Qed.

Lemma cumSpend_nondecreasing_witness :
  exists r r',
    sampleRows !! Z.to_nat (2 - 1) = Some r /\
    sampleRows !! Z.to_nat (30 - 1) = Some r' /\
    jle (cumSpend r) (cumSpend r') = true.
Proof.
  assert (nonneg_costs sampleDaily = true) as H1 by reflexivity.
  assert (1 <= 2 <= 30) as H2 by lia.
  assert (30 <= daysInMonth sampleCtx) as H3 by (vm_compute; discriminate).
  destruct (sampleRows !! Z.to_nat (2 - 1)) as [r|] eqn:Hr;
    [|vm_compute in Hr; discriminate].
  destruct (sampleRows !! Z.to_nat (30 - 1)) as [r'|] eqn:Hr';
    [|vm_compute in Hr'; discriminate].
  exists r, r'. split; [reflexivity|]. split; [reflexivity|].
  exact (proj2 (cumSpend_nondecreasing 0 sampleDaily 300 sampleCtx 2 30 r r'
                  H1 H2 H3 Hr Hr')).
Defined.

(** X1. For a valid reference date and observations with real costs, the
    pacing computations of [main] for an account raise no error: the
    series has as many rows as the context counts days in the month, the
    average is the weighted average of the last min(7, daysElapsed) days of
    the base series, and the overview figures are computed with it. *)
Theorem accountPacing_computes (LocalTZA : Z) (today : Today) (tzname : string)
    (dailyActuals : list DailyObservation) (b s : Q) :
  valid_date today ->
  finite_costs dailyActuals = true ->
  let mCtx := monthMeta_ LocalTZA today tzname in
  let base := buildPerDayRows_ LocalTZA dailyActuals (Fin b) mCtx in
  exists q,
    (q == weightedAverage base (daysElapsed mCtx)
            (Z.min WMA_WINDOW_DAYS (daysElapsed mCtx)))%Q /\
    accountPacing LocalTZA today tzname dailyActuals (Fin b) (Fin s)
    = Ok (applyWmaForecast_ base mCtx (Fin s) (Fin q),
          accountSummary (Fin b) (Fin s) (Fin q) mCtx) /\
    length (applyWmaForecast_ base mCtx (Fin s) (Fin q))
    = Z.to_nat (daysInMonth mCtx).
Proof.
  intros (Hy & HM & Hd) Hfin mCtx base. unfold accountPacing. cbv zeta.
  fold mCtx. fold base.
  assert (daysInMonth mCtx = month_length (fmt_yyyy today) (fmt_M today)) as HD.
  { unfold mCtx. rewrite monthMeta_fields. cbv zeta. cbn [daysInMonth].
    now apply month_end_date. }
  assert (daysElapsed mCtx = Z.min (fmt_d today) (daysInMonth mCtx)) as HE.
  { unfold mCtx. rewrite monthMeta_fields. cbv zeta.
    cbn [daysElapsed daysInMonth]. reflexivity. }
  assert (length base = Z.to_nat (daysInMonth mCtx)) as Hlen.
  { unfold base, buildPerDayRows_. apply perDayLoop_length. }
  assert (finite_row_costs base = true) as Hrows.
  { apply perDayLoop_finite_costs. intros d.
    now destruct (groupByDay_lookup LocalTZA dailyActuals Hfin d)
      as (q & -> & _). }
  pose proof (month_length_bounds (fmt_yyyy today) (fmt_M today)) as Hb.
  destruct (computeWmaDaily_window base (daysElapsed mCtx) WMA_WINDOW_DAYS)
    as (q & Hq & Havg);
    [assumption | lia | unfold WMA_WINDOW_DAYS; lia |].
  rewrite Hq. exists q. split; [|split; [reflexivity|]].
  - rewrite Havg. now rewrite (Z.max_l (daysElapsed mCtx) 0) by lia.
  - unfold applyWmaForecast_. now rewrite forecastLoop_length.
Qed.

Lemma accountPacing_computes_witness :
  exists q,
    accountPacing 0 (mkToday 2026 11 10) "UTC" steadyDaily (Fin 3000) (Fin 1000)
    = Ok (applyWmaForecast_ steadyRows scenarioCtx (Fin 1000) (Fin q),
          accountSummary (Fin 3000) (Fin 1000) (Fin q) scenarioCtx).
Proof.
  assert (valid_date (mkToday 2026 11 10)) as H1
    by (vm_compute; intuition discriminate).
  assert (finite_costs steadyDaily = true) as H2 by reflexivity.
  destruct (accountPacing_computes 0 (mkToday 2026 11 10) "UTC" steadyDaily
              3000 1000 H1 H2) as (q & _ & Hq & _).
  exists q. exact Hq.
Defined.

(** ** Further properties of the account-level figures *)

Section SummaryProperties.

Lemma accountSummary_projected budgetCap spendMtd wmaDaily mCtx :
  projectedEomSpend (accountSummary budgetCap spendMtd wmaDaily mCtx)
  = jadd spendMtd
         (jmul wmaDaily
               (ofZ (Z.max (daysInMonth mCtx - daysElapsed mCtx) 0))).
Proof. reflexivity. Qed.

Lemma accountSummary_recommended budgetCap spendMtd wmaDaily mCtx :
  recommendedDailySpend (accountSummary budgetCap spendMtd wmaDaily mCtx)
  = if 0 <? Z.max (daysInMonth mCtx - daysElapsed mCtx) 0
    then Math_max (jdiv (jsub budgetCap spendMtd)
                        (ofZ (Z.max (daysInMonth mCtx - daysElapsed mCtx) 0)))
                  zero
    else zero.
Proof. reflexivity. Qed.

Lemma Math_max_zero x :
  exists r, Math_max (Fin x) zero = Fin r /\ (r == Qmax x 0)%Q.
Proof.
  pose proof (Math_max_fin x 0) as H. change (Fin 0) with zero in H.
  apply num_eq_fin_l in H as (r & Hr & Hq). eauto.
Qed.

End SummaryProperties.

(** X4. Once the budget is spent -- the spend to date is the budget or
    more -- the recommended daily spend and the available budget remaining
    are both 0, not negative, whatever days remain. *)
Theorem recommendation_zero_when_spent (b s w : Q) (mCtx : MonthContext) :
  (b <= s)%Q ->
  let summary := accountSummary (Fin b) (Fin s) (Fin w) mCtx in
  recommendedDailySpend summary =n= zero /\
  availableRemaining summary =n= zero.
Proof.
  intros Hspent. cbv zeta. rewrite accountSummary_fields. cbv zeta.
  cbn [recommendedDailySpend availableRemaining]. cbn [jsub].
  destruct (Math_max_zero (b - s)) as (avail & -> & Havail).
  rewrite Q.max_r in Havail by lra.
  split; [|exact Havail].
  destruct (Z.ltb_spec 0 (Z.max (daysInMonth mCtx - daysElapsed mCtx) 0))
    as [Hrem|_]; [|reflexivity].
  rewrite jdiv_fin_Z by lia.
  set (k := inject_Z (Z.max (daysInMonth mCtx - daysElapsed mCtx) 0)).
  assert (0 < k)%Q as Hk by (unfold k, Qlt; cbn; lia).
  destruct (Math_max_zero ((b - s) / k)) as (rec & -> & Hrec).
  assert ((b - s) / k <= 0)%Q as Hq.
  { apply Qle_shift_div_r; [assumption|]. lra. }
  rewrite Q.max_r in Hrec by assumption. exact Hrec.
Qed.

Lemma recommendation_zero_when_spent_witness :
  recommendedDailySpend
    (accountSummary (Fin 3000) (Fin 3200) (Fin 100) scenarioCtx) =n= zero /\
  availableRemaining
    (accountSummary (Fin 3000) (Fin 3200) (Fin 100) scenarioCtx) =n= zero.
Proof.
  apply (recommendation_zero_when_spent 3000 3200 100 scenarioCtx).
  discriminate.
Defined.

(** X5. The trend never points the wrong way: in a month of at least one
    day, when the trend text starts with "Over" the target to date is
    above 0 and the spend to date is above the target, and when it starts
    with "Under" the target is above 0 and the spend is below it. *)
Theorem trend_points_the_right_way (b s w : Q) (mCtx : MonthContext)
    (N : string) :
  1 <= daysInMonth mCtx ->
  let summary := accountSummary (Fin b) (Fin s) (Fin w) mCtx in
  exists t,
    targetSpendToDate summary = Fin t /\
    (trendText summary = ("Over " ++ N)%string -> (0 < t)%Q /\ (t < s)%Q) /\
    (trendText summary = ("Under " ++ N)%string -> (0 < t)%Q /\ (s < t)%Q).
Proof.
  intros HD. cbv zeta. rewrite accountSummary_fields. cbv zeta.
  cbn [paceDeltaPct trendText targetSpendToDate].
  rewrite targetToDate_fin by assumption.
  set (t := (b * (inject_Z (daysElapsed mCtx) / inject_Z (daysInMonth mCtx)))%Q).
  exists t. split; [reflexivity|].
  destruct (Qlt_le_dec 0 t) as [Ht|Ht].
  - rewrite (proj1 (paceDelta_cases s t) Ht), trendLabel_fin.
    assert ((s / t - 1) * t == s - t)%Q as Hmul by (field; lra).
    destruct (Qle_bool (Qabs (s / t - 1)) (5 # 100)) eqn:B.
    + split; intros H; discriminate H.
    + destruct (Qlt_bool (s / t - 1) 0) eqn:Bneg.
      * split; [intros H; discriminate H|]. intros _. split; [exact Ht|].
        apply Qlt_bool_iff in Bneg.
        assert ((s / t - 1) * t < 0 * t)%Q
          by (apply Qmult_lt_compat_r; assumption).
        lra.
      * split; [|intros H; discriminate H]. intros _. split; [exact Ht|].
        assert (~ (s / t - 1 <= 5 # 100)%Q \/ ~ (- (5 # 100) <= s / t - 1)%Q)
          as Hout.
        { destruct (Qlt_le_dec (5 # 100) (s / t - 1)) as [H1|H1];
            [left; lra|].
          right. intros H2.
          assert (Qle_bool (Qabs (s / t - 1)) (5 # 100) = true)
            by (apply Qle_bool_iff, Qabs_Qle_condition; split; lra).
          congruence. }
        assert (~ (s / t - 1 < 0)%Q) as Hnn.
        { intros H. apply Qlt_bool_iff in H. congruence. }
        assert (0 < s / t - 1)%Q as Hp by (destruct Hout; lra).
        assert (0 * t < (s / t - 1) * t)%Q
          by (apply Qmult_lt_compat_r; assumption).
        lra.
  - rewrite (proj2 (paceDelta_cases s t)) by lra.
    change (trendLabel_ zero) with "On Target"%string.
    split; intros H; discriminate H.
Qed.

Lemma trend_points_the_right_way_witness :
  exists t,
    targetSpendToDate
      (accountSummary (Fin 3000) (Fin 1200) (Fin 100) scenarioCtx) = Fin t /\
    (0 < t)%Q /\ (t < 1200)%Q.
Proof.
  assert (1 <= daysInMonth scenarioCtx) as H1 by (vm_compute; discriminate).
  destruct (trend_points_the_right_way 3000 1200 100 scenarioCtx "20%" H1)
    as (t & Ht & Hover & _).
  exists t. split; [exact Ht|]. apply Hover. vm_compute. reflexivity.
Defined.

(** ** Further properties of the forecast *)

(** X6. The forecast curve ends at the projection: while days remain in
    the month, cumForecastWma of the last row of a series of daysInMonth
    rows is the projected end-of-month spend of the overview. *)
Theorem forecast_ends_at_projection (perDay : list DayRow)
    (mCtx : MonthContext) (budgetCap spendMtd wmaDaily : num) :
  length perDay = Z.to_nat (daysInMonth mCtx) ->
  daysElapsed mCtx < daysInMonth mCtx ->
  1 <= daysInMonth mCtx ->
  exists r,
    last (applyWmaForecast_ perDay mCtx spendMtd wmaDaily) = Some r /\
    cumForecastWma r
    = Some (projectedEomSpend
              (accountSummary budgetCap spendMtd wmaDaily mCtx)).
Proof.
  intros Hlen HE HD.
  destruct (lookup_lt_is_Some_2 perDay (Z.to_nat (daysInMonth mCtx - 1))
              ltac:(lia)) as [r0 Hr0].
  pose proof (forecastLoop_lookup mCtx spendMtd wmaDaily perDay 1 _ r0 Hr0)
    as Hrow.
  rewrite Z2Nat.id in Hrow by lia.
  replace (1 + (daysInMonth mCtx - 1)) with (daysInMonth mCtx) in Hrow by lia.
  eexists. split.
  - rewrite last_lookup. unfold applyWmaForecast_.
    rewrite forecastLoop_length, Hlen.
    replace (Init.Nat.pred (Z.to_nat (daysInMonth mCtx)))
      with (Z.to_nat (daysInMonth mCtx - 1)) by lia.
    exact Hrow.
  - cbn [forecastRow cumForecastWma].
    destruct (Z.leb_spec (daysInMonth mCtx) (daysElapsed mCtx)); [lia|].
    rewrite accountSummary_projected. now rewrite Z.max_l by lia.
Qed.

Lemma forecast_ends_at_projection_witness :
  exists r,
    last (applyWmaForecast_ steadyRows scenarioCtx (Fin 1000) (Fin 100))
    = Some r /\
    cumForecastWma r
    = Some (projectedEomSpend
              (accountSummary (Fin 3000) (Fin 1000) (Fin 100) scenarioCtx)).
Proof.
  assert (length steadyRows = Z.to_nat (daysInMonth scenarioCtx)) as H1
    by (vm_compute; reflexivity).
  assert (daysElapsed scenarioCtx < daysInMonth scenarioCtx) as H2
    by (vm_compute; reflexivity).
  assert (1 <= daysInMonth scenarioCtx) as H3 by (vm_compute; discriminate).
  exact (forecast_ends_at_projection steadyRows scenarioCtx (Fin 3000)
           (Fin 1000) (Fin 100) H1 H2 H3).
Defined.

(** X7. With an average that is not negative, the forecast never
    decreases after the elapsed days: for two consecutive days beyond
    daysElapsed, cumForecastWma of the earlier one is at most that of the
    later one. *)
Theorem forecast_never_decreases (perDay : list DayRow) (mCtx : MonthContext)
    (s w : Q) (d : Z) (r1 r2 : DayRow) :
  (0 <= w)%Q ->
  daysElapsed mCtx < d -> 1 <= d ->
  applyWmaForecast_ perDay mCtx (Fin s) (Fin w) !! Z.to_nat (d - 1) = Some r1 ->
  applyWmaForecast_ perDay mCtx (Fin s) (Fin w) !! Z.to_nat d = Some r2 ->
  exists f1 f2,
    cumForecastWma r1 = Some f1 /\
    cumForecastWma r2 = Some f2 /\
    jle f1 f2 = true.
Proof.
  intros Hw HE Hd H1 H2. unfold applyWmaForecast_ in H1, H2.
  destruct (perDay !! Z.to_nat (d - 1)) as [p1|] eqn:E1.
  2:{ apply lookup_ge_None in E1.
      apply lookup_lt_Some in H1. rewrite forecastLoop_length in H1. lia. }
  destruct (perDay !! Z.to_nat d) as [p2|] eqn:E2.
  2:{ apply lookup_ge_None in E2.
      apply lookup_lt_Some in H2. rewrite forecastLoop_length in H2. lia. }
  rewrite (forecastLoop_lookup mCtx (Fin s) (Fin w) perDay 1 _ p1 E1) in H1.
  rewrite (forecastLoop_lookup mCtx (Fin s) (Fin w) perDay 1 _ p2 E2) in H2.
  injection H1 as <-. injection H2 as <-.
  rewrite !Z2Nat.id by lia.
  cbn [forecastRow cumForecastWma jmul ofZ jadd].
  destruct (Z.leb_spec (1 + (d - 1)) (daysElapsed mCtx)); [lia|].
  destruct (Z.leb_spec (1 + d) (daysElapsed mCtx)); [lia|].
  eexists _, _. split; [reflexivity|]. split; [reflexivity|].
  cbn [jle]. apply Qle_bool_iff.
  replace (1 + d - daysElapsed mCtx)
    with ((1 + (d - 1) - daysElapsed mCtx) + 1) by lia.
  rewrite inject_Z_plus. change (inject_Z 1) with 1%Q.
  set (k := inject_Z (1 + (d - 1) - daysElapsed mCtx)).
  assert (w * (k + 1) == w * k + w)%Q as Hk by ring.
  lra.
Qed.

Lemma forecast_never_decreases_witness :
  exists r1 r2 f1 f2,
    applyWmaForecast_ steadyRows scenarioCtx (Fin 1000) (Fin 100)
      !! Z.to_nat (12 - 1) = Some r1 /\
    applyWmaForecast_ steadyRows scenarioCtx (Fin 1000) (Fin 100)
      !! Z.to_nat 12 = Some r2 /\
    cumForecastWma r1 = Some f1 /\
    cumForecastWma r2 = Some f2 /\
    jle f1 f2 = true.
Proof.
  assert (0 <= 100)%Q as H0 by discriminate.
  assert (daysElapsed scenarioCtx < 12) as H1 by (vm_compute; reflexivity).
  assert (1 <= 12) as H2 by lia.
  destruct (applyWmaForecast_ steadyRows scenarioCtx (Fin 1000) (Fin 100)
              !! Z.to_nat (12 - 1)) as [r1|] eqn:E1;
    [|vm_compute in E1; discriminate].
  destruct (applyWmaForecast_ steadyRows scenarioCtx (Fin 1000) (Fin 100)
              !! Z.to_nat 12) as [r2|] eqn:E2;
    [|vm_compute in E2; discriminate].
  destruct (forecast_never_decreases steadyRows scenarioCtx 1000 100 12 r1 r2
              H0 H1 H2 E1 E2) as (f1 & f2 & Hf1 & Hf2 & Hf).
  exists r1, r2, f1, f2. repeat split; assumption.
Defined.

(** X8. The two recommendations agree: on the elapsed day, recDaily of the
    series is the recommended daily spend of the overview whenever the
    spend to date is the cumSpend of that day. *)
Theorem recDaily_agrees_with_overview (LocalTZA : Z)
    (daily : list DailyObservation) (monthlyBudget wmaDaily : num)
    (mCtx : MonthContext) (r : DayRow) :
  1 <= daysElapsed mCtx <= daysInMonth mCtx ->
  buildPerDayRows_ LocalTZA daily monthlyBudget mCtx
    !! Z.to_nat (daysElapsed mCtx - 1) = Some r ->
  recommendedDailySpend
    (accountSummary monthlyBudget (cumSpend r) wmaDaily mCtx)
  = recDaily r.
Proof.
  intros HE Hr. unfold buildPerDayRows_ in Hr.
  destruct (perDayLoop_row LocalTZA (groupByDay LocalTZA daily) monthlyBudget
              mCtx (Z.to_nat (daysInMonth mCtx)) 1 zero
              (Z.to_nat (daysElapsed mCtx - 1)) ltac:(lia)) as (cum & Hrow).
  rewrite Hrow in Hr. injection Hr as <-.
  rewrite Z2Nat.id by lia.
  replace (1 + (daysElapsed mCtx - 1)) with (daysElapsed mCtx) by lia.
  rewrite accountSummary_recommended.
  cbn [perDayRow recDaily cumSpend].
  destruct (Z.le_gt_cases (daysInMonth mCtx) (daysElapsed mCtx)).
  - rewrite Z.max_r by lia.
    now destruct (Z.ltb_spec 0 (daysInMonth mCtx - daysElapsed mCtx)); [lia|].
  - now rewrite Z.max_l by lia.
Qed.

Lemma recDaily_agrees_with_overview_witness :
  exists r,
    steadyRows !! Z.to_nat (daysElapsed scenarioCtx - 1) = Some r /\
    recommendedDailySpend
      (accountSummary (Fin 3000) (cumSpend r) (Fin 100) scenarioCtx)
    = recDaily r.
Proof.
  assert (1 <= daysElapsed scenarioCtx <= daysInMonth scenarioCtx) as H1
    by (vm_compute; split; discriminate).
  destruct (steadyRows !! Z.to_nat (daysElapsed scenarioCtx - 1))
    as [r|] eqn:Hr; [|vm_compute in Hr; discriminate].
  exists r. split; [reflexivity|].
  exact (recDaily_agrees_with_overview 0 steadyDaily (Fin 3000) (Fin 100)
           scenarioCtx r H1 Hr).
Defined.

(** ** Further properties of the weighted average *)

Section AverageSign.

Variables (c : Z -> Q) (wt : Z -> Z).

Lemma weighted_sum_nonneg (l : list Z) :
  Forall (fun j => 0 < wt j /\ (0 <= c j)%Q) l ->
  (0 <= sumQ (map (fun j => inject_Z (wt j) * c j) l))%Q /\
  (0 <= sumQ (map (fun j => inject_Z (wt j)) l))%Q.
Proof.
  induction 1 as [|j l [Hw Hc] _ IH]; cbn [map sumQ]; [lra|].
  assert (0 < inject_Z (wt j))%Q as Hpos by (unfold Qlt; cbn; lia).
  assert (0 <= inject_Z (wt j) * c j)%Q by (apply Qmult_le_0_compat; lra).
  lra.
Qed.

End AverageSign.

(** X9. The weighted average is not negative when no cost of its window
    is: if every cost of the days daysElapsed - n + 1 .. daysElapsed is 0 or
    more, [computeWmaDaily_] returns a number that is 0 or more. *)
Theorem computeWmaDaily_nonneg (perDay : list DayRow) (e W : Z) :
  finite_row_costs perDay = true ->
  e <= Z.of_nat (length perDay) ->
  1 <= W -> 1 <= e ->
  (forall j, e - Z.min W e < j <= e -> (0 <= costOfDay perDay j)%Q) ->
  exists v, computeWmaDaily_ perDay e W = Ok v /\ jle zero v = true.
Proof.
  intros Hfin Hlen HW He Hc.
  destruct (computeWmaDaily_window perDay e W Hfin Hlen ltac:(lia))
    as (q & Hq & Havg).
  exists (Fin q). split; [exact Hq|].
  rewrite Z.max_l in Havg by lia. set (n := Z.min W e) in *.
  unfold weightedAverage in Havg.
  destruct (weighted_sum_nonneg (costOfDay perDay) (wmaWeight e n)
              (wmaWindow e n)) as [Hnum _].
  { apply Forall_forall. intros j Hj.
    apply elem_of_seqZ in Hj. unfold wmaWeight. split; [lia|].
    apply Hc. lia. }
  assert (0 < sumQ (map (fun j => inject_Z (wmaWeight e n j)) (wmaWindow e n)))%Q
    as Hpos.
  { unfold wmaWindow. rewrite (seqZ_cons (e - n + 1) n) by lia.
    cbn [map sumQ].
    destruct (weighted_sum_nonneg (fun _ => 0%Q) (wmaWeight e n)
                (seqZ (Z.succ (e - n + 1)) (Z.pred n))) as [_ Hrest].
    { apply Forall_forall. intros j Hj.
      apply elem_of_seqZ in Hj. unfold wmaWeight. split; [lia|lra]. }
    assert (0 < inject_Z (wmaWeight e n (e - n + 1)))%Q
      by (unfold wmaWeight, Qlt; cbn; lia).
    lra. }
  change (jle zero (Fin q)) with (Qle_bool 0 q). apply Qle_bool_iff.
  rewrite Havg. apply Qle_shift_div_l; [assumption|]. lra.
Qed.

Lemma computeWmaDaily_nonneg_witness :
  exists v, computeWmaDaily_ steadyRows 10 7 = Ok v /\ jle zero v = true.
Proof.
  assert (finite_row_costs steadyRows = true) as H1
    by (vm_compute; reflexivity).
  assert (10 <= Z.of_nat (length steadyRows)) as H2
    by (vm_compute; discriminate).
  assert (1 <= 7) as H3 by lia.
  assert (1 <= 10) as H4 by lia.
  apply (computeWmaDaily_nonneg steadyRows 10 7 H1 H2 H3 H4).
  intros j Hj. change (Z.min 7 10) with 7 in Hj.
  assert (j = 4 \/ j = 5 \/ j = 6 \/ j = 7 \/ j = 8 \/ j = 9 \/ j = 10) as Hcase
    by lia.
  destruct Hcase as [->|[->|[->|[->|[->|[->| ->]]]]]];
    vm_compute; discriminate.
Defined.

(** ** Further properties of the trend label *)

(** X10. A trend label other than "On Target" always shows a percentage
    of at least 5: it is "Under N%" or "Over N%" with N >= 5. *)
Theorem trendLabel_shows_at_least_5 (p : Q) :
  trendLabel_ (Fin p) <> "On Target"%string ->
  exists N, 5 <= N /\
    (trendLabel_ (Fin p) = ("Under " ++ string_of_Z N ++ "%")%string /\ (p < 0)%Q
     \/
     trendLabel_ (Fin p) = ("Over " ++ string_of_Z N ++ "%")%string /\ (0 < p)%Q).
Proof.
  rewrite trendLabel_fin.
  destruct (Qle_bool (Qabs p) (5 # 100)) eqn:B; [congruence|]. intros _.
  assert (5 # 100 < Qabs p)%Q as Habs.
  { apply Qnot_le_lt. intros H. apply Qle_bool_iff in H. congruence. }
  exists (Qfloor (Qabs p * 100 + (1 # 2))). split.
  - assert (inject_Z 5 <= Qabs p * 100 + (1 # 2))%Q as H5.
    { change (inject_Z 5) with 5%Q. lra. }
    apply Qfloor_resp_le in H5. now rewrite Qfloor_Z in H5.
  - destruct (Qlt_bool p 0) eqn:N.
    + left. split; [reflexivity|]. now apply Qlt_bool_iff.
    + right. split; [reflexivity|].
      apply Qnot_le_lt. intros Hle.
      assert (~ (p < 0)%Q) as Hnn.
      { intros H. apply Qlt_bool_iff in H. congruence. }
      assert (p == 0)%Q as Hz by lra.
      assert (Qabs p == 0)%Q as Ha by (rewrite Hz; reflexivity).
      lra.
Qed.

Lemma trendLabel_shows_at_least_5_witness :
  exists N, 5 <= N /\
    (trendLabel_ (Fin (-1 # 3)) = ("Under " ++ string_of_Z N ++ "%")%string
     /\ (-1 # 3 < 0)%Q
     \/
     trendLabel_ (Fin (-1 # 3)) = ("Over " ++ string_of_Z N ++ "%")%string
     /\ (0 < -1 # 3)%Q).
Proof.
  apply (trendLabel_shows_at_least_5 (-1 # 3)).
  vm_compute. discriminate.
Defined.

(** ** Reading the Config sheet *)

Section ReadConfig.

Variable NumberToString : num -> string.
Variable StringToNumber : string -> num.

Local Abbreviation entryOf := (entryOf NumberToString StringToNumber).
Local Abbreviation readConfigStep :=
  (readConfigStep NumberToString StringToNumber).
Local Abbreviation readConfig_ := (readConfig_ NumberToString StringToNumber).
Local Abbreviation readInvariant :=
  (readInvariant NumberToString StringToNumber).

Lemma allDigits_nonempty s : allDigits s = true -> String.eqb s "" = false.
Proof. now destruct s. Qed.

Lemma firstPerId_ids L : forall done,
  done ∪ idsOf (firstPerId done L) = done ∪ idsOf L.
Proof.
  unfold idsOf. induction L as [|e L IH]; intros done; [reflexivity|].
  cbn [firstPerId map list_to_set]. case_bool_decide as Hin.
  - rewrite IH. set_solver.
  - cbn [map list_to_set].
    specialize (IH ({[accountId e]} ∪ done)). set_solver.
Qed.

Lemma firstPerId_snoc L e : forall done,
  firstPerId done (L ++ [e])
  = firstPerId done L
    ++ (if bool_decide (accountId e ∈ done ∪ idsOf L) then [] else [e]).
Proof.
  unfold idsOf. induction L as [|x L IH]; intros done.
  - cbn. case_bool_decide; case_bool_decide; try reflexivity; set_solver.
  - cbn [app firstPerId map list_to_set]. case_bool_decide as Hx.
    + rewrite IH. f_equal.
      erewrite bool_decide_ext; [reflexivity|].
      rewrite !elem_of_union, elem_of_singleton. split; [tauto|].
      intros [?|[Heq|?]]; [tauto | rewrite Heq; tauto | tauto].
    + cbn [app]. rewrite IH. do 2 f_equal.
      erewrite bool_decide_ext; [reflexivity|].
      rewrite !elem_of_union, elem_of_singleton. tauto.
Qed.

Lemma firstPerId_NoDup L : forall done,
  NoDup (map accountId (firstPerId done L)) /\
  Forall (fun e => accountId e ∉ done) (firstPerId done L).
Proof.
  induction L as [|e L IH]; intros done; [split; constructor|].
  cbn [firstPerId]. case_bool_decide as Hin; [apply IH|].
  destruct (IH ({[accountId e]} ∪ done)) as [Hnd Hout].
  split.
  - cbn [map]. constructor; [|assumption].
    intros Hel. apply list_elem_of_fmap in Hel as (x & Hx & Hxin).
    rewrite Forall_forall in Hout. specialize (Hout x Hxin). set_solver.
  - constructor; [assumption|].
    eapply Forall_impl; [exact Hout|]. cbn. intros x Hx. set_solver.
Qed.

Lemma firstPerId_sublist L : forall done, sublist (firstPerId done L) L.
Proof.
  induction L as [|e L IH]; intros done; [constructor|].
  cbn [firstPerId]. case_bool_decide; [apply sublist_cons | apply sublist_skip];
    apply IH.
Qed.

Lemma list_to_map_snoc (l : list ConfigEntry) e :
  accountId e ∉ idsOf l ->
  (list_to_map (map (fun e => (accountId e, e)) (l ++ [e]))
     : gmap string ConfigEntry)
  = <[accountId e := e]> (list_to_map (map (fun e => (accountId e, e)) l)).
Proof.
  unfold idsOf. induction l as [|x l IH]; intros Hnot; [reflexivity|].
  cbn [app map list_to_map foldr]. cbn [map list_to_set] in Hnot.
  rewrite IH by set_solver.
  apply insert_insert_ne. set_solver.
Qed.

Lemma readConfigStep_invariant st l row :
  readInvariant st l ->
  readInvariant (readConfigStep st row) (l ++ [row]).
Proof.
  intros (Hrows & Hseen & Hindex). unfold readInvariant.
  rewrite omap_app. remember (omap entryOf l) as E eqn:HE. clear HE.
  cbn [omap list_omap].
  unfold readConfigStep, entryOf. cbv zeta.
  set (rawId := trim (cellText NumberToString (cellId row))).
  set (acctId := removeDashes rawId).
  destruct (allDigits acctId) eqn:Hdig.
  - rewrite (allDigits_nonempty _ Hdig). cbn [orb negb andb].
    case_bool_decide as Hseen'.
    + cbn [rows seen index].
      destruct (includeOf (cellIncluded row)
                && negb (jle (cellNumber StringToNumber (cellBudget row)) zero)).
      * rewrite firstPerId_snoc. cbn [accountId].
        rewrite bool_decide_true, app_nil_r; [auto|].
        rewrite <- firstPerId_ids, <- Hrows, <- Hseen. set_solver.
      * rewrite app_nil_r. auto.
    + destruct (includeOf (cellIncluded row)) eqn:Hinc; cbn [negb orb andb].
      * destruct (jle (cellNumber StringToNumber (cellBudget row)) zero)
          eqn:Hb; cbn [negb].
        -- rewrite app_nil_r. auto.
        -- cbn [rows seen index].
           rewrite firstPerId_snoc. cbn [accountId].
           assert (acctId ∉ (∅ : gset string) ∪ idsOf E) as Hnot.
           { rewrite <- firstPerId_ids, <- Hrows, <- Hseen. set_solver. }
           rewrite bool_decide_false by exact Hnot.
           rewrite <- Hrows. split; [reflexivity|]. split.
           ++ unfold idsOf. rewrite map_app, list_to_set_app_L. cbn.
              rewrite Hseen. unfold idsOf. set_solver.
           ++ rewrite list_to_map_snoc; [now rewrite Hindex|].
              cbn [accountId]. now rewrite <- Hseen.
      * rewrite app_nil_r. auto.
  - cbn [andb]. rewrite app_nil_r.
    replace (String.eqb acctId "" || negb false) with true
      by (now rewrite orb_true_r).
    destruct (String.eqb rawId ""); cbn [rows seen index]; auto.
Qed.

Lemma readConfig_invariant data : readInvariant (readConfig_ data) data.
Proof.
  unfold readConfig_.
  induction data as [|row data IH] using rev_ind.
  - repeat split.
  - rewrite foldl_app. cbn [foldl]. now apply readConfigStep_invariant.
Qed.

Lemma entryOf_wellformed row e :
  entryOf row = Some e ->
  allDigits (accountId e) = true /\ jle (monthlyBudget e) zero = false.
Proof.
  unfold entryOf. cbv zeta.
  destruct (allDigits _) eqn:Hd; [|discriminate].
  destruct (includeOf _); [|discriminate].
  destruct (jle _ zero) eqn:Hb; [discriminate|].
  cbn. intros [= <-]. cbn. auto.
Qed.

Lemma Forall_omap {A B} (f : A -> option B) (P : B -> Prop) (l : list A) :
  (forall x y, f x = Some y -> P y) -> Forall P (omap f l).
Proof.
  intros HP. induction l as [|a l IH]; [constructor|].
  cbn [omap list_omap]. destruct (f a) eqn:Hfa; [|exact IH].
  constructor; [eapply HP; eassumption | exact IH].
Qed.

Lemma Forall_omap_pre {A B} (f : A -> option B) (P : B -> Prop) (l : list A) :
  Forall (fun x => forall y, f x = Some y -> P y) l -> Forall P (omap f l).
Proof.
  induction 1 as [|a l Ha _ IH]; [constructor|].
  cbn [omap list_omap]. destruct (f a) eqn:Hfa; [|exact IH].
  constructor; [now apply Ha | exact IH].
Qed.

Lemma Forall_of_sublist {A} (P : A -> Prop) (l1 l2 : list A) :
  sublist l1 l2 -> Forall P l2 -> Forall P l1.
Proof.
  induction 1 as [|x l1 l2 _ IH|x l1 l2 _ IH]; intros Hall; [constructor| |].
  - apply Forall_cons in Hall as [Hx Hall]. constructor; auto.
  - apply Forall_cons in Hall as [_ Hall]. auto.
Qed.

Lemma omap_split {A B} (f : A -> option B) (l : list A) : forall L1 y L2,
  omap f l = L1 ++ y :: L2 ->
  exists l1 x l2,
    l = l1 ++ x :: l2 /\ omap f l1 = L1 /\ f x = Some y /\ omap f l2 = L2.
Proof.
  induction l as [|a l IH]; intros L1 y L2 Heq.
  - destruct L1; discriminate.
  - cbn [omap list_omap] in Heq. destruct (f a) as [b|] eqn:Hfa.
    + destruct L1 as [|b' L1].
      * injection Heq as -> HL. exists [], a, l. auto.
      * injection Heq as -> HL.
        destruct (IH _ _ _ HL) as (l1 & x & l2 & -> & H1 & Hx & H2).
        exists (a :: l1), x, l2. cbn [omap list_omap]. rewrite Hfa.
        cbn [omap list_omap] in H1. rewrite H1. auto.
    + destruct (IH _ _ _ Heq) as (l1 & x & l2 & -> & H1 & Hx & H2).
      exists (a :: l1), x, l2. cbn [omap list_omap]. rewrite Hfa. auto.
Qed.

Lemma firstPerId_elem L e : forall done,
  e ∈ firstPerId done L <->
  exists L1 L2,
    L = L1 ++ e :: L2 /\ accountId e ∉ done /\
    Forall (fun x => accountId x <> accountId e) L1.
Proof.
  induction L as [|x L IH]; intros done.
  - cbn [firstPerId]. split.
    + intros Hel. now apply elem_of_nil in Hel.
    + intros (L1 & L2 & Heq & _). destruct L1; discriminate.
  - cbn [firstPerId]. case_bool_decide as Hx.
    + rewrite IH. split.
      * intros (L1 & L2 & -> & Hout & Hall). exists (x :: L1), L2.
        split; [reflexivity|]. split; [assumption|].
        constructor; [|assumption]. intros Heq. apply Hout. now rewrite <- Heq.
      * intros (L1 & L2 & Heq & Hout & Hall). destruct L1 as [|x' L1].
        -- injection Heq as -> _. contradiction.
        -- injection Heq as -> ->. exists L1, L2.
           split; [reflexivity|]. split; [assumption|].
           now apply Forall_inv_tail in Hall.
    + rewrite elem_of_cons, IH. split.
      * intros [->|(L1 & L2 & -> & Hout & Hall)].
        -- exists [], L. split; [reflexivity|]. split; [assumption|constructor].
        -- exists (x :: L1), L2. split; [reflexivity|].
           rewrite not_elem_of_union, not_elem_of_singleton in Hout.
           destruct Hout as [Hne Hout]. split; [assumption|].
           constructor; [congruence | assumption].
      * intros (L1 & L2 & Heq & Hout & Hall). destruct L1 as [|x' L1].
        -- injection Heq as -> _. now left.
        -- injection Heq as -> ->. right. exists L1, L2.
           split; [reflexivity|].
           apply Forall_cons in Hall as [Hne Hall].
           rewrite not_elem_of_union, not_elem_of_singleton.
           split; [|assumption]. split; [congruence | assumption].
Qed.

Lemma readConfig_rows data :
  rows (readConfig_ data) = firstPerId ∅ (omap entryOf data).
Proof. apply (readConfig_invariant data). Qed.

Lemma readConfig_seen data :
  seen (readConfig_ data) = idsOf (rows (readConfig_ data)).
Proof. apply (readConfig_invariant data). Qed.

Lemma isDigit_not_space c : isDigit c = true -> isWhiteSpace c = false.
Proof.
  destruct c as [[] [] [] [] [] [] [] []]; vm_compute; congruence.
Qed.

Lemma isDigit_not_dash c : isDigit c = true -> Ascii.eqb c "-" = false.
Proof.
  destruct c as [[] [] [] [] [] [] [] []]; vm_compute; congruence.
Qed.

Lemma allDigits_chars s :
  allDigits s = true -> Forall (fun c => isDigit c = true) (chars s).
Proof.
  unfold allDigits. destruct (chars s) as [|c l]; [discriminate|].
  generalize (c :: l). clear. intros l Hl.
  induction l as [|c l IH]; [constructor|].
  cbn [forallb] in Hl. apply andb_prop in Hl as [Hc Hl]. constructor; auto.
Qed.

Lemma dropWhile_head {A} (f : A -> bool) l :
  Forall (fun c => f c = false) l -> dropWhile f l = l.
Proof. intros [|c l' Hc _]; [reflexivity|]. cbn. now rewrite Hc. Qed.

Lemma trim_allDigits s : allDigits s = true -> trim s = s.
Proof.
  intros Hs. apply allDigits_chars in Hs.
  assert (Forall (fun c => isWhiteSpace c = false) (chars s)) as Hw
    by (eapply Forall_impl; [exact Hs | apply isDigit_not_space]).
  unfold trim. rewrite (dropWhile_head _ _ Hw).
  rewrite dropWhile_head by (now apply Forall_rev).
  rewrite rev_involutive. apply string_of_list_ascii_of_string.
Qed.

Lemma removeDashes_allDigits s : allDigits s = true -> removeDashes s = s.
Proof.
  intros Hs. apply allDigits_chars in Hs. unfold removeDashes.
  replace (List.filter _ (chars s)) with (chars s);
    [apply string_of_list_ascii_of_string|].
  induction Hs as [|c l Hc _ IH]; [reflexivity|].
  cbn [List.filter]. rewrite (isDigit_not_dash _ Hc). cbn [negb]. now f_equal.
Qed.

Lemma readConfig_snoc data row :
  readConfig_ (data ++ [row]) = readConfigStep (readConfig_ data) row.
Proof. unfold readConfig_. now rewrite foldl_app. Qed.

End ReadConfig.

(** X12 (readConfig_): whatever the Config sheet holds, the rows returned
    have pairwise distinct account ids, and each of them has an id made of
    decimal digits only (at least one) and a budget for which
    [monthlyBudget <= 0] is false. *)
Theorem readConfig_rows_wellformed (NumberToString : num -> string)
    (StringToNumber : string -> num) (data : list ConfigRow) :
  let out := readConfig_ NumberToString StringToNumber data in
  NoDup (map accountId (rows out)) /\
  Forall (fun e => allDigits (accountId e) = true /\
                   jle (monthlyBudget e) zero = false) (rows out).
Proof.
  intros out. subst out. rewrite readConfig_rows. split.
  - apply firstPerId_NoDup.
  - eapply Forall_of_sublist; [apply firstPerId_sublist|].
    apply Forall_omap. intros row e. apply entryOf_wellformed.
Qed.

(** X13 (readConfig_, and the lookup [cfg.index[acctId]] of main): the index
    returned maps the id of every returned row to that very row, and has no
    other key. *)
Theorem readConfig_index_agrees (NumberToString : num -> string)
    (StringToNumber : string -> num) (data : list ConfigRow) :
  let out := readConfig_ NumberToString StringToNumber data in
  Forall (fun e => index out !! accountId e = Some e) (rows out) /\
  forall id, index out !! id = None <-> id ∉ map accountId (rows out).
Proof.
  intros out.
  destruct (readConfig_invariant NumberToString StringToNumber data)
    as (Hrows & _ & Hindex).
  fold out in Hrows, Hindex.
  assert (NoDup (map accountId (rows out))) as Hnd
    by (rewrite Hrows; apply firstPerId_NoDup).
  assert ((map (fun e => (accountId e, e)) (rows out)).*1
          = map accountId (rows out)) as Hfst.
  { generalize (rows out). intros l.
    induction l as [|e l IH]; [reflexivity|]. cbn. now f_equal. }
  rewrite Hindex. split.
  - apply Forall_forall. intros e He.
    apply elem_of_list_to_map_1; [now rewrite Hfst|].
    apply list_elem_of_fmap. now exists e.
  - intros id. now rewrite <- not_elem_of_list_to_map, Hfst.
Qed.

(** X14 (readConfig_): the rows returned follow the order of the sheet, and
    an entry is returned exactly when some sheet row yields it -- a
    digits-only id, not excluded, a budget that is not <= 0 -- and no earlier
    row that yields an entry has the same id.  So the first acceptable row
    of an id wins, and a row that is excluded or has no budget does not
    stand in the way of a later row with the same id. *)
Theorem readConfig_keeps_first_acceptable (NumberToString : num -> string)
    (StringToNumber : string -> num) (data : list ConfigRow) :
  let entryOf := entryOf NumberToString StringToNumber in
  let out := readConfig_ NumberToString StringToNumber data in
  sublist (rows out) (omap entryOf data) /\
  forall e,
    e ∈ rows out <->
    exists before row after,
      data = before ++ row :: after /\
      entryOf row = Some e /\
      Forall (fun r => forall e', entryOf r = Some e' ->
                                  accountId e' <> accountId e) before.
Proof.
  intros entryOf' out. subst entryOf' out. rewrite readConfig_rows. split.
  - apply firstPerId_sublist.
  - intros e. rewrite firstPerId_elem. split.
    + intros (L1 & L2 & Heq & _ & Hall).
      destruct (omap_split _ _ _ _ _ Heq) as (l1 & x & l2 & -> & H1 & Hx & _).
      exists l1, x, l2. split; [reflexivity|]. split; [assumption|].
      subst L1. clear -Hall. induction l1 as [|r l1 IH]; [constructor|].
      cbn [omap list_omap] in Hall.
      destruct (entryOf NumberToString StringToNumber r) as [e0|] eqn:Hr.
      * apply Forall_cons in Hall as [Hne Hall].
        constructor; [|auto].
        intros e' He'. rewrite Hr in He'. now injection He' as <-.
      * constructor; [|auto]. intros e' He'. rewrite Hr in He'. discriminate.
    + intros (l1 & x & l2 & -> & Hx & Hall).
      exists (omap (entryOf NumberToString StringToNumber) l1),
             (omap (entryOf NumberToString StringToNumber) l2).
      split; [|split].
      * rewrite omap_app. cbn [omap list_omap]. now rewrite Hx.
      * apply not_elem_of_empty.
      * apply Forall_omap_pre. exact Hall.
Qed.

(** X15 (readConfig_): a budget cell holding text that [Number] does not
    read as a number passes the test [monthlyBudget <= 0]: a row with a
    digits-only id not met before, not excluded, and such a budget is
    returned, with NaN as its budget and its name trimmed. *)
Theorem readConfig_keeps_unparsable_budget (NumberToString : num -> string)
    (StringToNumber : string -> num) (data : list ConfigRow)
    (id name budget : string) (inc : Cell) :
  allDigits id = true ->
  id ∉ map accountId (rows (readConfig_ NumberToString StringToNumber data)) ->
  budget <> ""%string ->
  StringToNumber budget = NaN ->
  includeOf inc = true ->
  rows (readConfig_ NumberToString StringToNumber
          (data ++ [mkConfigRow (CStr id) (CStr name) (CStr budget) inc]))
  = rows (readConfig_ NumberToString StringToNumber data)
    ++ [mkEntry id (trim name) NaN].
Proof.
  intros Hid Hnew Hbudget Hnan Hinc.
  rewrite readConfig_snoc. unfold readConfigStep. cbv zeta.
  cbn [cellId cellName cellBudget cellIncluded].
  assert (cellText NumberToString (CStr id) = id) as ->.
  { unfold cellText, cellTruthy. now rewrite (allDigits_nonempty _ Hid). }
  assert (cellText NumberToString (CStr name) = name) as ->.
  { unfold cellText, cellTruthy.
    destruct (String.eqb_spec name ""); [now subst | reflexivity]. }
  assert (cellNumber StringToNumber (CStr budget) = NaN) as ->.
  { unfold cellNumber, cellTruthy.
    destruct (String.eqb_spec budget ""); [contradiction | exact Hnan]. }
  rewrite (trim_allDigits _ Hid), (removeDashes_allDigits _ Hid).
  rewrite (allDigits_nonempty _ Hid), Hid, Hinc. cbn [orb negb].
  rewrite bool_decide_false.
  - reflexivity.
  - rewrite readConfig_seen. unfold idsOf. now rewrite elem_of_list_to_set.
Qed.

Lemma readConfig_keeps_unparsable_budget_witness :
  rows (readConfig_ (fun _ => "0"%string) (fun _ => NaN)
          ([] ++ [mkConfigRow (CStr "5529798336") (CStr " Acme ")
                              (CStr "n/a") (CBool true)]))
  = [] ++ [mkEntry "5529798336" "Acme" NaN].
Proof.
  apply (readConfig_keeps_unparsable_budget (fun _ => "0"%string)
           (fun _ => NaN) [] "5529798336" " Acme " "n/a" (CBool true)).
  - reflexivity.
  - apply not_elem_of_nil.
  - discriminate.
  - reflexivity.
  - reflexivity.
Defined.

(** ** Account tab names *)

Section TabNames.

Lemma chars_text l : chars (text l) = l.
Proof. apply list_ascii_of_string_of_list_ascii. Qed.

Lemma text_chars s : text (chars s) = s.
Proof. apply string_of_list_ascii_of_string. Qed.

Lemma chars_app s1 s2 : chars (s1 ++ s2) = chars s1 ++ chars s2.
Proof.
  unfold chars. induction s1 as [|c s1 IH]; [reflexivity|].
  change (c :: list_ascii_of_string (s1 ++ s2)
          = c :: (list_ascii_of_string s1 ++ list_ascii_of_string s2)).
  now f_equal.
Qed.

Lemma length_chars s : String.length s = length (chars s).
Proof.
  unfold chars. induction s as [|c s IH]; [reflexivity|].
  change (S (String.length s) = S (length (list_ascii_of_string s))).
  now f_equal.
Qed.

Lemma chars_substring n s : chars (substring 0 n s) = take n (chars s).
Proof.
  unfold chars. revert n.
  induction s as [|c s IH]; intros [|n]; try reflexivity.
  change (c :: list_ascii_of_string (substring 0 n s)
          = c :: take n (list_ascii_of_string s)).
  now f_equal.
Qed.

Lemma reverse_eq_rev {A} (l : list A) : reverse l = rev l.
Proof. unfold reverse. now rewrite <- rev_alt. Qed.

Lemma dropWhile_sublist {A} (f : A -> bool) l : sublist (dropWhile f l) l.
Proof.
  induction l as [|x l IH]; [constructor|].
  cbn [dropWhile]. destruct (f x); [now apply sublist_cons | reflexivity].
Qed.

Lemma sublist_rev {A} (l1 l2 : list A) :
  sublist l1 l2 -> sublist (rev l1) (rev l2).
Proof.
  induction 1 as [|x l1 l2 _ IH|x l1 l2 _ IH]; cbn [rev].
  - constructor.
  - now apply sublist_app.
  - now apply sublist_inserts_r.
Qed.

Lemma chars_trim_sublist s : sublist (chars (trim s)) (chars s).
Proof.
  unfold trim. rewrite chars_text.
  etransitivity; [|apply dropWhile_sublist].
  rewrite <- (rev_involutive (dropWhile isWhiteSpace (chars s))) at 2.
  apply sublist_rev, dropWhile_sublist.
Qed.

Lemma isDigit_not_forbidden c : isDigit c = true -> isTabForbidden c = false.
Proof.
  destruct c as [[] [] [] [] [] [] [] []]; vm_compute; congruence.
Qed.

(** The name part of a tab name: [clean] of [makeAccountTabName_]. *)
Lemma makeAccountTabName_parts name acctId :
  exists clean,
    makeAccountTabName_ name acctId = (clean ++ " - " ++ acctId)%string /\
    Forall (fun c => isTabForbidden c = false) (chars clean) /\
    (length (chars clean) <= 80)%nat.
Proof.
  unfold makeAccountTabName_. cbv zeta.
  set (clean0 := text (map _ (chars (default ""%string name)))).
  assert (Forall (fun c => isTabForbidden c = false) (chars clean0)) as H0.
  { subst clean0. rewrite chars_text. apply Forall_forall.
    intros c Hc. apply list_elem_of_fmap in Hc as (c0 & -> & _).
    destruct (isTabForbidden c0) eqn:E; [reflexivity | exact E]. }
  destruct (Nat.ltb_spec 80 (String.length clean0)) as [Hlong|Hshort].
  - eexists. split; [reflexivity|].
    pose proof (chars_trim_sublist (substring 0 80 clean0)) as Hsub.
    rewrite chars_substring in Hsub. split.
    + eapply Forall_of_sublist; [exact Hsub|]. now apply Forall_take.
    + apply sublist_length in Hsub. rewrite length_take in Hsub. lia.
  - eexists. split; [reflexivity|]. split; [exact H0|].
    now rewrite <- length_chars.
Qed.

(** Two lists that agree up to the first occurrence of [x]. *)
Lemma app_first_occurrence {A} (x : A) (a a' b b' : list A) :
  x ∉ a -> x ∉ a' -> a ++ x :: b = a' ++ x :: b' -> a = a'.
Proof.
  revert a'. induction a as [|c a IH]; intros [|c' a'] Ha Ha' Heq.
  - reflexivity.
  - injection Heq as -> _. exfalso. apply Ha'. now left.
  - injection Heq as -> _. exfalso. apply Ha. now left.
  - injection Heq as -> Heq. f_equal.
    apply IH; [| |exact Heq].
    + intros Hin. apply Ha. now right.
    + intros Hin. apply Ha'. now right.
Qed.

Lemma digits_no_space s : allDigits s = true -> " "%char ∉ rev (chars s).
Proof.
  intros Hs Hin. apply allDigits_chars in Hs.
  rewrite <- reverse_eq_rev, elem_of_reverse in Hin.
  rewrite Forall_forall in Hs. specialize (Hs _ Hin). discriminate.
Qed.

End TabNames.

(** X16 (makeAccountTabName_): for an account id made of digits, as main
    passes it, the tab name holds none of the characters [ ] : ? * / and
    backslash, whatever the account's name is, and it is at most 83
    characters longer than the id. *)
Theorem makeAccountTabName_clean (name : option string) (acctId : string) :
  allDigits acctId = true ->
  let tab := makeAccountTabName_ name acctId in
  Forall (fun c => isTabForbidden c = false) (chars tab) /\
  (String.length tab <= 83 + String.length acctId)%nat.
Proof.
  intros Hid tab. subst tab.
  destruct (makeAccountTabName_parts name acctId) as (clean & -> & Hc & Hlen).
  split.
  - rewrite !chars_app. apply Forall_app. split; [exact Hc|].
    apply Forall_app. split.
    + repeat constructor.
    + eapply Forall_impl; [apply allDigits_chars, Hid|].
      apply isDigit_not_forbidden.
  - rewrite !length_chars, !chars_app, !length_app.
    change (length (chars " - ")) with 3%nat. lia.
Qed.

Lemma makeAccountTabName_clean_witness :
  Forall (fun c => isTabForbidden c = false)
         (chars (makeAccountTabName_ (Some "A/B [test]: what?") "5529798336")) /\
  (String.length (makeAccountTabName_ (Some "A/B [test]: what?") "5529798336")
   <= 83 + String.length "5529798336")%nat.
Proof.
  apply (makeAccountTabName_clean (Some "A/B [test]: what?") "5529798336").
  reflexivity.
Defined.

(** X17 (makeAccountTabName_): accounts with different ids (made of digits)
    never get the same tab name, whatever their names are -- not even when
    both names are cut at 80 characters. *)
Theorem makeAccountTabName_distinct (name1 name2 : option string)
    (id1 id2 : string) :
  allDigits id1 = true -> allDigits id2 = true ->
  makeAccountTabName_ name1 id1 = makeAccountTabName_ name2 id2 ->
  id1 = id2.
Proof.
  intros H1 H2 Heq.
  destruct (makeAccountTabName_parts name1 id1) as (c1 & E1 & _).
  destruct (makeAccountTabName_parts name2 id2) as (c2 & E2 & _).
  rewrite E1, E2 in Heq. apply (f_equal chars) in Heq.
  rewrite !chars_app in Heq. apply (f_equal (@rev ascii)) in Heq.
  rewrite !rev_app_distr in Heq.
  change (rev (chars " - ")) with [" "; "-"; " "]%char in Heq.
  rewrite <- !app_assoc in Heq. cbn [app] in Heq.
  apply app_first_occurrence in Heq;
    [|now apply digits_no_space|now apply digits_no_space].
  apply (f_equal (@rev ascii)) in Heq. rewrite !rev_involutive in Heq.
  apply (f_equal text) in Heq. now rewrite !text_chars in Heq.
Qed.

Lemma makeAccountTabName_distinct_witness :
  makeAccountTabName_ (Some "A/B") "5529798336"
  = makeAccountTabName_ (Some "A:B") "5529798336" /\
  "5529798336"%string = "5529798336"%string.
Proof.
  split; [reflexivity|].
  apply (makeAccountTabName_distinct (Some "A/B") (Some "A:B")
           "5529798336" "5529798336"); reflexivity.
Defined.

(** ** Chart ticks *)

Section Ticks.

Variable LocalTZA : Z.

Lemma getFullYear_Date_ymd yr mo d :
  getFullYear LocalTZA (Date_ymd LocalTZA yr mo d)
  = YearFromDay (MakeDay (fullYear yr) mo d).
Proof.
  pose proof (Day_Date_ymd_shift LocalTZA yr mo d 0) as H.
  rewrite Z.mul_0_l, !Z.add_0_r in H.
  unfold getFullYear. destruct (Date_ymd LocalTZA yr mo d) as [t].
  unfold Date_ms in H. cbn [getTime] in H. now rewrite H.
Qed.

Lemma fullYear_idem yr : 1 <= yr -> fullYear (fullYear yr) = fullYear yr.
Proof.
  intros Hy. unfold fullYear.
  destruct (Z.leb_spec 0 yr), (Z.leb_spec yr 99); cbn [andb]; try lia;
    try reflexivity.
  - destruct (Z.leb_spec 0 (1900 + yr)), (Z.leb_spec (1900 + yr) 99);
      cbn [andb]; lia.
  - destruct (Z.leb_spec 0 yr), (Z.leb_spec yr 99); cbn [andb]; lia.
Qed.

Lemma Date_ymd_fullYear yr mo d :
  1 <= yr -> Date_ymd LocalTZA (fullYear yr) mo d = Date_ymd LocalTZA yr mo d.
Proof.
  intros Hy.
  change (mkDate (MakeDay (fullYear (fullYear yr)) mo d * msPerDay - LocalTZA)
          = mkDate (MakeDay (fullYear yr) mo d * msPerDay - LocalTZA)).
  now rewrite fullYear_idem.
Qed.

Lemma weeklyTicksFrom_days yr mo lastDay fuel : forall d,
  weeklyTicksFrom LocalTZA yr mo lastDay fuel d
  = map (Date_ymd LocalTZA yr mo) (weeklyDaysFrom lastDay fuel d).
Proof.
  induction fuel as [|fuel IH]; intros d; [reflexivity|].
  cbn [weeklyTicksFrom weeklyDaysFrom].
  destruct (d <=? lastDay); [|reflexivity]. cbn [map]. now rewrite IH.
Qed.

(** The ticks depend on the dates of the first and of the last row only. *)
Lemma buildWeeklyTicks_ends perDay first_date last_date :
  date <$> perDay !! 0%nat = Some first_date ->
  date <$> last perDay = Some last_date ->
  buildWeeklyTicksFromPerDay_ LocalTZA perDay
  = let yr := getFullYear LocalTZA first_date in
    let mo := getMonth LocalTZA first_date in
    let lastDay := getDate LocalTZA last_date in
    let ticks := weeklyTicksFrom LocalTZA yr mo lastDay (Z.to_nat lastDay) 1 in
    match last ticks with
    | None => Throw TypeError
    | Some t =>
        Ok (if getDate LocalTZA t =? lastDay then ticks
            else ticks ++ [Date_ymd LocalTZA yr mo lastDay])
    end.
Proof.
  intros H0 Hl. unfold buildWeeklyTicksFromPerDay_.
  destruct perDay as [|r0 rest]; [discriminate|].
  destruct (last (r0 :: rest)) as [rl|]; [|discriminate].
  cbn in H0, Hl. injection H0 as <-. injection Hl as <-. reflexivity.
Qed.

Lemma perDayLoop_len byDay monthlyBudget mCtx n : forall d cum,
  length (perDayLoop LocalTZA byDay monthlyBudget mCtx n d cum) = n.
Proof.
  induction n as [|n IH]; intros d cum; cbn [perDayLoop length];
    [reflexivity|].
  cbv zeta. now rewrite IH.
Qed.

(** The dates of the series handed to the chart: row [i] is dated day
    [i + 1] of the context's month. *)
Lemma series_date daily budget mCtx spendMtd wmaDaily (i : nat) :
  (i < Z.to_nat (daysInMonth mCtx))%nat ->
  date <$> applyWmaForecast_ (buildPerDayRows_ LocalTZA daily budget mCtx)
             mCtx spendMtd wmaDaily !! i
  = Some (Date_ymd LocalTZA (y mCtx) (m0 mCtx) (1 + Z.of_nat i)).
Proof.
  intros Hi. unfold applyWmaForecast_, buildPerDayRows_.
  destruct (perDayLoop_row LocalTZA (groupByDay LocalTZA daily) budget mCtx
              _ 1 zero i Hi) as (cum & Hrow).
  now rewrite (forecastLoop_lookup _ _ _ _ _ _ _ Hrow).
Qed.

Lemma weeklyTicks_of_series daily budget mCtx spendMtd wmaDaily :
  1 <= y mCtx -> 0 <= m0 mCtx <= 11 ->
  28 <= daysInMonth mCtx <= month_length (y mCtx) (m0 mCtx + 1) ->
  buildWeeklyTicksFromPerDay_ LocalTZA
    (applyWmaForecast_ (buildPerDayRows_ LocalTZA daily budget mCtx)
       mCtx spendMtd wmaDaily)
  = Ok (map (Date_ymd LocalTZA (y mCtx) (m0 mCtx))
          ([1; 8; 15; 22]
           ++ (if daysInMonth mCtx =? 28 then [28]
               else if daysInMonth mCtx =? 29 then [29]
               else [29; daysInMonth mCtx]))).
Proof.
  intros Hy Hm HD.
  pose proof (month_length_bounds (y mCtx) (m0 mCtx + 1)) as Hb.
  set (perDay := applyWmaForecast_ _ _ _ _).
  assert (length perDay = Z.to_nat (daysInMonth mCtx)) as Hlen.
  { subst perDay. unfold applyWmaForecast_, buildPerDayRows_.
    now rewrite forecastLoop_length, perDayLoop_len. }
  assert (date <$> perDay !! 0%nat
          = Some (Date_ymd LocalTZA (y mCtx) (m0 mCtx) 1)) as H0.
  { subst perDay. rewrite series_date by lia. reflexivity. }
  assert (date <$> last perDay
          = Some (Date_ymd LocalTZA (y mCtx) (m0 mCtx) (daysInMonth mCtx)))
    as Hl.
  { rewrite last_lookup, Hlen. subst perDay. rewrite series_date by lia.
    do 2 f_equal. lia. }
  rewrite (buildWeeklyTicks_ends _ _ _ H0 Hl). cbv zeta.
  assert (forall d, 1 <= d <= daysInMonth mCtx ->
            getDate LocalTZA (Date_ymd LocalTZA (fullYear (y mCtx)) (m0 mCtx) d)
            = d) as Hday.
  { intros d Hd. rewrite Date_ymd_fullYear, getDate_Date_ymd by assumption.
    apply civil_roundtrip; [assumption|].
    rewrite month_length_fullYear by assumption. lia. }
  destruct (civil_roundtrip (fullYear (y mCtx)) (m0 mCtx) 1) as (Hyr & Hmo & _);
    [assumption | rewrite month_length_fullYear by assumption; lia |].
  rewrite getFullYear_Date_ymd, getMonth_Date_ymd, Hyr, Hmo.
  rewrite <- (Date_ymd_fullYear (y mCtx) (m0 mCtx) (daysInMonth mCtx)) by assumption.
  rewrite (Hday (daysInMonth mCtx)) by lia.
  rewrite weeklyTicksFrom_days.
  replace (Date_ymd LocalTZA (y mCtx) (m0 mCtx))
    with (Date_ymd LocalTZA (fullYear (y mCtx)) (m0 mCtx)).
  2:{ unfold Date_ymd. fold (fullYear (fullYear (y mCtx))).
      fold (fullYear (y mCtx)). now rewrite fullYear_idem. }
  assert (daysInMonth mCtx = 28 \/ daysInMonth mCtx = 29 \/
          daysInMonth mCtx = 30 \/ daysInMonth mCtx = 31) as HD4 by lia.
  destruct HD4 as [E|[E|[E|E]]]; rewrite E in Hday |- *;
    match goal with
    | |- context [weeklyDaysFrom ?D ?f ?d] =>
        let v := eval vm_compute in (weeklyDaysFrom D f d) in
        change (weeklyDaysFrom D f d) with v
    end;
    cbn [map last app]; rewrite Hday by lia; reflexivity.
Qed.

End Ticks.

(** X18 (buildWeeklyTicksFromPerDay_, on the series main hands to
    writeAccountSheet_): for a context of a year from 1 on, a month 0..11
    and 28 or more days, but no more than that month has, the chart ticks
    are the dates of days 1, 8, 15, 22, then 29 when the series has a day
    29, then the day of the last row of the series when it is not among
    them (28, 30 or 31); no error is raised. *)
Theorem weekly_ticks_of_month (LocalTZA : Z) (daily : list DailyObservation)
    (budget spendMtd wmaDaily : num) (mCtx : MonthContext) :
  1 <= y mCtx -> 0 <= m0 mCtx <= 11 ->
  28 <= daysInMonth mCtx <= month_length (y mCtx) (m0 mCtx + 1) ->
  let D := daysInMonth mCtx in
  buildWeeklyTicksFromPerDay_ LocalTZA
    (applyWmaForecast_ (buildPerDayRows_ LocalTZA daily budget mCtx)
       mCtx spendMtd wmaDaily)
  = Ok (map (Date_ymd LocalTZA (y mCtx) (m0 mCtx))
          ([1; 8; 15; 22]
           ++ (if D =? 28 then [28] else if D =? 29 then [29] else [29; D]))).
Proof.
  intros Hy Hm HD D. subst D. now apply weeklyTicks_of_series.
Qed.

Lemma weekly_ticks_of_month_witness :
  buildWeeklyTicksFromPerDay_ 0
    (applyWmaForecast_ sampleRows sampleCtx (ofZ 40) (ofZ 10))
  = Ok (map (Date_ymd 0 2026 10) [1; 8; 15; 22; 29; 30]).
Proof.
  apply (weekly_ticks_of_month 0 sampleDaily (Fin 300) (ofZ 40) (ofZ 10)
           sampleCtx).
  - vm_compute. discriminate.
  - vm_compute. split; discriminate.
  - vm_compute. split; discriminate.
Defined.

(** ** Batches of account ids and sheet positions *)

Section Batches.

Context {A : Type}.

Lemma idChunksFrom_cover (ids : list A) (fuel : nat) : forall i : nat,
  (length ids - i <= fuel * 50)%nat ->
  concat (idChunksFrom ids fuel i) = drop i ids /\
  Forall (fun c => (1 <= length c <= 50)%nat) (idChunksFrom ids fuel i).
Proof.
  induction fuel as [|fuel IH]; intros i Hfuel.
  - cbn [idChunksFrom concat]. split; [|constructor].
    symmetry. apply drop_ge. lia.
  - cbn [idChunksFrom]. destruct (Nat.ltb_spec i (length ids)) as [Hlt|Hge].
    + destruct (IH (i + 50)%nat ltac:(lia)) as [Hcat Hall].
      cbn [concat]. rewrite Hcat. split.
      * rewrite <- drop_drop. apply take_drop.
      * constructor; [|exact Hall]. rewrite length_take, length_drop. lia.
    + cbn [concat]. split; [|constructor]. symmetry. apply drop_ge. lia.
Qed.

End Batches.

Section SheetPosition.

Lemma sheetPositionFrom_found (arr : list Z) (sheetId : Z) : forall (k : Z) (i : nat),
  NoDup arr -> arr !! i = Some sheetId ->
  sheetPositionFrom arr sheetId k = k + Z.of_nat i + 1.
Proof.
  induction arr as [|a arr IH]; intros k i Hnd Hi; [discriminate|].
  apply NoDup_cons in Hnd as [Ha Hnd]. cbn [sheetPositionFrom].
  destruct i as [|i].
  - injection Hi as ->. rewrite Z.eqb_refl. lia.
  - rewrite lookup_cons in Hi.
    destruct (Z.eqb_spec a sheetId) as [->|Hne].
    + exfalso. apply Ha. eapply list_elem_of_lookup_2. exact Hi.
    + rewrite (IH (k + 1) i Hnd Hi). lia.
Qed.

Lemma sheetPositionFrom_absent (arr : list Z) (sheetId : Z) : forall k : Z,
  sheetId ∉ arr -> sheetPositionFrom arr sheetId k = 1.
Proof.
  induction arr as [|a arr IH]; intros k Hout; [reflexivity|].
  cbn [sheetPositionFrom]. apply not_elem_of_cons in Hout as [Hne Hout].
  destruct (Z.eqb_spec a sheetId) as [->|_]; [contradiction|]. now apply IH.
Qed.

End SheetPosition.

(** X19 (main, the loop over [ids.slice(i, i + 50)]): the batches handed to
    [withIds] are, put end to end, exactly the configured ids in their
    order -- none is left out and none is asked for twice -- and every
    batch holds between 1 and 50 ids. *)
Theorem idChunks_cover {A : Type} (ids : list A) :
  concat (idChunks ids) = ids /\
  Forall (fun c => (1 <= length c <= 50)%nat) (idChunks ids).
Proof.
  unfold idChunks.
  destruct (idChunksFrom_cover ids (length ids) 0 ltac:(lia)) as [Hcat Hall].
  split; [exact Hcat | exact Hall].
Qed.

(** X20 (getSheetPosition_): among sheets with pairwise distinct ids, the
    sheet at index i (from 0) has position i + 1; a sheet that is not in
    the spreadsheet also gets position 1. *)
Theorem getSheetPosition_index (arr : list Z) (sheetId : Z) :
  NoDup arr ->
  (forall i : nat, arr !! i = Some sheetId ->
                   getSheetPosition_ arr sheetId = Z.of_nat i + 1) /\
  (sheetId ∉ arr -> getSheetPosition_ arr sheetId = 1).
Proof.
  intros Hnd. unfold getSheetPosition_. split.
  - intros i Hi. now rewrite (sheetPositionFrom_found arr sheetId 0 i Hnd Hi).
  - apply sheetPositionFrom_absent.
Qed.

Lemma getSheetPosition_index_witness :
  getSheetPosition_ [11; 7; 42] 42 = 3 /\ getSheetPosition_ [11; 7; 42] 5 = 1.
Proof.
  assert (NoDup [11; 7; 42]) as Hnd
    by (apply (bool_decide_unpack (NoDup [11; 7; 42])); reflexivity).
  destruct (getSheetPosition_index [11; 7; 42] 42 Hnd) as [Hfound _].
  destruct (getSheetPosition_index [11; 7; 42] 5 Hnd) as [_ Habsent].
  split.
  - exact (Hfound 2%nat eq_refl).
  - apply Habsent.
    apply (bool_decide_unpack (5 ∉ [11; 7; 42])). reflexivity.
Defined.

(** X21 (readConfig_): a row that is excluded (Include is FALSE) or whose
    budget is <= 0 -- a blank budget cell counts as 0 -- changes nothing in
    what is returned: rows and index are the same as if the row were not in
    the sheet, so it does not keep a later row with the same id out. *)
Theorem readConfig_ignores_unbudgeted (NumberToString : num -> string)
    (StringToNumber : string -> num) (before after : list ConfigRow)
    (row : ConfigRow) :
  includeOf (cellIncluded row) = false \/
  jle (cellNumber StringToNumber (cellBudget row)) zero = true ->
  let with_row :=
    readConfig_ NumberToString StringToNumber (before ++ row :: after) in
  let without := readConfig_ NumberToString StringToNumber (before ++ after) in
  rows with_row = rows without /\ index with_row = index without.
Proof.
  intros Hrow with_row without.
  assert (entryOf NumberToString StringToNumber row = None) as Hnone.
  { unfold entryOf. cbv zeta.
    destruct Hrow as [-> | ->];
      [now rewrite andb_false_r | now rewrite andb_false_r]. }
  subst with_row without.
  assert (rows (readConfig_ NumberToString StringToNumber
                  (before ++ row :: after))
          = rows (readConfig_ NumberToString StringToNumber (before ++ after)))
    as Hrows.
  { rewrite !readConfig_rows, !omap_app.
    cbn [omap list_omap]. now rewrite Hnone. }
  split; [exact Hrows|].
  destruct (readConfig_invariant NumberToString StringToNumber
              (before ++ row :: after)) as (_ & _ & ->).
  destruct (readConfig_invariant NumberToString StringToNumber
              (before ++ after)) as (_ & _ & ->).
  now rewrite Hrows.
Qed.

Lemma readConfig_ignores_unbudgeted_witness :
  rows (readConfig_ (fun _ => "0"%string) (fun _ => NaN)
          ([] ++ mkConfigRow (CStr "5529798336") (CStr "Acme") (CStr "")
                             (CBool true)
              :: [mkConfigRow (CStr "552-979-8336") (CStr "Acme Ltd")
                              (CNum (ofZ 25000)) (CStr "TRUE")]))
  = [mkEntry "5529798336" "Acme Ltd" (ofZ 25000)].
Proof.
  apply (readConfig_ignores_unbudgeted (fun _ => "0"%string) (fun _ => NaN)
           []
           [mkConfigRow (CStr "552-979-8336") (CStr "Acme Ltd")
                        (CNum (ofZ 25000)) (CStr "TRUE")]
           (mkConfigRow (CStr "5529798336") (CStr "Acme") (CStr "")
                        (CBool true))).
  right. reflexivity.
Defined.

(** ** Seeding the Config sheet *)

Section SeedProperties.

Variable NumberToString : num -> string.

Local Abbreviation seedRowId := (seedRowId NumberToString).
Local Abbreviation seedRowStep := (seedRowStep NumberToString).
Local Abbreviation seedRowsFrom := (seedRowsFrom NumberToString).
Local Abbreviation seedOrMerge :=
  (seedOrMergeConfigWithAccounts_ NumberToString).

Lemma seedRowStep_lookup m i row id slot :
  seedRowStep m i row !! id = Some slot ->
  seedRowId row = id /\ allDigits id = true /\
    slot = mkSeedSlot (Some (i + 2))
                      (Some (cellText NumberToString (cellName row)))
  \/ m !! id = Some slot /\
     (allDigits (seedRowId row) = true -> seedRowId row <> id).
Proof.
  unfold seedRowStep. cbv zeta.
  destruct (allDigits (seedRowId row)) eqn:Hd; cbn [negb].
  - destruct (decide (seedRowId row = id)) as [Heq|Hne].
    + rewrite Heq, lookup_insert_eq. intros [= <-]. left.
      rewrite <- Heq. auto.
    + rewrite lookup_insert_ne by exact Hne. intros Hm. right. auto.
  - intros Hm. right. split; [exact Hm | discriminate].
Qed.

(** Where a slot of [map] comes from after the loop over the data rows:
    from the last row with its id, or from before the loop. *)
Lemma seedRowsFrom_slot data : forall i m id slot,
  seedRowsFrom data i m !! id = Some slot ->
  (exists (j : nat) row,
      data !! j = Some row /\ seedRowId row = id /\ allDigits id = true /\
      slot = mkSeedSlot (Some (i + Z.of_nat j + 2))
                        (Some (cellText NumberToString (cellName row))) /\
      forall (j' : nat) row', (j < j')%nat -> data !! j' = Some row' ->
                              seedRowId row' <> id)
  \/ m !! id = Some slot /\
     forall (j : nat) row, data !! j = Some row ->
                           allDigits (seedRowId row) = true ->
                           seedRowId row <> id.
Proof.
  induction data as [|r data IH]; intros i m id slot Hs.
  - right. split; [exact Hs|]. intros j row Hj. discriminate.
  - cbn [seedRowsFrom] in Hs.
    destruct (IH _ _ _ _ Hs) as [(j & row & Hj & Hid & Hd & Hslot & Hlater)
                                |[Hm Hnone]].
    + left. exists (S j), row. split; [exact Hj|]. split; [exact Hid|].
      split; [exact Hd|]. split.
      * rewrite Hslot. do 3 f_equal. lia.
      * intros [|j'] row' Hlt Hj'; [lia|].
        apply (Hlater j' row'); [lia | exact Hj'].
    + destruct (seedRowStep_lookup _ _ _ _ _ Hm)
        as [(Hid & Hd & Hslot)|[Hm' Hr]].
      * left. exists 0%nat, r. split; [reflexivity|]. split; [exact Hid|].
        split; [exact Hd|]. split.
        -- rewrite Hslot. do 3 f_equal. lia.
        -- intros [|j'] row' Hlt Hj'; [lia|].
           intros Heq. apply (Hnone j' row' Hj'); [|exact Heq].
           now rewrite Heq.
      * right. split; [exact Hm'|].
        intros [|j] row Hj Hd.
        -- injection Hj as <-. now apply Hr.
        -- now apply (Hnone j row).
Qed.

Lemma seedRowStep_is_Some m i row id :
  is_Some (seedRowStep m i row !! id) <->
  is_Some (m !! id) \/ seedRowId row = id /\ allDigits id = true.
Proof.
  unfold seedRowStep. cbv zeta.
  destruct (allDigits (seedRowId row)) eqn:Hd; cbn [negb].
  - rewrite lookup_insert_is_Some. split.
    + intros [Heq|[_ Hm]]; [right|now left]. rewrite <- Heq. auto.
    + intros [Hm|[Heq _]]; [|now left].
      destruct (decide (seedRowId row = id)); [now left | now right].
  - split; [now left|]. intros [Hm|[Heq Hd']]; [exact Hm|].
    rewrite <- Heq, Hd in Hd'. discriminate.
Qed.

(** The keys of [map] after the loop over the data rows. *)
Lemma seedRowsFrom_is_Some data : forall i m id,
  is_Some (seedRowsFrom data i m !! id) <->
  is_Some (m !! id) \/
  exists row, row ∈ data /\ seedRowId row = id /\ allDigits id = true.
Proof.
  induction data as [|r data IH]; intros i m id; cbn [seedRowsFrom].
  - split; [now left|]. intros [Hm|(row & Hin & _)]; [exact Hm|].
    now apply elem_of_nil in Hin.
  - rewrite IH, seedRowStep_is_Some. split.
    + intros [[Hm|Hr]|(row & Hin & Hrow)].
      * now left.
      * right. exists r. split; [now left | exact Hr].
      * right. exists row. split; [now right | exact Hrow].
    + intros [Hm|(row & Hin & Hrow)]; [now left; left|].
      apply elem_of_cons in Hin as [->|Hin].
      * left. now right.
      * right. now exists row.
Qed.

Lemma seedAccountStep_invariant m0 st l a :
  seedInvariant m0 st l ->
  seedInvariant m0 (seedAccountStep st a) (l ++ [a]).
Proof.
  intros (Hdom & Hnd & Happ & Hslot & Hrows & Hcount).
  assert (forall id, id ∈ map accountIdOf (l ++ [a]) <->
                     id ∈ map accountIdOf l \/ id = accountIdOf a) as Hl.
  { intros id. rewrite map_app, elem_of_app. cbn [map].
    now rewrite list_elem_of_singleton. }
  assert (Forall (fun r => exists a0, a0 ∈ l ++ [a] /\
                                      r = (accountIdOf a0, getName a0))
                 (toAppend st)) as Hrows'.
  { eapply Forall_impl; [exact Hrows|]. cbn. intros r (a0 & Ha0 & ->).
    exists a0. split; [|reflexivity]. apply elem_of_app. now left. }
  unfold seedAccountStep. cbv zeta.
  destruct (seedMap st !! accountIdOf a) as [slot|] eqn:Hlook.
  - assert (seedInvariant m0 st (l ++ [a])) as Hsame.
    { split; [exact Hdom|]. split; [exact Hnd|]. split; [|split; [|split]].
      - intros id. rewrite Happ, Hl. split; [tauto|].
        intros [[Hin| ->] Hnone]; [tauto|]. apply Happ.
        destruct (proj1 (Hdom (accountIdOf a))) as [[s0 Hs0]|Hin];
          [now exists slot | congruence | exact Hin].
      - intros id s0 Hs0. rewrite Hl.
        destruct (Hslot id s0 Hs0) as [?|[? ?]]; [now left | right; tauto].
      - exact Hrows'.
      - exact Hcount. }
    destruct (getName a) as [n|]; [|exact Hsame].
    destruct (negb (String.eqb n "")
              && negb (bool_decide (slotName slot = Some n)));
      [|exact Hsame].
    destruct Hsame as (H1 & H2 & H3 & H4 & H5 & H6).
    split; [exact H1|]. split; [exact H2|]. split; [exact H3|].
    split; [exact H4|]. split; [exact H5|].
    cbn [namesUpdated nameWrites]. rewrite length_app, Hcount.
    cbn [length]. lia.
  - assert (m0 !! accountIdOf a = None /\
            accountIdOf a ∉ map fst (toAppend st)) as [Hm0 Hfresh].
    { destruct (m0 !! accountIdOf a) as [s0|] eqn:Hm0.
      - destruct (proj2 (Hdom (accountIdOf a))) as [s1 Hs1];
          [left; now exists s0 | congruence].
      - split; [reflexivity|]. intros Hin.
        destruct (proj2 (Hdom (accountIdOf a))) as [s1 Hs1];
          [now right | congruence]. }
    unfold seedInvariant. cbn [seedMap toAppend nameWrites namesUpdated].
    assert (forall id, id ∈ map fst (toAppend st ++ [(accountIdOf a, getName a)])
                       <-> id ∈ map fst (toAppend st) \/ id = accountIdOf a)
      as Hnew.
    { intros id. rewrite map_app, elem_of_app. cbn [map fst].
      now rewrite list_elem_of_singleton. }
    split; [|split; [|split; [|split; [|split]]]].
    + intros id. rewrite lookup_insert_is_Some, Hnew, Hdom. split.
      * intros [<-|[_ H]]; tauto.
      * intros [H|[H| ->]]; [| |now left];
          (destruct (decide (accountIdOf a = id)); [now left | right; tauto]).
    + rewrite map_app. cbn [map fst]. apply NoDup_app.
      split; [exact Hnd|]. split; [|apply NoDup_singleton].
      intros x Hx Hx'. apply list_elem_of_singleton in Hx'. now subst x.
    + intros id. rewrite Hnew, Happ, Hl. split.
      * intros [[? ?]| ->]; tauto.
      * intros [[?| ->] ?]; tauto.
    + intros id s0. rewrite Hl.
      destruct (decide (accountIdOf a = id)) as [<-|Hne].
      * rewrite lookup_insert_eq. intros [= <-]. right. cbn. tauto.
      * rewrite lookup_insert_ne by exact Hne. intros Hs0.
        destruct (Hslot id s0 Hs0) as [?|[? ?]]; [now left | right; tauto].
    + apply Forall_app. split; [exact Hrows'|].
      constructor; [|constructor]. exists a. split; [|reflexivity].
      apply elem_of_app. right. now apply list_elem_of_singleton.
    + exact Hcount.
Qed.

Lemma seedOrMerge_invariant data accounts :
  seedInvariant (seedRowsFrom data 0 ∅) (seedOrMerge data accounts) accounts.
Proof.
  unfold seedOrMergeConfigWithAccounts_.
  induction accounts as [|a accounts IH] using rev_ind.
  - cbn [foldl]. unfold seedInvariant. cbn [seedMap toAppend nameWrites
      namesUpdated map length].
    split; [|split; [|split; [|split; [|split]]]].
    + intros id. split; [now left|]. intros [H|H]; [exact H|].
      now apply elem_of_nil in H.
    + constructor.
    + intros id. split; [intros H|intros [H _]]; now apply elem_of_nil in H.
    + intros id slot Hs. now left.
    + constructor.
    + reflexivity.
  - rewrite foldl_app. cbn [foldl]. now apply seedAccountStep_invariant.
Qed.

(** With pairwise distinct account ids, a name is only ever written to a
    row the sheet had before. *)
Lemma seedOrMerge_writes data accounts :
  NoDup (map accountIdOf accounts) ->
  Forall (fun w => exists a slot,
            a ∈ accounts /\ getName a = Some (snd w) /\
            snd w <> ""%string /\
            seedRowsFrom data 0 ∅ !! accountIdOf a = Some slot /\
            fst w = rowIndex slot /\ slotName slot <> Some (snd w))
         (nameWrites (seedOrMerge data accounts)).
Proof.
  unfold seedOrMergeConfigWithAccounts_.
  induction accounts as [|a accounts IH] using rev_ind; intros Hnd.
  - constructor.
  - rewrite map_app in Hnd. apply NoDup_app in Hnd as (Hnd & Hnew & _).
    specialize (IH Hnd).
    assert (Forall (fun w => exists a0 slot,
              a0 ∈ accounts ++ [a] /\ getName a0 = Some (snd w) /\
              snd w <> ""%string /\
              seedRowsFrom data 0 ∅ !! accountIdOf a0 = Some slot /\
              fst w = rowIndex slot /\ slotName slot <> Some (snd w))
            (nameWrites
               (foldl (seedAccountStep)
                  (mkSeedState (seedRowsFrom data 0 ∅) [] [] 0) accounts)))
      as IH'.
    { eapply Forall_impl; [exact IH|]. cbn.
      intros w (a0 & slot & Ha0 & Hrest). exists a0, slot.
      split; [|exact Hrest]. apply elem_of_app. now left. }
    rewrite foldl_app. cbn [foldl].
    pose proof (seedOrMerge_invariant data accounts) as (_ & _ & _ & Hslot & _).
    unfold seedOrMergeConfigWithAccounts_ in Hslot.
    set (st := foldl _ _ accounts) in *.
    unfold seedAccountStep. cbv zeta.
    destruct (seedMap st !! accountIdOf a) as [slot|] eqn:Hlook;
      [|exact IH'].
    destruct (getName a) as [n|] eqn:Hname; [|exact IH'].
    destruct (String.eqb_spec n "") as [Hn|Hn]; cbn [negb andb]; [exact IH'|].
    case_bool_decide as Hsame; cbn [negb]; [exact IH'|].
    cbn [nameWrites]. apply Forall_app. split; [exact IH'|].
    constructor; [|constructor]. exists a, slot. cbn [fst snd].
    split; [apply elem_of_app; right; now apply list_elem_of_singleton|].
    split; [exact Hname|]. split; [exact Hn|].
    split; [|split; [reflexivity | exact Hsame]].
    destruct (Hslot _ _ Hlook) as [Hm0|[_ Hin]]; [exact Hm0|].
    exfalso. apply (Hnew (accountIdOf a)); [exact Hin|].
    cbn [map]. now apply list_elem_of_singleton.
Qed.

End SeedProperties.

(** X22 (seedOrMergeConfigWithAccounts_): for accounts whose ids are made
    of digits (dashes apart), the rows appended to the Config sheet are
    exactly the accounts of the manager account that no data row of the
    sheet names (dashes and surrounding blanks in the sheet's id cell set
    aside): each such account is appended once, with its id without dashes
    and its name, and no account that has a row is. *)
Theorem seed_appends_missing_accounts (NumberToString : num -> string)
    (data : list ConfigRow) (accounts : list Account) :
  Forall (fun a => allDigits (accountIdOf a) = true) accounts ->
  let st := seedOrMergeConfigWithAccounts_ NumberToString data accounts in
  NoDup (map fst (toAppend st)) /\
  (forall id, id ∈ map fst (toAppend st) <->
     id ∈ map accountIdOf accounts /\
     ~ exists row, row ∈ data /\ seedRowId NumberToString row = id) /\
  Forall (fun r => exists a, a ∈ accounts /\ r = (accountIdOf a, getName a))
         (toAppend st).
Proof.
  intros Hdigits st.
  destruct (seedOrMerge_invariant NumberToString data accounts)
    as (_ & Hnd & Happ & _ & Hrows & _).
  fold st in Hnd, Happ, Hrows.
  split; [exact Hnd|]. split; [|exact Hrows].
  intros id. rewrite Happ. split.
  - intros [Hin Hnone]. split; [exact Hin|].
    intros (row & Hrow & Hid).
    assert (is_Some (seedRowsFrom NumberToString data 0 ∅ !! id)) as [s0 Hs0].
    { apply seedRowsFrom_is_Some. right. exists row.
      split; [exact Hrow|]. split; [exact Hid|].
      apply list_elem_of_fmap in Hin as (a & -> & Ha).
      rewrite Forall_forall in Hdigits. now apply Hdigits. }
    congruence.
  - intros [Hin Hno]. split; [exact Hin|].
    destruct (seedRowsFrom NumberToString data 0 ∅ !! id) as [s0|] eqn:Hs0;
      [|reflexivity].
    exfalso. apply Hno.
    destruct (proj1 (seedRowsFrom_is_Some NumberToString data 0 ∅ id))
      as [[s1 Hs1]|(row & Hrow & Hid & _)].
    + now exists s0.
    + rewrite lookup_empty in Hs1. discriminate.
    + now exists row.
Qed.

Lemma seed_appends_missing_accounts_witness :
  toAppend
    (seedOrMergeConfigWithAccounts_ (fun _ => "0"%string)
       [mkConfigRow (CStr " 5529798336 ") (CStr "Acme") (CStr "") (CBool true)]
       [mkAccount "552-979-8336" (Some "Acme Ltd");
        mkAccount "123-456-7890" (Some "Bolt")])
  = [("1234567890"%string, Some "Bolt"%string)] /\
  NoDup
    (map fst
       (toAppend
          (seedOrMergeConfigWithAccounts_ (fun _ => "0"%string)
             [mkConfigRow (CStr " 5529798336 ") (CStr "Acme") (CStr "")
                          (CBool true)]
             [mkAccount "552-979-8336" (Some "Acme Ltd");
              mkAccount "123-456-7890" (Some "Bolt")]))).
Proof.
  split; [reflexivity|].
  apply (seed_appends_missing_accounts (fun _ => "0"%string)
           [mkConfigRow (CStr " 5529798336 ") (CStr "Acme") (CStr "")
                        (CBool true)]
           [mkAccount "552-979-8336" (Some "Acme Ltd");
            mkAccount "123-456-7890" (Some "Bolt")]).
  repeat constructor.
Defined.

(** X23 (seedOrMergeConfigWithAccounts_): when the accounts have pairwise
    distinct ids made of digits (dashes apart), every name written to the
    sheet goes to a row the sheet already had -- the last data row with the
    account's id -- and it is the account's name, not empty and different
    from the text of that row's name cell; [namesUpdated] counts these
    writes. *)
Theorem seed_renames_existing_rows (NumberToString : num -> string)
    (data : list ConfigRow) (accounts : list Account) :
  Forall (fun a => allDigits (accountIdOf a) = true) accounts ->
  NoDup (map accountIdOf accounts) ->
  let st := seedOrMergeConfigWithAccounts_ NumberToString data accounts in
  namesUpdated st = Z.of_nat (length (nameWrites st)) /\
  Forall (fun w => exists (j : nat) row a,
            fst w = Some (Z.of_nat j + 2) /\ data !! j = Some row /\
            a ∈ accounts /\ seedRowId NumberToString row = accountIdOf a /\
            getName a = Some (snd w) /\ snd w <> ""%string /\
            cellText NumberToString (cellName row) <> snd w /\
            forall (j' : nat) row', (j < j')%nat -> data !! j' = Some row' ->
              seedRowId NumberToString row' <> accountIdOf a)
         (nameWrites st).
Proof.
  intros _ Hnd st. split.
  - apply (seedOrMerge_invariant NumberToString data accounts).
  - eapply Forall_impl; [apply (seedOrMerge_writes NumberToString data accounts Hnd)|].
    cbn beta. intros w (a & slot & Ha & Hname & Hne & Hslot & Hrow & Hdiff).
    destruct (seedRowsFrom_slot NumberToString _ _ _ _ _ Hslot)
      as [(j & row & Hj & Hid & _ & -> & Hlater)|[Hempty _]].
    + exists j, row, a. cbn [rowIndex slotName] in Hrow, Hdiff.
      split; [rewrite Hrow; f_equal; lia|]. split; [exact Hj|].
      split; [exact Ha|]. split; [exact Hid|]. split; [exact Hname|].
      split; [exact Hne|]. split; [congruence | exact Hlater].
    + rewrite lookup_empty in Hempty. discriminate.
Qed.

Lemma seed_renames_existing_rows_witness :
  nameWrites
    (seedOrMergeConfigWithAccounts_ (fun _ => "0"%string)
       [mkConfigRow (CStr " 5529798336 ") (CStr "Acme") (CStr "") (CBool true)]
       [mkAccount "552-979-8336" (Some "Acme Ltd");
        mkAccount "123-456-7890" (Some "Bolt")])
  = [(Some 2, "Acme Ltd"%string)] /\
  namesUpdated
    (seedOrMergeConfigWithAccounts_ (fun _ => "0"%string)
       [mkConfigRow (CStr " 5529798336 ") (CStr "Acme") (CStr "") (CBool true)]
       [mkAccount "552-979-8336" (Some "Acme Ltd");
        mkAccount "123-456-7890" (Some "Bolt")])
  = 1.
Proof.
  split; [reflexivity|].
  apply (seed_renames_existing_rows (fun _ => "0"%string)
           [mkConfigRow (CStr " 5529798336 ") (CStr "Acme") (CStr "")
                        (CBool true)]
           [mkAccount "552-979-8336" (Some "Acme Ltd");
            mkAccount "123-456-7890" (Some "Bolt")]).
  - repeat constructor.
  - apply (bool_decide_unpack
             (NoDup (map accountIdOf
                       [mkAccount "552-979-8336" (Some "Acme Ltd");
                        mkAccount "123-456-7890" (Some "Bolt")]))).
    reflexivity.
Defined.

(** ** The spreadsheet id *)

Section SheetUrl.




Lemma matchSheetId_cons c l :
  matchSheetId (c :: l)
  = match stripPrefix (chars "/d/") (c :: l) with
    | Some rest =>
        match takeWhile isIdChar rest with
        | [] => matchSheetId l
        | id => Some id
        end
    | None => matchSheetId l
    end.
Proof. reflexivity. Qed.

Lemma hasSlashD_cons c l :
  hasSlashD (c :: l)
  = match stripPrefix (chars "/d/") (c :: l) with
    | Some _ => true
    | None => hasSlashD l
    end.
Proof. reflexivity. Qed.



(** Group 1 of a match is never empty. *)
Lemma matchSheetId_nonempty l : forall id,
  matchSheetId l = Some id -> id <> [].
Proof.
  induction l as [|c l IH]; intros id Hm; [discriminate|].
  rewrite matchSheetId_cons in Hm.
  destruct (stripPrefix (chars "/d/") (c :: l)) as [r|]; [|now apply IH].
  destruct (takeWhile isIdChar r) as [|x r']; [now apply IH|].
  now injection Hm as <-.
Qed.

End SheetUrl.



(** X25 (getUserSpreadsheet_): once a call has returned an id, every later
    call returns the same id and leaves the stored property as it is,
    whatever [USER_SHEET_URL] has become: the URL is read only as long as
    no id is stored. *)
Theorem getUserSpreadsheet_keeps_id (stored stored' : option string)
    (url url' id : string) :
  getUserSpreadsheet_ stored url = inr (id, stored') ->
  getUserSpreadsheet_ stored' url' = inr (id, stored').
Proof.
  assert (forall l, matchSheetId (chars url) = Some l ->
            getUserSpreadsheet_ (Some (text l)) url'
            = inr (text l, Some (text l))) as Hurl.
  { intros l Hm. apply matchSheetId_nonempty in Hm.
    destruct l as [|c l]; [contradiction | reflexivity]. }
  unfold getUserSpreadsheet_ at 1.
  destruct stored as [s|]; [destruct (String.eqb_spec s "") as [->|Hs]|];
    cbn [negb default].
  - destruct (_ || _); [discriminate|].
    destruct (matchSheetId (chars url)) as [l|] eqn:Hm; [|discriminate].
    intros [= <- <-]. now apply Hurl.
  - intros [= <- <-]. unfold getUserSpreadsheet_.
    now destruct (String.eqb_spec s "").
  - destruct (_ || _); [discriminate|].
    destruct (matchSheetId (chars url)) as [l|] eqn:Hm; [|discriminate].
    intros [= <- <-]. now apply Hurl.
Qed.

Lemma getUserSpreadsheet_keeps_id_witness :
  getUserSpreadsheet_ (Some "INSERTSHEETID") "https://example.org/"
  = inr ("INSERTSHEETID"%string, Some "INSERTSHEETID"%string).
Proof.
  apply (getUserSpreadsheet_keeps_id None (Some "INSERTSHEETID")
           "https://docs.google.com/spreadsheets/d/INSERTSHEETID/"
           "https://example.org/" "INSERTSHEETID").
  reflexivity.
Defined.

(** X26 (getUserSpreadsheet_): a bare spreadsheet id in [USER_SHEET_URL]
    -- letters, digits, '-' and '_' only, or nothing at all -- is refused
    when no id is stored: the call throws 'Please paste a valid Google
    Sheet URL ...' instead of opening that id. *)
Theorem getUserSpreadsheet_refuses_bare_id (url : string) :
  forallb isIdChar (chars url) = true ->
  getUserSpreadsheet_ None url = inl NoValidUrl.
Proof.
  intros Hcls. unfold getUserSpreadsheet_.
  replace (hasSlashD (chars url)) with false;
    [now rewrite orb_true_r|].
  symmetry. induction (chars url) as [|c l IH]; [reflexivity|].
  cbn [forallb] in Hcls. apply andb_prop in Hcls as [Hc Hl].
  rewrite hasSlashD_cons.
  replace (stripPrefix (chars "/d/") (c :: l)) with (@None (list ascii));
    [now apply IH|].
  change (stripPrefix (chars "/d/") (c :: l))
    with (if Ascii.eqb "/" c then stripPrefix (chars "d/") l else None).
  replace (Ascii.eqb "/" c) with false; [reflexivity|].
  clear -Hc. destruct c as [[] [] [] [] [] [] [] []]; vm_compute in Hc |- *;
    congruence.
Qed.

Lemma getUserSpreadsheet_refuses_bare_id_witness :
  getUserSpreadsheet_ None "1AbC-dEf_0123456789" = inl NoValidUrl.
Proof.
  apply (getUserSpreadsheet_refuses_bare_id "1AbC-dEf_0123456789").
  reflexivity.
Defined.
